(** * The referral-graph materializer and aggregation engine of bdc-backend

A shallow embedding of the event listener (registration, deposit and
commission handlers), the setup-levels route, the recursive downline
walk, the team summaries and the in-memory result cache, followed by
the properties proved about them.

Conventions of the embedding:
- a MongoDB collection is the list of its documents in insertion
  order; [findOne] returns the first match, [find] all matches;
- a handler is a computation over the database that may throw; the
  [try { ... } catch (error) { logger.error(...) }] wrapper of a
  handler turns a throw into the logged error, returned next to the
  database the handler leaves behind (nothing is rolled back);
- JavaScript numbers are kept abstract (class [Number]); the clock
  ([new Date()], [Date.now()]) is an explicit argument in milliseconds. *)

From Stdlib Require Import String Ascii List Bool Arith NArith ZArith Lia.
From stdpp Require Import base gmap strings.
Import ListNotations.

Open Scope string_scope.
Open Scope list_scope.
Open Scope nat_scope.

(** ** Strings *)

(** [String.prototype.toLowerCase] on the ASCII range (wallet addresses are
hexadecimal strings): the letters A to Z are mapped, every other
character, the cased letters outside ASCII among them, is left as it is.
The properties below use of it only that it is idempotent and keeps a
string empty or non-empty. *)
Definition lower_ascii (c : ascii) : ascii :=
  let n := nat_of_ascii c in
  if (65 <=? n) && (n <=? 90) then ascii_of_nat (n + 32) else c.

Fixpoint toLowerCase (s : string) : string :=
  match s with
  | EmptyString => EmptyString
  | String c s' => String (lower_ascii c) (toLowerCase s')
  end.

(** Truthiness of a string value: every string but the empty one. *)
Definition nonEmpty (s : string) : bool :=
  match s with EmptyString => false | String _ _ => true end.

(** ** Numbers *)

(** The operations of JavaScript numbers the modelled code uses, with the
three facts about zero that the zero-safety results rely on. They hold
of IEEE doubles: [0 > 0] is false, [0 + 0] is [0], and
[parseFloat((0).toFixed(d))] is [0]. *)
Class Number := {
  num : Type;
  zero : num;
  add : num -> num -> num;
  mul : num -> num -> num;
  div : num -> num -> num;
  gtb : num -> num -> bool;
  geb : num -> num -> bool;
  ofNat : nat -> num;
  (** [toFixed d x] is [parseFloat(x.toFixed(d))] *)
  toFixed : nat -> num -> num;
  gtb_zero_zero : gtb zero zero = false;
  add_zero_zero : add zero zero = zero;
  toFixed_zero : forall d, toFixed d zero = zero
}.

(** [arr.reduce((sum, x) => sum + f(x), 0)] *)
Definition sumOf `{Number} {A : Type} (f : A -> num) (l : list A) : num :=
  fold_left (fun sum x => add sum (f x)) l zero.

(** ** Collections *)

(** [Model.findOne(query)] *)
Definition findOne {A : Type} (q : A -> bool) (coll : list A) : option A :=
  List.find q coll.

(** [Model.find(query)] *)
Definition findAll {A : Type} (q : A -> bool) (coll : list A) : list A :=
  List.filter q coll.

(** [doc = await Model.findOne(query); mutate doc; await doc.save()]:
the first matching document is replaced in place. *)
Fixpoint updateFirst {A : Type} (q : A -> bool) (f : A -> A) (coll : list A)
  : list A :=
  match coll with
  | [] => []
  | x :: xs => if q x then f x :: xs else x :: updateFirst q f xs
  end.

(** [for (const doc of await Model.find(query)) { mutate doc; await doc.save() }] *)
Definition updateAll {A : Type} (q : A -> bool) (f : A -> A) (coll : list A)
  : list A :=
  List.map (fun x => if q x then f x else x) coll.

(** ** models/User.js *)

Module User.

Inductive status_t := active | inactive | suspended.

Definition status_eqb (a b : status_t) : bool :=
  match a, b with
  | active, active | inactive, inactive | suspended, suspended => true
  | _, _ => false
  end.

Section WithNumber.
Context `{JS : Number}.

Record deposit := mkDeposit {
  amount : num;
  txHash : string;
  blockNumber : nat;
  timestamp : N
}.

Record t := mk {
  walletAddress : string;
  referrerAddress : option string;
  deposits : list deposit;
  registrationTime : N;
  status : status_t
}.

(** [new User({ walletAddress, referrerAddress, registrationTime })]:
    both address paths carry [lowercase: true]; [status] defaults to
    ['active'], [deposits] to the empty array. *)
Definition create (wallet : string) (referrer : option string)
    (now : N) : t :=
  mk (toLowerCase wallet) (option_map toLowerCase referrer) [] now active.

(** [user.referrerAddress = r] *)
Definition setReferrer (r : string) (u : t) : t :=
  mk (walletAddress u) (Some (toLowerCase r)) (deposits u)
     (registrationTime u) (status u).

(** [this.deposits.push({ amount, txHash, blockNumber, timestamp })] *)
Definition pushDeposit (d : deposit) (u : t) : t :=
  mk (walletAddress u) (referrerAddress u) (deposits u ++ [d])
     (registrationTime u) (status u).

(** [userSchema.statics.findByWallet] *)
Definition findByWallet (coll : list t) (wallet : string) : option t :=
  findOne (fun u => String.eqb (walletAddress u) (toLowerCase wallet)) coll.

(** [userSchema.methods.getTotalDeposits] *)
Definition getTotalDeposits (u : t) : num := sumOf amount (deposits u).

(** [userSchema.methods.getDepositCount] *)
Definition getDepositCount (u : t) : nat := List.length (deposits u).

End WithNumber.
End User.

(** ** models/Level.js *)

Module Level.
Section WithNumber.
Context `{JS : Number}.

Record t := mk {
  userAddress : string;
  referrerAddress : string;
  level : nat;
  totalInvestment : num;
  totalEarnings : num;
  isActive : bool;
  registrationTime : N
}.

(** [new Level({ userAddress, referrerAddress, level, registrationTime })]
    with the schema's setters and defaults. *)
Definition create (user referrer : string) (lvl : nat) (now : N) : t :=
  mk (toLowerCase user) (toLowerCase referrer) lvl zero zero true now.

(** The schema's validators: both addresses [required], [level] with
    [min: 1] and [max: 21]. *)
Definition validate (r : t) : bool :=
  nonEmpty (userAddress r) && nonEmpty (referrerAddress r)
  && (1 <=? level r) && (level r <=? 21).

(** [levelSchema.methods.addInvestment] (the field update) *)
Definition addInvestment (amount : num) (r : t) : t :=
  mk (userAddress r) (referrerAddress r) (level r)
     (add (totalInvestment r) amount) (totalEarnings r)
     (isActive r) (registrationTime r).

(** [levelSchema.methods.addEarnings] (the field update) *)
Definition addEarnings (amount : num) (r : t) : t :=
  mk (userAddress r) (referrerAddress r) (level r)
     (totalInvestment r) (add (totalEarnings r) amount)
     (isActive r) (registrationTime r).

(** The key of a relationship: (descendant, ancestor, level). *)
Definition hasKey (user referrer : string) (lvl : nat) (r : t) : bool :=
  String.eqb (userAddress r) user && String.eqb (referrerAddress r) referrer
  && (level r =? lvl).

End WithNumber.
End Level.

(** ** models/Investment.js *)

Module Investment.

Inductive type_t := USDT | BDC.
Inductive status_t := pending | confirmed | failed.

Section WithNumber.
Context `{JS : Number}.

Record t := mk {
  userAddress : string;
  amount : num;
  txHash : string;
  blockNumber : nat;
  type : type_t;
  status : status_t;
  investmentTime : N
}.

(** [new Investment({ userAddress, amount, txHash, blockNumber, type,
    investmentTime })]; [status] defaults to ['confirmed']. *)
Definition create (user : string) (amt : num) (tx : string) (blk : nat)
    (ty : type_t) (now : N) : t :=
  mk (toLowerCase user) amt tx blk ty confirmed now.

(** The schema's validators: [userAddress] and [txHash] required,
    [amount] with [min: 0]. *)
Definition validate (i : t) : bool :=
  nonEmpty (userAddress i) && geb (amount i) zero && nonEmpty (txHash i).

(** The unique index on [txHash]. *)
Definition txExists (coll : list t) (tx : string) : bool :=
  existsb (fun i => String.eqb (txHash i) tx) coll.

End WithNumber.
End Investment.

(** ** The database and the handlers' effects *)

(** What a modelled call can throw: a [TypeError] (a method called on
    [null] or [undefined]), a Mongoose [ValidationError], or MongoDB's
    duplicate-key error (E11000) of a unique index. *)
Inductive error := TypeError | ValidationError | DuplicateKeyError.

Inductive outcome (A : Type) : Type :=
| Ok (a : A)
| Throw (e : error).

Arguments Ok {A} a.
Arguments Throw {A} e.

Section Store.
Context `{JS : Number}.

Record DB := mkDB {
  users : list User.t;
  levels : list Level.t;
  investments : list Investment.t
}.

Definition emptyDB : DB := mkDB [] [] [].

(** A computation reads and writes the database and returns or throws;
    the writes made before a throw stay. *)
Definition M (A : Type) : Type := DB -> DB * outcome A.

Definition ret {A : Type} (a : A) : M A := fun db => (db, Ok a).

Definition throw {A : Type} (e : error) : M A := fun db => (db, Throw e).

Definition bind {A B : Type} (m : M A) (k : A -> M B) : M B :=
  fun db =>
    match m db with
    | (db', Ok a) => k a db'
    | (db', Throw e) => (db', Throw e)
    end.

Definition gets {A : Type} (f : DB -> A) : M A := fun db => (db, Ok (f db)).

Definition setUsers (f : list User.t -> list User.t) : M unit :=
  fun db => (mkDB (f (users db)) (levels db) (investments db), Ok tt).

Definition setLevels (f : list Level.t -> list Level.t) : M unit :=
  fun db => (mkDB (users db) (f (levels db)) (investments db), Ok tt).

Definition setInvestments (f : list Investment.t -> list Investment.t)
  : M unit :=
  fun db => (mkDB (users db) (levels db) (f (investments db)), Ok tt).

(** A function whose whole body is [try { ... } catch (error) {
    logger.error(...) }]: it always returns, and what it logged (if
    anything) is its result here. *)
Definition Handler : Type := DB -> DB * option error.

Definition caught (m : M unit) : Handler :=
  fun db =>
    match m db with
    | (db', Ok _) => (db', None)
    | (db', Throw e) => (db', Some e)
    end.

(** [await handler(...)] from inside another computation. *)
Definition call (h : Handler) : M unit :=
  fun db => (fst (h db), Ok tt).

(** [x.toLowerCase()] where [x] may be [null] or [undefined]. *)
Definition lowerOf (x : option string) : M string :=
  match x with
  | Some s => ret (toLowerCase s)
  | None => throw TypeError
  end.

End Store.

Declare Scope js_scope.
Delimit Scope js_scope with js.
Notation "'let!' x ':=' m 'in' k" := (bind m (fun x => k))
  (at level 10, x name, m at level 100, k at level 200) : js_scope.
Notation "m ';;;' k" := (bind m (fun _ => k))
  (at level 100, k at level 200, right associativity) : js_scope.

(** [for (const x of l) { await body(x) }] *)
Fixpoint forEach `{JS : Number} {A : Type} (l : list A) (body : A -> M unit)
  : M unit :=
  match l with
  | [] => ret tt
  | x :: xs => bind (body x) (fun _ => forEach xs body)
  end.

(** ** Saving documents *)

Section Saves.
Context `{JS : Number}.
Open Scope js_scope.

(** [await user.save()] for a new user: [walletAddress] is required, and
    unique by its index. *)
Definition saveNewUser (u : User.t) : M unit :=
  if negb (nonEmpty (User.walletAddress u)) then throw ValidationError
  else
    let! coll := gets users in
    if existsb (fun v => String.eqb (User.walletAddress v) (User.walletAddress u)) coll
    then throw DuplicateKeyError
    else setUsers (fun c => c ++ [u]).

(** [await level.save()] for a new relationship row. *)
Definition saveNewLevel (r : Level.t) : M unit :=
  if Level.validate r then setLevels (fun c => c ++ [r])
  else throw ValidationError.

(** [await investment.save()] for a new ledger entry: validation, then the
    unique index on [txHash]. *)
Definition saveNewInvestment (i : Investment.t) : M unit :=
  if negb (Investment.validate i) then throw ValidationError
  else
    let! coll := gets investments in
    if Investment.txExists coll (Investment.txHash i)
    then throw DuplicateKeyError
    else setInvestments (fun c => c ++ [i]).

(** [userSchema.methods.addDeposit] on the user found under [wallet]: the
    deposit is pushed and the document saved; a deposit's [txHash] is
    required. *)
Definition addDeposit (wallet : string) (amount : num) (txHash : string)
    (blockNumber : nat) (now : N) : M unit :=
  if negb (nonEmpty txHash) then throw ValidationError
  else
    setUsers (updateFirst
      (fun u => String.eqb (User.walletAddress u) (toLowerCase wallet))
      (User.pushDeposit (User.mkDeposit amount txHash blockNumber now))).

End Saves.

(** ** services/eventListener.js *)

Module EventListener.
Section WithNumber.
Context `{JS : Number}.
Open Scope js_scope.

(** The loop of [getUplineChain]: at most [maxLevels] rounds, each looking
    up the current address and moving to that user's referrer; it stops at
    an unknown address and at a user without a referrer. *)
Fixpoint uplineFrom (coll : list User.t) (currentAddress : string)
    (maxLevels : nat) : list string :=
  match maxLevels with
  | 0 => []
  | S n =>
    match User.findByWallet coll currentAddress with
    | Some user =>
      match User.referrerAddress user with
      | Some r => if nonEmpty r then r :: uplineFrom coll r n else []
      | None => []
      end
    | None => []
    end
  end.

Definition getUplineChain (userAddress : option string) (maxLevels : nat)
  : M (list string) :=
  let! currentAddress := lowerOf userAddress in
  let! coll := gets users in
  ret (uplineFrom coll currentAddress maxLevels).

(** One round of the loop of [createLevelRelationships], for index [i]. *)
Definition createRelation (userAddress : string) (now : N) (i : nat)
    (uplineAddress : string) : M unit :=
  let level := i + 1 in
  let! existingLevel := gets (fun db =>
    findOne (Level.hasKey (toLowerCase userAddress)
                          (toLowerCase uplineAddress) level) (levels db)) in
  match existingLevel with
  | Some _ => ret tt
  | None =>
    saveNewLevel (Level.create (toLowerCase userAddress)
                               (toLowerCase uplineAddress) level now)
  end.

(** [for (let i = 0; i < uplineChain.length && i < 21; i++)], on the part
    of the chain from index [i] on. *)
Fixpoint createFrom (userAddress : string) (now : N)
    (uplineChain : list string) (i : nat) : M unit :=
  match uplineChain with
  | [] => ret tt
  | uplineAddress :: rest =>
    if i <? 21 then
      createRelation userAddress now i uplineAddress ;;;
      createFrom userAddress now rest (S i)
    else ret tt
  end.

Definition createLevelRelationships (userAddress : string)
    (referrerAddress : option string) (now : N) : Handler :=
  caught (
    let! uplineChain := getUplineChain referrerAddress 21 in
    createFrom userAddress now uplineChain 0).

Definition handleRegistrationEvent (userAddress : string)
    (referrerAddress : option string) (now : N) : Handler :=
  caught (
    let! user := gets (fun db => User.findByWallet (users db) userAddress) in
    match user with
    | None =>
      let! r := lowerOf referrerAddress in
      saveNewUser (User.create (toLowerCase userAddress) (Some r) now)
    | Some _ =>
      let! r := lowerOf referrerAddress in
      setUsers (updateFirst
        (fun u => String.eqb (User.walletAddress u) (toLowerCase userAddress))
        (User.setReferrer r))
    end ;;;
    call (createLevelRelationships userAddress referrerAddress now)).

Definition updateLevelInvestments (userAddress : string) (amount : num)
  : Handler :=
  caught (
    setLevels (updateAll
      (fun r => String.eqb (Level.userAddress r) (toLowerCase userAddress)
                && Level.isActive r)
      (Level.addInvestment amount))).

Definition updateLevelEarnings (userAddress fromAddress : string)
    (amount : num) (level : nat) : Handler :=
  caught (
    setLevels (updateFirst
      (fun r => Level.hasKey (toLowerCase fromAddress)
                             (toLowerCase userAddress) level r
                && Level.isActive r)
      (Level.addEarnings amount))).

(** [amount] is [parseFloat(ethers.formatEther(amount))], [tokenIsZero]
    the value of [token === 0] (false for the BigInt that ethers passes
    for a uint256); [blockNumber] and [txHash] are [event.blockNumber] and
    [event.transactionHash]. *)
Definition handleDepositEvent (userAddress : string) (amount : num)
    (tokenIsZero : bool) (blockNumber : nat) (txHash : string) (now : N)
  : Handler :=
  caught (
    let! user := gets (fun db => User.findByWallet (users db) userAddress) in
    match user with
    | None => saveNewUser (User.create (toLowerCase userAddress) None now)
    | Some _ => ret tt
    end ;;;
    addDeposit userAddress amount txHash blockNumber now ;;;
    saveNewInvestment
      (Investment.create (toLowerCase userAddress) amount txHash blockNumber
         (if tokenIsZero then Investment.USDT else Investment.BDC) now) ;;;
    call (updateLevelInvestments userAddress amount)).

(** [value] is [parseFloat(ethers.formatEther(value))]; [level] is
    [parseInt(level)]. *)
Definition handleTransactionEvent (userAddress fromAddress : string)
    (value : num) (level : nat) : Handler :=
  caught (call (updateLevelEarnings userAddress fromAddress value level)).

End WithNumber.
End EventListener.

(** A user whose stored [referrerAddress] is the string [a] (the query
    [{ referrerAddress: a }]). *)
Definition refersTo `{JS : Number} (a : string) (u : User.t) : bool :=
  match User.referrerAddress u with
  | Some r => String.eqb r a
  | None => false
  end.

(** The query [{ referrerAddress: a, status: 'active' }] on users. *)
Definition activeReferralOf `{JS : Number} (a : string) (u : User.t) : bool :=
  refersTo a u && User.status_eqb (User.status u) User.active.

(** ** routes/userRoutes.js: setup-levels *)

Module UserRoutes.

Inductive response :=
| NotFound
| Completed (directReferrals : nat)
| ServerError (e : error).

Section WithNumber.
Context `{JS : Number}.
Open Scope js_scope.

(** The find-or-create step shared by the route and its helper: the row
    (referral, referrer, level) is created, with the referral's
    registration time, unless a row with that key exists. The filter of
    [Level.findOne] is cast by the schema, whose address paths are
    [lowercase: true]: the lookup is for the lower-cased addresses. *)
Definition ensureLevel (referral : User.t) (referrer : string) (lvl : nat)
  : M unit :=
  let! existingLevel := gets (fun db =>
    findOne (Level.hasKey (toLowerCase (User.walletAddress referral))
                          (toLowerCase referrer) lvl)
            (levels db)) in
  match existingLevel with
  | Some _ => ret tt
  | None =>
    saveNewLevel (Level.create (User.walletAddress referral) referrer lvl
                               (User.registrationTime referral))
  end.

(** [createDeeperLevels(userAddress, originalReferrer, currentLevel)], by
    recursion on [remaining = 22 - currentLevel]: the guard
    [currentLevel > 21] is [remaining = 0], and the call for
    [currentLevel + 1] has one less remaining. The filter of [User.find]
    is cast by the schema ([referrerAddress] is [lowercase: true]). *)
Fixpoint createDeeperLevelsFrom (remaining : nat)
    (userAddress originalReferrer : string) : M unit :=
  match remaining with
  | 0 => ret tt
  | S rem =>
    let currentLevel := 21 - rem in
    let! userReferrals := gets (fun db =>
      findAll (activeReferralOf (toLowerCase userAddress)) (users db)) in
    forEach userReferrals (fun referral =>
      ensureLevel referral originalReferrer currentLevel ;;;
      createDeeperLevelsFrom rem (User.walletAddress referral)
                             originalReferrer)
  end.

Definition createDeeperLevels (userAddress originalReferrer : string)
    (currentLevel : nat) : M unit :=
  createDeeperLevelsFrom (22 - currentLevel) userAddress originalReferrer.

(** [POST /:walletAddress/setup-levels] *)
Definition setupLevels (param : string) (db : DB) : DB * response :=
  let walletAddress := toLowerCase param in
  match User.findByWallet (users db) walletAddress with
  | None => (db, NotFound)
  | Some _ =>
    let directReferrals :=
      findAll (activeReferralOf walletAddress) (users db) in
    match
      (forEach directReferrals (fun referral =>
         ensureLevel referral walletAddress 1) ;;;
       forEach directReferrals (fun referral =>
         createDeeperLevels (User.walletAddress referral) walletAddress 2))
      db
    with
    | (db', Ok _) => (db', Completed (List.length directReferrals))
    | (db', Throw e) => (db', ServerError e)
    end
  end.

(** *** Creating a user and setting its status *)

Inductive createResponse :=
| BadRequest
| Conflict (user : User.t)
| Created (user : User.t)
| Failed (e : error).

(** [POST /], for a body whose [walletAddress] and [referrerAddress] are
    strings or absent: [referrerAddress ? referrerAddress.toLowerCase() :
    null] keeps a non-empty referrer only. *)
Definition createUser (walletAddress referrerAddress : option string)
    (now : N) (db : DB) : DB * createResponse :=
  match walletAddress with
  | None => (db, BadRequest)
  | Some w =>
    if negb (nonEmpty w) then (db, BadRequest)
    else
      match User.findByWallet (users db) w with
      | Some user => (db, Conflict user)
      | None =>
        let user :=
          User.create (toLowerCase w)
            (match referrerAddress with
             | Some r => if nonEmpty r then Some (toLowerCase r) else None
             | None => None
             end)
            now in
        match saveNewUser user db with
        | (db', Ok _) => (db', Created user)
        | (db', Throw e) => (db', Failed e)
        end
      end
  end.

Inductive statusResponse :=
| InvalidStatus
| UnknownUser
| Updated (walletAddress : string) (status : User.status_t).

(** [user.status = status] *)
Definition withStatus (st : User.status_t) (u : User.t) : User.t :=
  User.mk (User.walletAddress u) (User.referrerAddress u) (User.deposits u)
          (User.registrationTime u) st.

(** [PATCH /:walletAddress/status]; [status] is [None] for a body whose
    [status] is not one of the three names. *)
Definition updateStatus (param : string) (status : option User.status_t)
    (db : DB) : DB * statusResponse :=
  let walletAddress := toLowerCase param in
  match status with
  | None => (db, InvalidStatus)
  | Some st =>
    match User.findByWallet (users db) walletAddress with
    | None => (db, UnknownUser)
    | Some user =>
      (mkDB (updateFirst
               (fun u => String.eqb (User.walletAddress u)
                                    (toLowerCase walletAddress))
               (withStatus st) (users db))
            (levels db) (investments db),
       Updated (User.walletAddress user) st)
    end
  end.

End WithNumber.
End UserRoutes.

(** ** routes/investmentRoutes.js: the helper that propagates a deposit *)

Module InvestmentRoutes.
Section WithNumber.
Context `{JS : Number}.
Open Scope js_scope.

(** The [while (currentReferrer && currentLevel <= 21)] loop, by recursion
    on [remaining = 22 - currentLevel]; [currentReferrer] is non-empty
    whenever the loop is entered. The filter of [Level.findOne] is cast by
    the schema, whose address paths are [lowercase: true]: the row is
    looked up under the lower-cased addresses, the spelling under which a
    new row is saved. *)
Fixpoint climb (remaining : nat) (userAddress : string)
    (investmentAmount : num) (registrationTime : N)
    (currentReferrer : string) : M unit :=
  match remaining with
  | 0 => ret tt
  | S rem =>
    let currentLevel := 21 - rem in
    let key :=
      Level.hasKey (toLowerCase userAddress) (toLowerCase currentReferrer)
                   currentLevel in
    let! levelRelation := gets (fun db => findOne key (levels db)) in
    match levelRelation with
    | None =>
      saveNewLevel
        (Level.mk (toLowerCase userAddress) (toLowerCase currentReferrer)
                  currentLevel investmentAmount zero true registrationTime)
    | Some _ =>
      setLevels (updateFirst key (Level.addInvestment investmentAmount))
    end ;;;
    let! referrerUser := gets (fun db =>
      User.findByWallet (users db) currentReferrer) in
    match referrerUser with
    | Some u =>
      match User.referrerAddress u with
      | Some r =>
        if nonEmpty r
        then climb rem userAddress investmentAmount registrationTime r
        else ret tt
      | None => ret tt
      end
    | None => ret tt
    end
  end.

Definition updateLevelInvestments (userAddress : string)
    (investmentAmount : num) : Handler :=
  caught (
    let! investor := gets (fun db =>
      User.findByWallet (users db) userAddress) in
    match investor with
    | Some u =>
      match User.referrerAddress u with
      | Some r =>
        if nonEmpty r
        then climb 21 userAddress investmentAmount
                   (User.registrationTime u) r
        else ret tt
      | None => ret tt
      end
    | None => ret tt
    end).

(** *** Recording an investment *)

Inductive recordResponse :=
| BadRequest
| Conflict (existingInvestment : Investment.t)
| UserNotFound
| Created (investment : Investment.t)
| Failed (e : error).

(** The truthiness of a number: every number but zero and [NaN]. *)
Definition truthy (a : num) : bool := gtb a zero || gtb zero a.

(** [POST /], for a body whose [userAddress] and [txHash] are strings,
    whose [amount] is a number (so that [parseFloat(amount)] is [amount]),
    each possibly absent, and whose [type], when present, is one of the
    schema's two. [tInvestment] is the [new Date()] of the ledger entry,
    [tDeposit] the one of the deposit. *)
Definition recordInvestment (userAddress : option string) (amount : option num)
    (txHash : option string) (blockNumber : option nat)
    (type : option Investment.type_t) (tInvestment tDeposit : N) (db : DB)
  : DB * recordResponse :=
  match userAddress, amount, txHash with
  | Some u, Some a, Some tx =>
    if negb (nonEmpty u) || negb (truthy a) || negb (nonEmpty tx)
    then (db, BadRequest)
    else
      match findOne (fun i => String.eqb (Investment.txHash i) tx)
                    (investments db) with
      | Some existingInvestment => (db, Conflict existingInvestment)
      | None =>
        match User.findByWallet (users db) u with
        | None => (db, UserNotFound)
        | Some _ =>
          let blk := match blockNumber with Some b => b | None => 0 end in
          let investment :=
            Investment.create (toLowerCase u) a tx blk
              (match type with Some ty => ty | None => Investment.USDT end)
              tInvestment in
          match
            (saveNewInvestment investment ;;;
             addDeposit u a tx blk tDeposit ;;;
             call (updateLevelInvestments u a)) db
          with
          | (db', Ok _) => (db', Created investment)
          | (db', Throw e) => (db', Failed e)
          end
        end
      end
  | _, _, _ => (db, BadRequest)
  end.

Inductive statusResponse :=
| InvalidStatus
| NotFound
| Updated (investment : Investment.t).

Definition withStatus (st : Investment.status_t) (i : Investment.t)
  : Investment.t :=
  Investment.mk (Investment.userAddress i) (Investment.amount i)
                (Investment.txHash i) (Investment.blockNumber i)
                (Investment.type i) st (Investment.investmentTime i).

(** [PATCH /:txHash/status]; [status] is [None] for a body whose [status]
    is not one of the three names. *)
Definition updateStatus (txHash : string) (status : option Investment.status_t)
    (db : DB) : DB * statusResponse :=
  match status with
  | None => (db, InvalidStatus)
  | Some st =>
    match findOne (fun i => String.eqb (Investment.txHash i) txHash)
                  (investments db) with
    | None => (db, NotFound)
    | Some investment =>
      (mkDB (users db) (levels db)
            (updateFirst (fun i => String.eqb (Investment.txHash i) txHash)
                         (withStatus st) (investments db)),
       Updated (withStatus st investment))
    end
  end.

End WithNumber.
End InvestmentRoutes.

(** ** services/syncService.js: housekeeping *)

Module SyncService.
Section WithNumber.
Context `{JS : Number}.

Definition setStatus (st : User.status_t) (u : User.t) : User.t :=
  User.mk (User.walletAddress u) (User.referrerAddress u) (User.deposits u)
          (User.registrationTime u) st.

Definition deactivate (r : Level.t) : Level.t :=
  Level.mk (Level.userAddress r) (Level.referrerAddress r) (Level.level r)
           (Level.totalInvestment r) (Level.totalEarnings r) false
           (Level.registrationTime r).

(** [getInactiveUserAddresses] *)
Definition getInactiveUserAddresses (coll : list User.t) : list string :=
  List.map User.walletAddress
    (findAll (fun u => User.status_eqb (User.status u) User.inactive) coll).

Definition isAmong (a : string) (l : list string) : bool :=
  existsb (String.eqb a) l.

(** [cleanupInactiveRecords]: active users without deposits registered
    before [ninetyDaysAgo] become inactive, then every active relationship
    with an inactive user at either end becomes inactive. [ninetyDaysAgo]
    is the date that the code reads off the clock: [new Date()] moved back
    ninety calendar days in local time by [setDate(getDate() - 90)]. *)
Definition cleanupInactiveRecords (ninetyDaysAgo : N) (db : DB) : DB :=
  let users1 :=
    updateAll
      (fun u => User.status_eqb (User.status u) User.active
                && (List.length (User.deposits u) =? 0)
                && (User.registrationTime u <? ninetyDaysAgo)%N)
      (setStatus User.inactive) (users db) in
  let gone := getInactiveUserAddresses users1 in
  mkDB users1
    (updateAll
       (fun r => Level.isActive r
                 && (isAmong (Level.userAddress r) gone
                     || isAmong (Level.referrerAddress r) gone))
       deactivate (levels db))
    (investments db).

End WithNumber.
End SyncService.

(** ** utils/cache.js *)

Module Cache.

Inductive cacheType_t := defaultType | longTerm | shortTerm.

Section WithValue.
Context {V : Type}.

(** A JavaScript value as the cache sees it: [undefined], or anything
    else. *)
Inductive jsval :=
| undefined
| value (v : V).

Record item := mkItem {
  itemValue : jsval;
  expiry : N
}.

(** [SimpleCache]: the [Map] from keys to [{ value, expiry }] and the
    default time to live. *)
Record SimpleCache := mkSimpleCache {
  cache : gmap string item;
  ttl : N
}.

(** [customTtl || this.ttl] *)
Definition ttlOr (customTtl : option N) (default : N) : N :=
  match customTtl with
  | Some t => if (t =? 0)%N then default else t
  | None => default
  end.

(** [SimpleCache.set(key, value, customTtl)] at time [now] *)
Definition set (key : string) (v : jsval) (customTtl : option N)
    (now : N) (c : SimpleCache) : SimpleCache :=
  mkSimpleCache
    (<[key := mkItem v (now + ttlOr customTtl (ttl c))%N]> (cache c))
    (ttl c).

(** [SimpleCache.get(key)] at time [now]: an entry past its expiry is
    deleted and reported as absent. *)
Definition get (key : string) (now : N) (c : SimpleCache)
  : SimpleCache * jsval :=
  match cache c !! key with
  | None => (c, undefined)
  | Some it =>
    if (expiry it <? now)%N
    then (mkSimpleCache (delete key (cache c)) (ttl c), undefined)
    else (c, itemValue it)
  end.

(** [CacheManager]: the three tiers. *)
Record CacheManager := mkCacheManager {
  defaultCache : SimpleCache;
  longTermCache : SimpleCache;
  shortTermCache : SimpleCache
}.

(** [new CacheManager()]: 5 minutes, 30 minutes and 1 minute. *)
Definition newCacheManager : CacheManager :=
  mkCacheManager (mkSimpleCache ∅ 300000%N) (mkSimpleCache ∅ 1800000%N)
                 (mkSimpleCache ∅ 60000%N).

(** [generateKey(prefix, ...params)] *)
Definition generateKey (prefix : string) (params : list string) : string :=
  (prefix ++ ":" ++ String.concat ":" params)%string.

Definition tier (ct : cacheType_t) (m : CacheManager) : SimpleCache :=
  match ct with
  | defaultType => defaultCache m
  | longTerm => longTermCache m
  | shortTerm => shortTermCache m
  end.

Definition withTier (ct : cacheType_t) (c : SimpleCache) (m : CacheManager)
  : CacheManager :=
  match ct with
  | defaultType => mkCacheManager c (longTermCache m) (shortTermCache m)
  | longTerm => mkCacheManager (defaultCache m) c (shortTermCache m)
  | shortTerm => mkCacheManager (defaultCache m) (longTermCache m) c
  end.

(** [get], [getLongTerm] and [getShortTerm], by tier. *)
Definition managerGet (ct : cacheType_t) (key : string) (now : N)
    (m : CacheManager) : CacheManager * jsval :=
  let (c, v) := get key now (tier ct m) in (withTier ct c m, v).

(** [set], [setLongTerm] and [setShortTerm], by tier; a falsy [ttl] falls
    back to the tier's own. *)
Definition managerSet (ct : cacheType_t) (key : string) (v : jsval)
    (ttl : option N) (now : N) (m : CacheManager) : CacheManager :=
  withTier ct (set key v ttl now (tier ct m)) m.

(** [cached(key, asyncFunction, ttl, cacheType)]: the lookup happens at
    time [tGet], the store (after the awaited function returned) at
    [tSet]. A function that throws stores nothing and the error is thrown
    on. *)
Definition cached (key : string) (asyncFunction : unit -> outcome jsval)
    (ttl : option N) (ct : cacheType_t) (tGet tSet : N)
    (m : CacheManager) : CacheManager * outcome jsval :=
  let (m1, cachedValue) := managerGet ct key tGet m in
  match cachedValue with
  | value v => (m1, Ok (value v))
  | undefined =>
    match asyncFunction tt with
    | Ok result => (managerSet ct key result ttl tSet m1, Ok result)
    | Throw e => (m1, Throw e)
    end
  end.

(** [SimpleCache.delete(key)]: [Map.delete] tells whether the key was
    there. *)
Definition delete (key : string) (c : SimpleCache) : SimpleCache * bool :=
  (mkSimpleCache (base.delete key (cache c)) (ttl c),
   bool_decide (is_Some (cache c !! key))).

(** [SimpleCache.clear()] *)
Definition clear (c : SimpleCache) : SimpleCache :=
  mkSimpleCache ∅ (ttl c).

(** [SimpleCache.cleanup()] at time [now], the sweep run every minute:
    every entry with [now > item.expiry] is deleted. *)
Definition cleanup (now : N) (c : SimpleCache) : SimpleCache :=
  mkSimpleCache
    (filter (fun entry => (expiry (snd entry) <? now)%N = false) (cache c))
    (ttl c).

(** [SimpleCache.keys()]; the [Map]'s insertion order is not kept. *)
Definition keys (c : SimpleCache) : list string :=
  List.map fst (map_to_list (cache c)).

(** [SimpleCache.getStats()] *)
Record stats := mkStats {
  statKeys : nat;
  hits : nat;
  misses : nat
}.

Definition getStats (c : SimpleCache) : stats :=
  mkStats (size (cache c)) 0 0.

(** [CacheManager.getStats()] *)
Definition managerStats (m : CacheManager) : stats * stats * stats :=
  (getStats (defaultCache m), getStats (longTermCache m),
   getStats (shortTermCache m)).

(** [del], [delLongTerm] and [delShortTerm], by tier: each calls
    [SimpleCache.del], a method the class does not have ([delete] is its
    name), so the call throws a [TypeError] before anything is changed. *)
Definition managerDel (ct : cacheType_t) (key : string) (m : CacheManager)
  : CacheManager * outcome bool :=
  (m, Throw TypeError).

(** [clearAll()]: its first statement calls [defaultCache.flushAll], which
    does not exist either. *)
Definition clearAll (m : CacheManager) : CacheManager * outcome unit :=
  (m, Throw TypeError).

(** [keys.filter(key => regex.test(key)).forEach(key => cache.del(key))]:
    the first matching key makes the call of the missing [del] throw. *)
Definition delEach (matching : list string) : outcome unit :=
  match matching with
  | [] => Ok tt
  | _ :: _ => Throw TypeError
  end.

(** [clearByPattern(pattern)], for a pattern that [new RegExp] accepts;
    [test] is [regex.test]. *)
Definition clearByPattern (test : string -> bool) (m : CacheManager)
  : CacheManager * outcome unit :=
  let keys_ := keys (defaultCache m) in
  let longTermKeys := keys (longTermCache m) in
  let shortTermKeys := keys (shortTermCache m) in
  match delEach (List.filter test keys_) with
  | Throw e => (m, Throw e)
  | Ok _ =>
    match delEach (List.filter test longTermKeys) with
    | Throw e => (m, Throw e)
    | Ok _ =>
      match delEach (List.filter test shortTermKeys) with
      | Throw e => (m, Throw e)
      | Ok _ => (m, Ok tt)
      end
    end
  end.

End WithValue.

Arguments jsval V : clear implicits.
Arguments item V : clear implicits.
Arguments SimpleCache V : clear implicits.
Arguments CacheManager V : clear implicits.

End Cache.

(** ** routes/referralRoutes.js: the recursive walk over the directory *)

Module ReferralRoutes.

Section Walk.
Context `{JS : Number}.

(** [(await Investment.find({ userAddress })).reduce((sum, inv) => sum +
    inv.amount, 0)], where [userAddress] is the [walletAddress] of a
    stored user. *)
Definition ledgerTotal (coll : list Investment.t) (wallet : string) : num :=
  sumOf Investment.amount
    (findAll (fun i => String.eqb (Investment.userAddress i) wallet) coll).

(** The closure [getUsersAtLevel(currentReferrer, targetLevel,
    currentLevel)] of the tree-direct and stats-direct routes; the two
    copies differ only in the record [entryOf] they build for a user found
    at the target level. The recursion is on [remaining = 22 -
    currentLevel]: the guard [currentLevel > 21] is [remaining = 0]. *)
Fixpoint usersAtLevelFrom {Entry : Type} (entryOf : User.t -> nat -> num -> Entry)
    (db : DB) (remaining : nat) (currentReferrer : string)
    (targetLevel : nat) : list Entry :=
  match remaining with
  | 0 => []
  | S rem =>
    let currentLevel := 21 - rem in
    let directReferrals :=
      findAll (activeReferralOf (toLowerCase currentReferrer)) (users db) in
    if currentLevel =? targetLevel then
      List.map (fun userRef =>
        entryOf userRef targetLevel
          (ledgerTotal (investments db) (User.walletAddress userRef)))
        directReferrals
    else
      List.flat_map (fun userRef =>
        usersAtLevelFrom entryOf db rem (User.walletAddress userRef)
                         targetLevel)
        directReferrals
  end.

End Walk.

(** [GET /tree-direct/:walletAddress] *)
Module TreeDirect.
Section WithNumber.
Context `{JS : Number}.

Record entry := mkEntry {
  userAddress : string;
  level : nat;
  totalInvestment : num;
  totalEarnings : num;
  registrationTime : N;
  isActive : bool;
  depositCount : nat
}.

Definition entryOf (userRef : User.t) (targetLevel : nat)
    (userInvestment : num) : entry :=
  mkEntry (User.walletAddress userRef) targetLevel userInvestment zero
          (User.registrationTime userRef)
          (User.status_eqb (User.status userRef) User.active)
          (List.length (User.deposits userRef)).

Definition getUsersAtLevel (db : DB) (currentReferrer : string)
    (targetLevel currentLevel : nat) : list entry :=
  usersAtLevelFrom entryOf db (22 - currentLevel) currentReferrer targetLevel.

Record levelStat_t := mkLevelStat {
  userCount : nat;
  levelInvestment : num;
  levelEarnings : num
}.

Record body := mkBody {
  referrerAddress : string;
  tree : list (nat * list entry);
  levelStats : list (nat * levelStat_t);
  totalTeamSize : nat;
  totalTeamInvestment : num;
  totalTeamEarnings : num;
  timestamp : N
}.

Inductive response :=
| Json (b : body)
| BadRequest
| NotFound.

(** [parseInt(req.query.levels) || 21]; [None] is [NaN]. *)
Definition levelsOf (query : option Z) : Z :=
  match query with
  | Some z => if (z =? 0)%Z then 21%Z else z
  | None => 21%Z
  end.

(** One round of [for (let level = 1; level <= levels; level++)]. *)
Definition levelRound (db : DB) (walletAddress : string)
    (acc : list (nat * list entry) * list (nat * levelStat_t) * nat * num)
    (level : nat)
  : list (nat * list entry) * list (nat * levelStat_t) * nat * num :=
  let '(tree, levelStats, totalTeamSize, totalTeamInvestment) := acc in
  let levelData := getUsersAtLevel db walletAddress level 1 in
  let levelInvestment := sumOf totalInvestment levelData in
  let levelEarnings := sumOf totalEarnings levelData in
  (tree ++ [(level, levelData)],
   levelStats ++
     [(level, mkLevelStat (List.length levelData) levelInvestment levelEarnings)],
   totalTeamSize + List.length levelData,
   add totalTeamInvestment levelInvestment).

(** The route. *)
Definition treeDirect (walletAddress : string) (levelsQuery : option Z)
    (now : N) (db : DB) : response :=
  let levels := levelsOf levelsQuery in
  if (21 <? levels)%Z then BadRequest
  else
    match User.findByWallet (users db) walletAddress with
    | None => NotFound
    | Some _ =>
      let '(tree, levelStats, totalTeamSize, totalTeamInvestment) :=
        fold_left (levelRound db walletAddress) (seq 1 (Z.to_nat levels))
                  ([], [], 0, zero) in
      Json (mkBody (toLowerCase walletAddress) tree levelStats totalTeamSize
                   totalTeamInvestment zero now)
    end.

End WithNumber.
End TreeDirect.

(** [GET /stats-direct/:walletAddress] *)
Module StatsDirect.
Section WithNumber.
Context `{JS : Number}.

Record entry := mkEntry {
  userAddress : string;
  totalInvestment : num;
  depositCount : nat
}.

Definition entryOf (userRef : User.t) (targetLevel : nat)
    (userInvestment : num) : entry :=
  mkEntry (User.walletAddress userRef) userInvestment
          (List.length (User.deposits userRef)).

Definition getUsersAtLevel (db : DB) (currentReferrer : string)
    (targetLevel currentLevel : nat) : list entry :=
  usersAtLevelFrom entryOf db (22 - currentLevel) currentReferrer targetLevel.

Record levelSummary_t := mkLevelSummary {
  userCount : nat;
  levelInvestment : num;
  levelEarnings : num
}.

Record totals_t := mkTotals {
  totalTeamSize : nat;
  totalTeamInvestment : num;
  totalTeamEarnings : num;
  averageInvestmentPerUser : num;
  averageEarningsPerUser : num
}.

Record result := mkResult {
  resultAddress : string;
  directReferrals : list (string * N * User.status_t);
  levelSummary : list (nat * levelSummary_t);
  totals : totals_t;
  timestamp : N
}.

(** The response: the JSON body, with [cached: true] and the
    [cacheTimestamp] when it was served from the cache, or 404. *)
Inductive response :=
| Json (body : result) (cachedAt : option N)
| NotFound.

(** [for (let level = 1; level <= 21; level++)]: the per-level summary and
    the running team size and investment. *)
Definition levelLoop (db : DB) (walletAddress : string)
  : list (nat * levelSummary_t) * nat * num :=
  fold_left
    (fun '(summary, size, investment) level =>
       let levelUsers := getUsersAtLevel db walletAddress level 1 in
       let levelInv := sumOf totalInvestment levelUsers in
       (summary ++ [(level, mkLevelSummary (List.length levelUsers) levelInv zero)],
        size + List.length levelUsers,
        add investment levelInv))
    (seq 1 21) ([], 0, zero).

(** The aggregation the route runs on a miss. *)
Definition compute (db : DB) (walletAddress : string) (now : N) : result :=
  let direct :=
    findAll (activeReferralOf (toLowerCase walletAddress)) (users db) in
  let '(summary, size, investment) := levelLoop db walletAddress in
  mkResult (toLowerCase walletAddress)
    (List.map (fun u => (User.walletAddress u, User.registrationTime u,
                         User.status u)) direct)
    summary
    (mkTotals size investment zero
       (if 0 <? size then div investment (ofNat size) else zero) zero)
    now.

Definition statsDirect (walletAddress : string) (tGet tSet : N) (db : DB)
    (cm : Cache.CacheManager result) : Cache.CacheManager result * response :=
  let cacheKey :=
    Cache.generateKey "referral_stats" [toLowerCase walletAddress] in
  let (cm1, cachedResult) := Cache.managerGet Cache.defaultType cacheKey tGet cm in
  match cachedResult with
  | Cache.value r => (cm1, Json r (Some tGet))
  | Cache.undefined =>
    match User.findByWallet (users db) walletAddress with
    | None => (cm1, NotFound)
    | Some _ =>
      let r := compute db walletAddress tSet in
      (Cache.managerSet Cache.defaultType cacheKey (Cache.value r)
                        (Some 300%N) tSet cm1,
       Json r None)
    end
  end.

End WithNumber.
End StatsDirect.

(** [GET /upline/:walletAddress] *)
Module Upline.
Section WithNumber.
Context `{JS : Number}.

Record entry := mkEntry {
  level : nat;
  userAddress : string;
  registrationTime : N;
  status : User.status_t;
  totalInvestment : num;
  totalEarnings : num;
  depositCount : nat
}.

Inductive response :=
| Json (walletAddress : string) (uplineChain : list entry) (totalUplineUsers : nat)
| NotFound.

(** [parseInt(req.query.levels) || 21]; [None] is [NaN]. No upper bound
    is put on it. *)
Definition maxLevelsOf (query : option Z) : Z :=
  match query with
  | Some z => if (z =? 0)%Z then 21%Z else z
  | None => 21%Z
  end.

(** [while (currentAddress && level <= maxLevels)], by recursion on
    [remaining = maxLevels + 1 - level]. The filter of [Level.findOne] is
    cast by the schema (both address paths are [lowercase: true]). *)
Fixpoint uplineLoop (db : DB) (walletAddress : string) (remaining : nat)
    (currentAddress : option string) (lvl : nat) : list entry :=
  match remaining with
  | 0 => []
  | S rem =>
    match currentAddress with
    | None => []
    | Some current =>
      if nonEmpty current then
        match User.findByWallet (users db) current with
        | None => []
        | Some uplineUser =>
          let levelData :=
            findOne (fun r => Level.hasKey (toLowerCase walletAddress)
                                           (toLowerCase current) lvl r
                              && Level.isActive r) (levels db) in
          mkEntry lvl current (User.registrationTime uplineUser)
                  (User.status uplineUser)
                  (match levelData with
                   | Some r => Level.totalInvestment r
                   | None => zero
                   end)
                  (match levelData with
                   | Some r => Level.totalEarnings r
                   | None => zero
                   end)
                  (User.getDepositCount uplineUser)
          :: uplineLoop db walletAddress rem
               (User.referrerAddress uplineUser) (S lvl)
        end
      else []
    end
  end.

Definition upline (param : string) (levelsQuery : option Z) (db : DB)
  : response :=
  let walletAddress := toLowerCase param in
  let maxLevels := maxLevelsOf levelsQuery in
  match User.findByWallet (users db) walletAddress with
  | None => NotFound
  | Some user =>
    let uplineChain :=
      uplineLoop db walletAddress (Z.to_nat maxLevels)
                 (User.referrerAddress user) 1 in
    Json walletAddress uplineChain (List.length uplineChain)
  end.

End WithNumber.
End Upline.

End ReferralRoutes.

(** ** routes/levelRoutes.js: team summaries *)

Module LevelRoutes.

Definition isHexDigit (c : ascii) : bool :=
  let n := nat_of_ascii c in
  ((48 <=? n) && (n <=? 57)) || ((65 <=? n) && (n <=? 70))
  || ((97 <=? n) && (n <=? 102)).

Fixpoint allHex (s : string) : bool :=
  match s with
  | EmptyString => true
  | String c s' => isHexDigit c && allHex s'
  end.

(** [/^0x[a-fA-F0-9]{40}$/i.test(s)] *)
Definition ethAddressRegex (s : string) : bool :=
  match s with
  | String c0 (String c1 rest) =>
    Ascii.eqb c0 "0" && (Ascii.eqb c1 "x" || Ascii.eqb c1 "X")
    && (String.length rest =? 40) && allHex rest
  | _ => false
  end.

Section WithNumber.
Context `{JS : Number}.

(** [a / b * 100] *)
Definition percentOf (a b : num) : num := mul (div a b) (ofNat 100).

(** The query [{ referrerAddress: walletAddress, isActive: true }] *)
Definition activeUnder (walletAddress : string) (r : Level.t) : bool :=
  String.eqb (Level.referrerAddress r) walletAddress && Level.isActive r.

(** [Investment.getUserTotalInvestment(walletAddress)]: the confirmed
    ledger entries of the user, as [(totalAmount, totalInvestments)]; no
    group, and so the route's defaults, when there is none. *)
Definition personalStats (coll : list Investment.t) (walletAddress : string)
  : num * nat :=
  let mine :=
    findAll (fun i =>
      String.eqb (Investment.userAddress i) (toLowerCase walletAddress)
      && match Investment.status i with
         | Investment.confirmed => true
         | _ => false
         end) coll in
  match mine with
  | [] => (zero, 0)
  | _ => (sumOf Investment.amount mine, List.length mine)
  end.

Record statistics_t := mkStatistics {
  totalUsers : nat;
  totalInvestment : num;
  totalEarnings : num;
  averageInvestment : num;
  averageEarnings : num;
  investmentPercentage : num;
  earningsPercentage : num
}.

Record levelAnalytics_t := mkLevelAnalytics {
  level : nat;
  statistics : statistics_t
}.

Record performanceMetrics_t := mkPerformanceMetrics {
  roi : num;
  averageInvestmentPerUser : num;
  averageEarningsPerUser : num;
  levelDistributionEfficiency : num;
  topPerformingLevel : nat
}.

Record teamSummary_t := mkTeamSummary {
  totalTeamSize : nat;
  totalTeamInvestment : num;
  totalTeamEarnings : num;
  activeLevels : nat;
  maxLevel : nat;
  performanceMetrics : performanceMetrics_t
}.

Record userInfo_t := mkUserInfo {
  personalInvestment : num;
  personalDeposits : num;
  depositCount : nat;
  investmentCount : nat
}.

Record analytics := mkAnalytics {
  userInfo : userInfo_t;
  teamSummary : teamSummary_t;
  levelAnalytics : list levelAnalytics_t
}.

(** The running totals of the loop over the 21 levels. *)
Record totals := mkTotals {
  teamSize : nat;
  teamInvestment : num;
  teamEarnings : num;
  active : nat;
  analyticsSoFar : list levelAnalytics_t
}.

(** One round of [for (let i = 1; i <= 21; i++)] over the rows grouped by
    level (rows of one level in the order the query returned them). *)
Definition levelStep (userLevels : list Level.t) (acc : totals) (i : nat)
  : totals :=
  let levelUsers := findAll (fun r => Level.level r =? i) userLevels in
  let nUsers := List.length levelUsers in
  let inv := sumOf Level.totalInvestment levelUsers in
  let earn := sumOf Level.totalEarnings levelUsers in
  let avgInv := if 0 <? nUsers then div inv (ofNat nUsers) else zero in
  let avgEarn := if 0 <? nUsers then div earn (ofNat nUsers) else zero in
  let size' := teamSize acc + nUsers in
  let inv' := add (teamInvestment acc) inv in
  let earn' := add (teamEarnings acc) earn in
  mkTotals size' inv' earn'
    (if 0 <? nUsers then S (active acc) else active acc)
    (analyticsSoFar acc ++
     [mkLevelAnalytics i
        (mkStatistics nUsers (toFixed 6 inv) (toFixed 6 earn)
           (toFixed 6 avgInv) (toFixed 6 avgEarn)
           (if gtb inv' zero then toFixed 2 (percentOf inv inv') else zero)
           (if gtb earn' zero then toFixed 2 (percentOf earn earn') else zero))]).

Definition levelTotals (userLevels : list Level.t) : totals :=
  fold_left (levelStep userLevels) (seq 1 21) (mkTotals 0 zero zero 0 []).

(** [levelAnalytics.reduce((max, level) => level.statistics.totalEarnings >
    max.statistics.totalEarnings ? level : max, levelAnalytics[0]).level] *)
Definition topLevel (l : list levelAnalytics_t) : nat :=
  match l with
  | [] => 0
  | first :: _ =>
    level (fold_left
      (fun max lv =>
         if gtb (totalEarnings (statistics lv)) (totalEarnings (statistics max))
         then lv else max)
      l first)
  end.

(** The [performanceMetrics] object. *)
Definition performanceMetricsOf (t : totals) : performanceMetrics_t :=
  mkPerformanceMetrics
    (if gtb (teamInvestment t) zero
     then toFixed 2 (percentOf (teamEarnings t) (teamInvestment t)) else zero)
    (if 0 <? teamSize t
     then toFixed 6 (div (teamInvestment t) (ofNat (teamSize t))) else zero)
    (if 0 <? teamSize t
     then toFixed 6 (div (teamEarnings t) (ofNat (teamSize t))) else zero)
    (percentOf (ofNat (active t)) (ofNat 21))
    (topLevel (analyticsSoFar t)).

(** The [teamSummary] object. *)
Definition teamSummaryOf (t : totals) : teamSummary_t :=
  mkTeamSummary (teamSize t)
    (toFixed 6 (teamInvestment t)) (toFixed 6 (teamEarnings t))
    (active t)
    (list_max (List.map level
       (List.filter (fun l => 0 <? totalUsers (statistics l))
                    (analyticsSoFar t))))
    (performanceMetricsOf t).

Inductive response (A : Type) :=
| BadRequest
| NotFound
| ServerError (e : error)
| Json (body : A).

Arguments BadRequest {A}.
Arguments NotFound {A}.
Arguments ServerError {A} e.
Arguments Json {A} body.

(** [.sort({ level: 1, registrationTime: -1 })]: [row] goes before [x]. *)
Definition precedes (row x : Level.t) : bool :=
  (Level.level row <? Level.level x)
  || ((Level.level row =? Level.level x)
      && (Level.registrationTime x <=? Level.registrationTime row)%N).

Fixpoint insertSorted (row : Level.t) (l : list Level.t) : list Level.t :=
  match l with
  | [] => [row]
  | x :: xs => if precedes row x then row :: x :: xs else x :: insertSorted row xs
  end.

Definition sortByLevelAndTime (l : list Level.t) : list Level.t :=
  fold_right insertSorted [] l.

(** [GET /user/:walletAddress], for a request without [details=true] (the
    per-user details it would add do not enter the summary). Grouping
    throws on a row whose level is not one of the 21 keys of
    [levelGroups]. *)
Definition userAnalytics (param : string) (db : DB) : response analytics :=
  let walletAddress := toLowerCase param in
  if negb (ethAddressRegex walletAddress) then BadRequest
  else
    match User.findByWallet (users db) walletAddress with
    | None => NotFound
    | Some user =>
      let userLevels :=
        sortByLevelAndTime (findAll (activeUnder walletAddress) (levels db)) in
      if forallb (fun r => (1 <=? Level.level r) && (Level.level r <=? 21))
                 userLevels
      then
        let t := levelTotals userLevels in
        let '(amount, count) := personalStats (investments db) walletAddress in
        Json (mkAnalytics
          (mkUserInfo (toFixed 6 amount) (User.getTotalDeposits user)
                      (User.getDepositCount user) count)
          (teamSummaryOf t)
          (analyticsSoFar t))
      else ServerError TypeError
    end.

(** *** The quick summary *)

Record levelStat := mkLevelStat {
  statLevel : nat;
  userCount : nat;
  statInvestment : num;
  statEarnings : num
}.

(** [$group] by level, [$sort] by level: one group per level that has a
    row. *)
Definition groupByLevel (rows : list Level.t) : list levelStat :=
  List.flat_map
    (fun l =>
       match findAll (fun r => Level.level r =? l) rows with
       | [] => []
       | g => [mkLevelStat l (List.length g)
                 (sumOf Level.totalInvestment g) (sumOf Level.totalEarnings g)]
       end)
    (seq 0 (S (list_max (List.map Level.level rows)))).

Record levelSummary_t := mkLevelSummary {
  summaryLevel : nat;
  summaryUserCount : nat;
  summaryInvestment : num;
  summaryEarnings : num;
  summaryAverageInvestment : num
}.

Record quickStats_t := mkQuickStats {
  quickPersonalInvestment : num;
  quickPersonalDeposits : num;
  quickTeamSize : nat;
  quickTeamInvestment : num;
  quickTeamEarnings : num;
  quickActiveLevels : nat;
  quickMaxLevel : nat;
  quickRoi : num
}.

Record summary := mkSummary {
  quickStats : quickStats_t;
  levelSummary : list levelSummary_t
}.

Definition quickStatsOf (levelStats : list levelStat) (personal deposits : num)
  : quickStats_t :=
  let size := fold_left (fun sum st => sum + userCount st) levelStats 0 in
  let inv := sumOf statInvestment levelStats in
  let earn := sumOf statEarnings levelStats in
  let activeLevels := List.length levelStats in
  mkQuickStats (toFixed 6 personal) deposits size
    (toFixed 6 inv) (toFixed 6 earn) activeLevels
    (if 0 <? activeLevels then list_max (List.map statLevel levelStats) else 0)
    (if gtb inv zero then toFixed 2 (percentOf earn inv) else zero).

(** [GET /user/:walletAddress/summary] *)
Definition userSummary (param : string) (db : DB) : response summary :=
  let walletAddress := toLowerCase param in
  if negb (ethAddressRegex walletAddress) then BadRequest
  else
    match User.findByWallet (users db) walletAddress with
    | None => NotFound
    | Some user =>
      let levelStats :=
        groupByLevel (findAll (activeUnder walletAddress) (levels db)) in
      let '(amount, _) := personalStats (investments db) walletAddress in
      Json (mkSummary
        (quickStatsOf levelStats amount (User.getTotalDeposits user))
        (List.map (fun st =>
           mkLevelSummary (statLevel st) (userCount st)
             (toFixed 6 (statInvestment st)) (toFixed 6 (statEarnings st))
             (if 0 <? userCount st
              then toFixed 6 (div (statInvestment st) (ofNat (userCount st)))
              else zero))
           levelStats))
    end.

(** *** Statistics by level *)

Record levelStatistics := mkLevelStatistics {
  statsUsers : nat;
  statsInvestment : num;
  statsEarnings : num;
  statsAverageInvestment : num;
  statsAverageEarnings : num
}.

(** The [$group] stage of both statistics aggregations, over the rows of
    one group. *)
Definition groupOf (g : list Level.t) : levelStatistics :=
  mkLevelStatistics (List.length g)
    (sumOf Level.totalInvestment g) (sumOf Level.totalEarnings g)
    (div (sumOf Level.totalInvestment g) (ofNat (List.length g)))
    (div (sumOf Level.totalEarnings g) (ofNat (List.length g))).

(** [Level.getLevelStatistics(level)]: one group when a row matches, none
    otherwise. *)
Definition getLevelStatistics (coll : list Level.t) (lvl : nat)
  : list levelStatistics :=
  match findAll (fun r => (Level.level r =? lvl) && Level.isActive r) coll with
  | [] => []
  | g => [groupOf g]
  end.

(** [Level.getAllLevelsStatistics()]: the active rows grouped by level,
    sorted by level; [_id] is the level. *)
Definition getAllLevelsStatistics (coll : list Level.t)
  : list (nat * levelStatistics) :=
  let rows := findAll Level.isActive coll in
  List.flat_map
    (fun l =>
       match findAll (fun r => Level.level r =? l) rows with
       | [] => []
       | g => [(l, groupOf g)]
       end)
    (seq 0 (S (list_max (List.map Level.level rows)))).

(** The defaults of a level without group. *)
Definition noStatistics : levelStatistics :=
  mkLevelStatistics 0 zero zero zero zero.

(** [GET /stats/:level]; [lvl] is [parseInt(req.params.level)], [None]
    for [NaN], which passes the guard [level < 1 || level > 21] and which
    no row has as its level. The body carries [lvl] and the statistics. *)
Definition statsLevel (lvl : option Z) (db : DB)
  : response (option Z * levelStatistics) :=
  match lvl with
  | Some z =>
    if ((z <? 1) || (21 <? z))%Z then BadRequest
    else
      match getLevelStatistics (levels db) (Z.to_nat z) with
      | stat :: _ => Json (lvl, stat)
      | [] => Json (lvl, noStatistics)
      end
  | None => Json (lvl, noStatistics)
  end.

(** The handler registered for [GET /stats/all]. *)
Definition statsAll (db : DB) : response (list (nat * levelStatistics)) :=
  let allStats := getAllLevelsStatistics (levels db) in
  Json (List.map
          (fun i =>
             match List.find (fun s => fst s =? i) allStats with
             | Some stat => (i, snd stat)
             | None => (i, noStatistics)
             end)
          (seq 1 21)).

End WithNumber.

Arguments BadRequest {A}.
Arguments NotFound {A}.
Arguments ServerError {A} e.
Arguments Json {A} body.

(** *** The router

    The [GET] routes in the order of their registration. Express answers
    a request with the first route whose path matches it (none of the
    handlers calls [next]); a named parameter matches any non-empty
    segment, a literal matches itself up to case. *)

Inductive segment :=
| Lit (s : string)
| Param (name : string).

Inductive handler_t :=
| StatsLevel
| StatsAll
| LevelUsers
| UserAnalytics
| TopReferrers
| Summary
| UserSummary.

Definition getRoutes : list (list segment * handler_t) :=
  [ ([Lit "stats"; Param "level"], StatsLevel);
    ([Lit "stats"; Lit "all"], StatsAll);
    ([Param "level"; Lit "users"; Param "referrerAddress"], LevelUsers);
    ([Lit "user"; Param "walletAddress"], UserAnalytics);
    ([Param "level"; Lit "top-referrers"], TopReferrers);
    ([Lit "summary"], Summary);
    ([Lit "user"; Param "walletAddress"; Lit "summary"], UserSummary) ].

Definition matchSegment (p : segment) (x : string) : bool :=
  match p with
  | Lit s => String.eqb (toLowerCase s) (toLowerCase x)
  | Param _ => nonEmpty x
  end.

Fixpoint matchPath (pattern : list segment) (path : list string) : bool :=
  match pattern, path with
  | [], [] => true
  | p :: ps, x :: xs => matchSegment p x && matchPath ps xs
  | _, _ => false
  end.

(** The handler that answers [GET] of a path, given by its segments. *)
Definition dispatch (path : list string) : option handler_t :=
  option_map snd (List.find (fun route => matchPath (fst route) path) getRoutes).

End LevelRoutes.

(** ** Vocabulary of the statements *)

Section Vocabulary.
Context `{JS : Number}.

(** A step that only adds relationship rows: users, ledger and the rows
    already there are left as they are. *)
Definition appends (db db' : DB) : Prop :=
  users db' = users db /\ investments db' = investments db
  /\ exists new, levels db' = levels db ++ new.

(** Two rows for the same relationship: same descendant, ancestor and
    level (totals and the active flag may differ). *)
Definition sameRelationship (row row' : Level.t) : Prop :=
  Level.userAddress row' = Level.userAddress row
  /\ Level.referrerAddress row' = Level.referrerAddress row
  /\ Level.level row' = Level.level row.

Definition levelInRange (row : Level.t) : Prop := 1 <= Level.level row <= 21.

(** From [db] to [db'] the relationship store kept its rows, each still
    for the same relationship and at its place, and gained [created] rows
    after them, all with a level from 1 to 21. *)
Definition grows (db db' : DB) : Prop :=
  exists kept created,
    levels db' = kept ++ created
    /\ Forall2 sameRelationship (levels db) kept
    /\ Forall levelInRange created.

(** A computation, and a handler, under which the store only [grows]. *)
Definition keeps {A : Type} (m : M A) : Prop :=
  forall db db' o, m db = (db', o) -> grows db db'.

Definition keepsH (h : Handler) : Prop := forall db, grows db (fst (h db)).

(** The operations that write to the store. *)
Inductive operation :=
| Register (userAddress : string) (referrerAddress : option string) (now : N)
| Deposit (userAddress : string) (amount : num) (tokenIsZero : bool)
          (blockNumber : nat) (txHash : string) (now : N)
| Commission (userAddress fromAddress : string) (value : num) (level : nat)
| SetupLevels (walletAddress : string)
| PropagateInvestment (userAddress : string) (amount : num)
| Housekeeping (ninetyDaysAgo : N).

Definition perform (db : DB) (op : operation) : DB :=
  match op with
  | Register u r now => fst (EventListener.handleRegistrationEvent u r now db)
  | Deposit u a token blk tx now =>
    fst (EventListener.handleDepositEvent u a token blk tx now db)
  | Commission u from v lvl =>
    fst (EventListener.handleTransactionEvent u from v lvl db)
  | SetupLevels w => fst (UserRoutes.setupLevels w db)
  | PropagateInvestment u a => fst (InvestmentRoutes.updateLevelInvestments u a db)
  | Housekeeping ninetyDaysAgo =>
    SyncService.cleanupInactiveRecords ninetyDaysAgo db
  end.

(** The store after a sequence of operations. *)
Definition run (ops : list operation) (db : DB) : DB :=
  fold_left perform ops db.

(** The query [{ status: 'active' }] on a user. *)
Definition isActiveUser (u : User.t) : bool :=
  User.status_eqb (User.status u) User.active.

(** [below ok coll u n a]: following referrer pointers upwards from the
    user [u] of the directory [coll] reaches the address [a] after exactly
    [n] referral edges, through users that all satisfy [ok] ([u] itself
    included, the owner of [a] not). An edge joins a user to the address
    stored as its [referrerAddress]. *)
Inductive below (ok : User.t -> bool) (coll : list User.t)
  : User.t -> nat -> string -> Prop :=
| below_direct (u : User.t) (a : string) :
    In u coll -> ok u = true -> refersTo (toLowerCase a) u = true ->
    below ok coll u 1 a
| below_step (u v : User.t) (n : nat) (a : string) :
    In u coll -> ok u = true ->
    refersTo (toLowerCase (User.walletAddress v)) u = true ->
    below ok coll v n a ->
    below ok coll u (S n) a.

(** The same paths read from the top, as the walk descends them. *)
Inductive descends (ok : User.t -> bool) (coll : list User.t)
  : string -> nat -> User.t -> Prop :=
| descends_direct (a : string) (u : User.t) :
    In u coll -> ok u = true -> refersTo (toLowerCase a) u = true ->
    descends ok coll a 1 u
| descends_step (a : string) (d u : User.t) (n : nat) :
    In d coll -> ok d = true -> refersTo (toLowerCase a) d = true ->
    descends ok coll (User.walletAddress d) n u ->
    descends ok coll a (S n) u.


End Vocabulary.

(** ** Integer amounts

    An instance of [Number] to run the model on: the integers, with the
    rounding of [toFixed] as the identity and [/] as integer division (the
    examples below take no quotient that is not exact). It is not the
    arithmetic of IEEE doubles and stands for it in the scenarios only;
    every general statement is over the class [Number]. *)
#[export] Instance ZNumber : Number := {|
  num := Z;
  zero := 0%Z;
  add := Z.add;
  mul := Z.mul;
  div := Z.div;
  gtb := Z.gtb;
  geb := Z.geb;
  ofNat := Z.of_nat;
  toFixed := fun _ x => x;
  gtb_zero_zero := eq_refl;
  add_zero_zero := eq_refl;
  toFixed_zero := fun _ => eq_refl
|}.


(** ** Scenarios *)

Module Scenario.

Definition addrR : string := "0x00000000000000000000000000000000000000A1".
Definition addrU1 : string := "0x00000000000000000000000000000000000000B2".
Definition addrU2 : string := "0x00000000000000000000000000000000000000C3".
Definition zeroAddress : string := "0x0000000000000000000000000000000000000000".
Definition r : string := toLowerCase addrR.
Definition u1 : string := toLowerCase addrU1.
Definition u2 : string := toLowerCase addrU2.

(** The key of a relationship row. *)
Definition key (row : Level.t) : string * string * nat :=
  (Level.userAddress row, Level.referrerAddress row, Level.level row).

(** Scenario A: the root is registered with [rootReferrer] as the
    referrer of its event, then U1 under the root, then U2 under U1. *)
Definition scenarioA (rootReferrer : option string) : DB :=
  let s1 := fst (EventListener.handleRegistrationEvent addrR rootReferrer 1000 emptyDB) in
  let s2 := fst (EventListener.handleRegistrationEvent addrU1 (Some addrR) 2000 s1) in
  fst (EventListener.handleRegistrationEvent addrU2 (Some addrU1) 3000 s2).

(** The rows Scenario A is expected to leave. *)
Definition expectedA : list (string * string * nat) :=
  [(u1, r, 1); (u2, u1, 1); (u2, r, 2)].

Definition txA : string := "0xfeed01".

(** Scenario A with a root whose referrer is the empty string, after a
    housekeeping run of the sync service whose [ninetyDaysAgo] falls a
    second after the last registration: nobody has deposited, so the three
    users and the one relationship row are inactive. *)
Definition dormantA : DB :=
  SyncService.cleanupInactiveRecords (3000 + 1000)%N (scenarioA (Some "")).

(** What the examples show of a relationship row. *)
Definition view (row : Level.t) : string * string * nat * bool * Z * Z :=
  (Level.userAddress row, Level.referrerAddress row, Level.level row,
   Level.isActive row, Level.totalInvestment row, Level.totalEarnings row).

(** The store of Scenario A when the root's event names the zero address
    as its referrer. *)
Definition storeA : DB := scenarioA (Some zeroAddress).

(** U2 as the directory of [storeA] holds it. *)
Definition userU2 : User.t := User.mk u2 (Some u1) [] 3000%N User.active.

(** U2 deposits 100 in transaction [txA]; the same event is then
    delivered a second time. *)
Definition firstDeposit : DB * option error :=
  EventListener.handleDepositEvent addrU2 100%Z false 77 txA 4000%N storeA.

Definition replayedDeposit : DB * option error :=
  EventListener.handleDepositEvent addrU2 100%Z false 77 txA 5000%N (fst firstDeposit).

(** The deposits of each user of a store, as (amount, transaction). *)
Definition depositsOf (db : DB) : list (string * list (Z * string)) :=
  List.map (fun u =>
    (User.walletAddress u,
     List.map (fun d => (User.amount d, User.txHash d)) (User.deposits u)))
    (users db).

(** A cache manager holding 7 under the key ["k"] since time 0. *)
Definition hitManager : Cache.CacheManager nat :=
  Cache.managerSet Cache.defaultType "k" (Cache.value 7) None 0%N
    Cache.newCacheManager.

(** An aggregation that returns 7. *)
Definition seven (_ : unit) : outcome (Cache.jsval nat) := Ok (Cache.value 7).

(** The stats-direct route asked for R at time 100 with an empty cache,
    on the store of Scenario A. *)
Definition statsFirst :=
  ReferralRoutes.StatsDirect.statsDirect addrR 100%N 100%N storeA
    Cache.newCacheManager.

(** A referral chain longer than 21: the users ["z"], ["y"], ..., ["a"] are
    registered in this order, each under the letter after it (["z"] under
    the empty string), and then ["new"] under ["a"]. *)
Definition letter (i : nat) : string := String (ascii_of_nat (97 + i)) "".

Definition longChain : DB :=
  let root := fst (EventListener.handleRegistrationEvent (letter 25) (Some "") 0%N emptyDB) in
  let letters :=
    fold_left (fun db i =>
      fst (EventListener.handleRegistrationEvent (letter i) (Some (letter (S i)))
             (N.of_nat (25 - i)) db))
      (rev (seq 0 25)) root in
  fst (EventListener.handleRegistrationEvent "new" (Some "a") 26%N letters).

End Scenario.

(** ** Further vocabulary *)

Section FurtherVocabulary.
Context `{JS : Number}.

(** [hops coll a chain]: [chain] lists the referrers met by following the
    stored [referrerAddress] pointers of the directory [coll] from the
    address [a] upwards, each one the non-empty referrer of the user
    registered under the previous address. *)
Inductive hops (coll : list User.t) : string -> list string -> Prop :=
| hops_nil (a : string) : hops coll a []
| hops_cons (a r : string) (user : User.t) (rest : list string) :
    User.findByWallet coll a = Some user ->
    User.referrerAddress user = Some r ->
    nonEmpty r = true ->
    hops coll r rest ->
    hops coll a (r :: rest).

(** The walk upwards cannot go on from [a]: no user is registered under
    it, or that user has no referrer. *)
Definition topOfChain (coll : list User.t) (a : string) : Prop :=
  match User.findByWallet coll a with
  | None => True
  | Some user =>
    match User.referrerAddress user with
    | None => True
    | Some r => nonEmpty r = false
    end
  end.

(** The key of a relationship row and the stores without two rows for one
    key. *)
Definition keyOf (row : Level.t) : string * string * nat :=
  (Level.userAddress row, Level.referrerAddress row, Level.level row).

Definition uniqueKeys (db : DB) : Prop := NoDup (List.map keyOf (levels db)).

(** The operations of the event listener and of the housekeeping. *)
Definition fromListener (op : operation) : bool :=
  match op with
  | Register _ _ _ | Deposit _ _ _ _ _ _ | Commission _ _ _ _
  | Housekeeping _ => true
  | SetupLevels _ | PropagateInvestment _ _ => false
  end.

(** A computation, and a handler, that take stores satisfying [P] to
    stores satisfying [P], whether they return or throw. *)
Definition preserves (P : DB -> Prop) {A : Type} (m : M A) : Prop :=
  forall db db' o, m db = (db', o) -> P db -> P db'.

Definition preservesH (P : DB -> Prop) (h : Handler) : Prop :=
  forall db, P db -> P (fst (h db)).

End FurtherVocabulary.

(** Events for the examples of the listener: Scenario A with a zero-address
    root, a deposit of U2 delivered twice, a commission for R from U2 and
    a housekeeping run. *)
Module ListenerCases.

Definition history : list operation :=
  [Register Scenario.addrR (Some Scenario.zeroAddress) 1000%N;
   Register Scenario.addrU1 (Some Scenario.addrR) 2000%N;
   Register Scenario.addrU2 (Some Scenario.addrU1) 3000%N;
   Deposit Scenario.addrU2 100%Z false 77 Scenario.txA 4000%N;
   Deposit Scenario.addrU2 100%Z false 77 Scenario.txA 5000%N;
   Commission Scenario.addrR Scenario.addrU2 5%Z 1;
   Housekeeping 6000%N;
   Register Scenario.addrU2 (Some Scenario.addrR) 7000%N].

End ListenerCases.

(** What the stats-direct route keeps of an entry of the tree-direct
    route. *)
Definition forStats `{JS : Number} (e : ReferralRoutes.TreeDirect.entry)
  : ReferralRoutes.StatsDirect.entry :=
  ReferralRoutes.StatsDirect.mkEntry
    (ReferralRoutes.TreeDirect.userAddress e)
    (ReferralRoutes.TreeDirect.totalInvestment e)
    (ReferralRoutes.TreeDirect.depositCount e).

(** The handler registered for [GET /stats/all]. *)
Definition isStatsAll (h : LevelRoutes.handler_t) : bool :=
  match h with
  | LevelRoutes.StatsAll => true
  | _ => false
  end.


(** A directory whose wallet addresses are all in lower case, as the
    schema's setter leaves them. *)
Definition lowerWallets `{JS : Number} (coll : list User.t) : Prop :=
  Forall (fun u => toLowerCase (User.walletAddress u) = User.walletAddress u) coll.

(** Every key that a lookup finds in [db] it finds in [db2]. *)
Definition covered `{JS : Number} (db db2 : DB) : Prop :=
  forall u a l row,
    findOne (Level.hasKey u a l) (levels db) = Some row ->
    exists row2, findOne (Level.hasKey u a l) (levels db2) = Some row2.

(** A computation that, once it has returned, returns again without a
    write on every store with the same directory that has the keys it
    left. *)
Definition settles `{JS : Number} (m : M unit) : Prop :=
  forall db db',
    lowerWallets (users db) -> m db = (db', Ok tt) ->
    forall db2, users db2 = users db -> covered db' db2 -> m db2 = (db2, Ok tt).

(** A computation that only appends relationship rows, whatever it
    returns. *)
Definition onlyAppends `{JS : Number} {A : Type} (m : M A) : Prop :=
  forall db0, preserves (appends db0) m.

(** The addresses of a chain up to the first one that the directory does
    not know. *)
Fixpoint whileKnown `{JS : Number} (coll : list User.t) (chain : list string)
  : list string :=
  match chain with
  | [] => []
  | a :: rest =>
    match User.findByWallet coll a with
    | Some _ => a :: whileKnown coll rest
    | None => []
    end
  end.

(** A directory whose stored referrer addresses are all in lower case. *)
Definition lowerReferrers `{JS : Number} (coll : list User.t) : Prop :=
  Forall (fun u => forall r, User.referrerAddress u = Some r -> toLowerCase r = r)
         coll.

(** The referrers that the loop of the investment helper visits when it
    is entered at [currentReferrer] with [remaining] rounds left. *)
Definition visited `{JS : Number} (coll : list User.t) (currentReferrer : string)
    (remaining : nat) : list string :=
  match remaining with
  | 0 => []
  | S n => currentReferrer :: EventListener.uplineFrom coll currentReferrer n
  end.

(** The row that a round of the helper leaves under a key: the row found
    there with the amount added, or a new active row holding the amount. *)
Definition roundRow `{JS : Number} (coll : list Level.t) (user referrer : string)
    (lvl : nat) (amount : num) (registrationTime : N) : Level.t :=
  match findOne (Level.hasKey user referrer lvl) coll with
  | Some row => Level.addInvestment amount row
  | None => Level.mk user referrer lvl amount zero true registrationTime
  end.

(** Documents whose address fields are in lower case, and a store that
    holds only such documents. *)
Definition lowerUser `{JS : Number} (u : User.t) : Prop :=
  toLowerCase (User.walletAddress u) = User.walletAddress u
  /\ forall r, User.referrerAddress u = Some r -> toLowerCase r = r.

Definition lowerRow `{JS : Number} (r : Level.t) : Prop :=
  toLowerCase (Level.userAddress r) = Level.userAddress r
  /\ toLowerCase (Level.referrerAddress r) = Level.referrerAddress r.

Definition lowerEntry `{JS : Number} (i : Investment.t) : Prop :=
  toLowerCase (Investment.userAddress i) = Investment.userAddress i.

Definition normalised `{JS : Number} (db : DB) : Prop :=
  Forall lowerUser (users db) /\ Forall lowerRow (levels db)
  /\ Forall lowerEntry (investments db).

(** ** routes/referralRoutes.js: the statistics read from the relationship rows *)

Module MaterializedStats.
Section WithNumber.
Context `{JS : Number}.

Record levelSummary_t := mkLevelSummary {
  userCount : nat;
  totalInvestment : num;
  totalEarnings : num
}.

Record totals_t := mkTotals {
  totalTeamSize : nat;
  totalTeamInvestment : num;
  totalTeamEarnings : num;
  averageInvestmentPerUser : num;
  averageEarningsPerUser : num
}.

Record body := mkBody {
  userAddress : string;
  directReferrals : list (string * N * User.status_t * nat);
  levelSummary : list (nat * levelSummary_t);
  totals : totals_t
}.

Inductive response :=
| Json (b : body)
| NotFound.

(** [GET /stats/:walletAddress] *)
Definition stats (param : string) (db : DB) : response :=
  let walletAddress := toLowerCase param in
  match User.findByWallet (users db) walletAddress with
  | None => NotFound
  | Some _ =>
    let directReferrals :=
      findAll (activeReferralOf walletAddress) (users db) in
    let levelStats :=
      findAll (LevelRoutes.activeUnder walletAddress) (levels db) in
    let totalTeamSize := List.length levelStats in
    let totalTeamInvestment := sumOf Level.totalInvestment levelStats in
    let totalTeamEarnings := sumOf Level.totalEarnings levelStats in
    Json (mkBody walletAddress
      (List.map (fun ref => (User.walletAddress ref, User.registrationTime ref,
                             User.status ref, User.getDepositCount ref))
                directReferrals)
      (List.map (fun i =>
         let levelData := findAll (fun stat => Level.level stat =? i) levelStats in
         (i, mkLevelSummary (List.length levelData)
               (sumOf Level.totalInvestment levelData)
               (sumOf Level.totalEarnings levelData)))
         (seq 1 21))
      (mkTotals totalTeamSize totalTeamInvestment totalTeamEarnings
         (if 0 <? totalTeamSize
          then div totalTeamInvestment (ofNat totalTeamSize) else zero)
         (if 0 <? totalTeamSize
          then div totalTeamEarnings (ofNat totalTeamSize) else zero)))
  end.

End WithNumber.
End MaterializedStats.

(** The rows that the loop of [createLevelRelationships] has to add for
    [uplineChain], read from index [i] on, to a collection [coll] of
    relationships: for each position below 21 whose key (user, upline
    address, position + 1) is in no row of [coll], the new row of that
    key. *)
Fixpoint missingRelations `{JS : Number} (userAddress : string) (now : N)
    (coll : list Level.t) (uplineChain : list string) (i : nat)
  : list Level.t :=
  match uplineChain with
  | [] => []
  | uplineAddress :: rest =>
    if i <? 21 then
      match findOne (Level.hasKey (toLowerCase userAddress)
                                  (toLowerCase uplineAddress) (i + 1)) coll with
      | Some _ => []
      | None => [Level.create (toLowerCase userAddress)
                              (toLowerCase uplineAddress) (i + 1) now]
      end ++ missingRelations userAddress now coll rest (S i)
    else []
  end.

(** ** Further scenarios *)

Module AnalyticsCases.

(** The analytics and the quick summary of the root of Scenario A. *)
Definition analyticsR : LevelRoutes.response LevelRoutes.analytics :=
  LevelRoutes.userAnalytics (JS := ZNumber) Scenario.addrR Scenario.storeA.

Definition summaryR : LevelRoutes.response LevelRoutes.summary :=
  LevelRoutes.userSummary (JS := ZNumber) Scenario.addrR Scenario.storeA.

Definition bodyOf {A : Type} (default : A) (r : LevelRoutes.response A) : A :=
  match r with
  | LevelRoutes.Json body => body
  | _ => default
  end.

Definition noAnalytics : LevelRoutes.analytics :=
  LevelRoutes.mkAnalytics (JS := ZNumber)
    (LevelRoutes.mkUserInfo 0%Z 0%Z 0 0)
    (LevelRoutes.mkTeamSummary 0 0%Z 0%Z 0 0
       (LevelRoutes.mkPerformanceMetrics 0%Z 0%Z 0%Z 0%Z 0))
    [].

Definition noSummary : LevelRoutes.summary :=
  LevelRoutes.mkSummary (JS := ZNumber)
    (LevelRoutes.mkQuickStats 0%Z 0%Z 0 0%Z 0%Z 0 0 0%Z) [].

End AnalyticsCases.

Module AddressCases.



End AddressCases.

Module RouteCases.



End RouteCases.

Module StatsCases.

(** The statistics of the root of Scenario A, read from the rows. *)
Definition statsBodyR : MaterializedStats.body :=
  match MaterializedStats.stats (JS := ZNumber) Scenario.addrR Scenario.storeA with
  | MaterializedStats.Json b => b
  | MaterializedStats.NotFound =>
    MaterializedStats.mkBody "" [] []
      (MaterializedStats.mkTotals 0 0%Z 0%Z 0%Z 0%Z)
  end.

End StatsCases.

(** * Properties *)

(** ** Strings *)

Lemma lower_ascii_idem (c : ascii) : lower_ascii (lower_ascii c) = lower_ascii c.
Proof.
  destruct c as [[] [] [] [] [] [] [] []]; reflexivity.
Qed.

Lemma toLowerCase_idem (s : string) : toLowerCase (toLowerCase s) = toLowerCase s.
Proof.
  induction s as [|c s IH]; simpl; [reflexivity|].
  now rewrite lower_ascii_idem, IH.
Qed.

Lemma nonEmpty_toLowerCase (s : string) : nonEmpty (toLowerCase s) = nonEmpty s.
Proof. destruct s; reflexivity. Qed.

(** ** Collections *)

Lemma findOne_app {A : Type} (q : A -> bool) (l l' : list A) :
  findOne q (l ++ l') =
  match findOne q l with
  | Some x => Some x
  | None => findOne q l'
  end.
Proof.
  unfold findOne. induction l as [|x l IH]; simpl; [reflexivity|].
  destruct (q x); [reflexivity | exact IH].
Qed.

Lemma findOne_Some {A : Type} (q : A -> bool) (l : list A) (x : A) :
  findOne q l = Some x -> In x l /\ q x = true.
Proof. unfold findOne. apply List.find_some. Qed.

Lemma findOne_None {A : Type} (q : A -> bool) (l : list A) :
  findOne q l = None -> forall x, In x l -> q x = false.
Proof. unfold findOne. apply List.find_none. Qed.

(** The first match splits the collection in two. *)
Lemma findOne_split {A : Type} (q : A -> bool) (l : list A) (x : A) :
  findOne q l = Some x ->
  exists pre post,
    l = pre ++ x :: post /\ (forall y, In y pre -> q y = false) /\ q x = true.
Proof.
  unfold findOne. induction l as [|y l IH]; simpl; [discriminate|].
  destruct (q y) eqn:Hy.
  - intros [= ->]. exists [], l. repeat split; [intros ? []|exact Hy].
  - intros H. destruct (IH H) as (pre & post & -> & Hpre & Hx).
    exists (y :: pre), post. repeat split; [|exact Hx].
    intros z [<-|Hz]; [exact Hy | now apply Hpre].
Qed.

Lemma updateFirst_split {A : Type} (q : A -> bool) (f : A -> A)
    (pre post : list A) (x : A) :
  (forall y, In y pre -> q y = false) -> q x = true ->
  updateFirst q f (pre ++ x :: post) = pre ++ f x :: post.
Proof.
  intros Hpre Hx. induction pre as [|y pre IH]; simpl.
  - now rewrite Hx.
  - rewrite (Hpre y (or_introl eq_refl)). f_equal. apply IH.
    intros z Hz. apply Hpre. now right.
Qed.

Lemma updateFirst_none {A : Type} (q : A -> bool) (f : A -> A) (l : list A) :
  (forall y, In y l -> q y = false) -> updateFirst q f l = l.
Proof.
  induction l as [|y l IH]; simpl; intros H; [reflexivity|].
  rewrite (H y (or_introl eq_refl)). f_equal. apply IH.
  intros z Hz. apply H. now right.
Qed.

(** ** Materialization: [createLevelRelationships] *)

Section Materializer.
Context `{JS : Number}.

Lemma appends_refl (db : DB) : appends db db.
Proof. repeat split. exists []. now rewrite app_nil_r. Qed.

Lemma appends_trans (a b c : DB) : appends a b -> appends b c -> appends a c.
Proof.
  intros (Hu & Hi & n1 & Hl) (Hu' & Hi' & n2 & Hl').
  repeat split; [congruence | congruence |].
  exists (n1 ++ n2). now rewrite Hl', Hl, app_assoc.
Qed.

(** What one round of the loop does, as a case analysis on the lookup. *)
Lemma createRelation_run (u : string) (now : N) (i : nat) (a : string) (db : DB) :
  EventListener.createRelation u now i a db =
  let row := Level.create (toLowerCase u) (toLowerCase a) (i + 1) now in
  match findOne (Level.hasKey (toLowerCase u) (toLowerCase a) (i + 1)) (levels db) with
  | Some _ => (db, Ok tt)
  | None =>
    if Level.validate row
    then (mkDB (users db) (levels db ++ [row]) (investments db), Ok tt)
    else (db, Throw ValidationError)
  end.
Proof.
  unfold EventListener.createRelation, bind, gets, ret, saveNewLevel, setLevels, throw.
  simpl. destruct (findOne _ (levels db)); [reflexivity|].
  destruct (Level.validate _); reflexivity.
Qed.

Lemma createRelation_appends (u : string) (now : N) (i : nat) (a : string)
    (db db' : DB) (o : outcome unit) :
  EventListener.createRelation u now i a db = (db', o) -> appends db db'.
Proof.
  rewrite createRelation_run. cbv zeta.
  destruct (findOne _ _).
  - intros [= <- _]. apply appends_refl.
  - destruct (Level.validate _); intros [= <- _]; [|apply appends_refl].
    repeat split. simpl. eauto.
Qed.

Lemma createFrom_appends (u : string) (now : N) (chain : list string) :
  forall (i : nat) (db db' : DB) (o : outcome unit),
    EventListener.createFrom u now chain i db = (db', o) -> appends db db'.
Proof.
  induction chain as [|a rest IH]; simpl; intros i db db' o.
  - unfold ret. intros [= <- _]. apply appends_refl.
  - destruct (i <? 21).
    + unfold bind.
      destruct (EventListener.createRelation u now i a db) as [db1 [[]|e]] eqn:Hstep.
      * intros Hrest. eapply appends_trans; [|eapply IH, Hrest].
        eapply createRelation_appends, Hstep.
      * intros [= <- _]. eapply createRelation_appends, Hstep.
    + unfold ret. intros [= <- _]. apply appends_refl.
Qed.

Lemma hasKey_create (u a : string) (lvl : nat) (now : N) :
  Level.hasKey (toLowerCase u) (toLowerCase a) lvl
    (Level.create (toLowerCase u) (toLowerCase a) lvl now) = true.
Proof.
  unfold Level.hasKey, Level.create. simpl.
  rewrite !toLowerCase_idem, !String.eqb_refl, Nat.eqb_refl. reflexivity.
Qed.

(** Once the loop has run, running it again on the store it left (at any
    later time) changes nothing. *)
Lemma createFrom_stable (u : string) (now now' : N) (chain : list string) :
  forall (i : nat) (db db' : DB) (o : outcome unit),
    EventListener.createFrom u now chain i db = (db', o) ->
    fst (EventListener.createFrom u now' chain i db') = db'.
Proof.
  induction chain as [|a rest IH]; simpl; intros i db db' o.
  - unfold ret. now intros [= <- _].
  - destruct (i <? 21); [|unfold ret; now intros [= <- _]].
    unfold bind.
    destruct (EventListener.createRelation u now i a db) as [db1 [[]|e]] eqn:Hstep.
    + intros Hrest.
      pose proof (createFrom_appends _ _ _ _ _ _ _ Hrest) as (_ & _ & new & Hnew).
      assert (Hfound : exists row,
        findOne (Level.hasKey (toLowerCase u) (toLowerCase a) (i + 1)) (levels db') = Some row).
      { rewrite Hnew, findOne_app.
        revert Hstep. rewrite createRelation_run. cbv zeta.
        destruct (findOne _ (levels db)) as [row|] eqn:Hf.
        - intros [= <-]. rewrite Hf. eauto.
        - destruct (Level.validate _); [|discriminate].
          intros [= <-]. simpl. rewrite findOne_app, Hf. simpl.
          unfold findOne. simpl. rewrite hasKey_create. eauto. }
      destruct Hfound as [row Hrow].
      rewrite createRelation_run. cbv zeta. rewrite Hrow.
      eapply IH, Hrest.
    + intros [= <- _].
      revert Hstep. rewrite !createRelation_run. cbv zeta.
      destruct (findOne _ (levels db)) eqn:Hf; [discriminate|].
      unfold Level.validate, Level.create. simpl.
      destruct (_ && _); [discriminate|].
      intros [= <- _]. now rewrite Hf.
Qed.

Lemma getUplineChain_run (r : option string) (n : nat) (db : DB) :
  EventListener.getUplineChain r n db =
  match r with
  | Some a => (db, Ok (EventListener.uplineFrom (users db) (toLowerCase a) n))
  | None => (db, Throw TypeError)
  end.
Proof. destruct r; reflexivity. Qed.

Lemma createLevelRelationships_appends (u : string) (r : option string)
    (now : N) (db : DB) :
  appends db (fst (EventListener.createLevelRelationships u r now db)).
Proof.
  unfold EventListener.createLevelRelationships, caught, bind.
  rewrite getUplineChain_run. destruct r as [a|]; simpl; [|apply appends_refl].
  destruct (EventListener.createFrom _ _ _ _ _) as [db' [[]|e]] eqn:H; simpl;
    eapply createFrom_appends, H.
Qed.

End Materializer.

(** C6. [createLevelRelationships] is idempotent: run a second time for
    the same user and referrer on the store the first run left (whatever
    the time of the second run), it leaves that store as it is, so no row
    is added and no [totalInvestment] or [totalEarnings] changes. *)
Theorem createLevelRelationships_idempotent `{JS : Number}
    (userAddress : string) (referrerAddress : option string) (now now' : N)
    (db : DB) :
  let db1 := fst (EventListener.createLevelRelationships userAddress referrerAddress now db) in
  fst (EventListener.createLevelRelationships userAddress referrerAddress now' db1) = db1.
Proof.
  cbv zeta.
  pose proof (createLevelRelationships_appends userAddress referrerAddress now db)
    as (Hu & _ & _).
  revert Hu.
  unfold EventListener.createLevelRelationships, caught, bind.
  rewrite !getUplineChain_run. destruct referrerAddress as [a|]; simpl; [|reflexivity].
  destruct (EventListener.createFrom userAddress now _ 0 db) as [db1 o] eqn:H1.
  assert (Hfst : fst (let (db', o0) := (db1, o) in
                      match o0 with Ok _ => (db', None) | Throw e => (db', Some e) end) = db1)
    by (destruct o; reflexivity).
  destruct o as [[]|e]; simpl; intros Hu; rewrite Hu;
    pose proof (createFrom_stable userAddress now now' _ _ _ _ _ H1) as Hs;
    destruct (EventListener.createFrom userAddress now' _ 0 db1) as [db2 [[]|e2]];
    simpl in *; exact Hs.
Qed.

(** ** Deposits and commissions on the relationship rows *)

Lemma updateAll_pointwise {A : Type} (q : A -> bool) (f : A -> A) (l : list A) :
  Forall2 (fun x y => y = if q x then f x else x) l (updateAll q f l).
Proof.
  unfold updateAll. induction l as [|x l IH]; simpl; constructor; auto.
Qed.

(** C3 (as amended). [updateLevelInvestments(D, a)] adds [a] to the
    [totalInvestment] of every row whose descendant is [D] and which is
    active, and leaves every other row (the inactive rows of [D] among
    them), every user and the ledger as they are; it logs nothing. *)
Theorem updateLevelInvestments_active_rows `{JS : Number}
    (userAddress : string) (amount : num) (db : DB) :
  let (db', logged) := EventListener.updateLevelInvestments userAddress amount db in
  logged = None
  /\ users db' = users db
  /\ investments db' = investments db
  /\ Forall2
       (fun row row' =>
          if String.eqb (Level.userAddress row) (toLowerCase userAddress)
             && Level.isActive row
          then Level.totalInvestment row' = add (Level.totalInvestment row) amount
               /\ row' = Level.addInvestment amount row
          else row' = row)
       (levels db) (levels db').
Proof.
  unfold EventListener.updateLevelInvestments, caught, setLevels. simpl.
  repeat split.
  eapply Forall2_impl; [apply updateAll_pointwise|].
  intros row row' ->. simpl.
  destruct (_ && _); [split|]; reflexivity.
Qed.

(** C4 (as amended). [updateLevelEarnings(beneficiary, source, amount,
    level)] adds [amount] to the [totalEarnings] of the first active row
    keyed (source, beneficiary, level) and changes nothing else; when no
    active row has that key it changes nothing at all. In both cases it
    returns normally and logs nothing. *)
Theorem updateLevelEarnings_first_active `{JS : Number}
    (userAddress fromAddress : string) (amount : num) (level : nat) (db : DB) :
  let q := fun row =>
    Level.hasKey (toLowerCase fromAddress) (toLowerCase userAddress) level row
    && Level.isActive row in
  let (db', logged) :=
    EventListener.updateLevelEarnings userAddress fromAddress amount level db in
  logged = None
  /\ users db' = users db
  /\ investments db' = investments db
  /\ match findOne q (levels db) with
     | None => levels db' = levels db
     | Some row =>
       exists pre post,
         levels db = pre ++ row :: post
         /\ (forall x, In x pre -> q x = false)
         /\ levels db' = pre ++ Level.addEarnings amount row :: post
         /\ Level.totalEarnings (Level.addEarnings amount row)
            = add (Level.totalEarnings row) amount
     end.
Proof.
  unfold EventListener.updateLevelEarnings, caught, setLevels. simpl.
  repeat split.
  destruct (findOne _ (levels db)) as [row|] eqn:Hf.
  - destruct (findOne_split _ _ _ Hf) as (pre & post & Hl & Hpre & Hrow).
    exists pre, post. repeat split; [exact Hl | exact Hpre |].
    rewrite Hl. now apply updateFirst_split.
  - apply updateFirst_none. now apply findOne_None.
Qed.

(** C3, counterexample. In the store that Scenario A and the housekeeping
    leave, U2 is the descendant of one (inactive) row; after U2 deposits
    100 the deposit is recorded, nothing is logged, and the row's
    [totalInvestment] is still 0. *)
Lemma deposit_skips_inactive_row :
  List.map Scenario.view (levels Scenario.dormantA) = [(Scenario.u2, Scenario.r, 1, false, 0%Z, 0%Z)]
  /\ snd (EventListener.handleDepositEvent Scenario.addrU2 100%Z false 77 Scenario.txA 9000%N Scenario.dormantA) = None
  /\ List.map Scenario.view
       (levels (fst (EventListener.handleDepositEvent Scenario.addrU2 100%Z false 77 Scenario.txA 9000%N Scenario.dormantA)))
     = [(Scenario.u2, Scenario.r, 1, false, 0%Z, 0%Z)]
  /\ List.map Scenario.view
       (levels (fst (EventListener.updateLevelInvestments Scenario.addrU2 100%Z Scenario.dormantA)))
     = [(Scenario.u2, Scenario.r, 1, false, 0%Z, 0%Z)].
Proof. vm_compute. repeat split. Qed.

(** C4, counterexample. In the same store the row keyed (U2, R, 1) exists;
    a commission of 5 for beneficiary R from source U2 at level 1 leaves
    its [totalEarnings] at 0. *)
Lemma commission_skips_inactive_row :
  List.map Scenario.view (levels Scenario.dormantA) = [(Scenario.u2, Scenario.r, 1, false, 0%Z, 0%Z)]
  /\ EventListener.handleTransactionEvent Scenario.addrR Scenario.addrU2 5%Z 1 Scenario.dormantA = (Scenario.dormantA, None)
  /\ EventListener.updateLevelEarnings Scenario.addrR Scenario.addrU2 5%Z 1 Scenario.dormantA = (Scenario.dormantA, None).
Proof. vm_compute. repeat split. Qed.

(** ** Registration *)

Section Registration.
Context `{JS : Number}.

(** The rows the loop adds are rows of the user, towards members of the
    chain, at levels within the bound. *)
Lemma createFrom_new_rows (u : string) (now : N) (chain : list string) :
  forall (i : nat) (db db' : DB) (o : outcome unit),
    EventListener.createFrom u now chain i db = (db', o) ->
    exists new,
      levels db' = levels db ++ new
      /\ Forall (fun row =>
           Level.userAddress row = toLowerCase u
           /\ In (Level.referrerAddress row) (List.map toLowerCase chain)
           /\ i < Level.level row <= 21) new.
Proof.
  induction chain as [|a rest IH]; simpl; intros i db db' o.
  - unfold ret. intros [= <- _]. exists []. now rewrite app_nil_r.
  - destruct (i <? 21) eqn:Hi;
      [|unfold ret; intros [= <- _]; exists []; now rewrite app_nil_r].
    apply Nat.ltb_lt in Hi.
    unfold bind. rewrite createRelation_run. cbv zeta.
    assert (Hweaken : forall new,
      Forall (fun row => Level.userAddress row = toLowerCase u
        /\ In (Level.referrerAddress row) (List.map toLowerCase rest)
        /\ S i < Level.level row <= 21) new ->
      Forall (fun row => Level.userAddress row = toLowerCase u
        /\ (toLowerCase a = Level.referrerAddress row
            \/ In (Level.referrerAddress row) (List.map toLowerCase rest))
        /\ i < Level.level row <= 21) new).
    { intros new. apply List.Forall_impl. intros row (? & ? & ?).
      repeat split; auto; lia. }
    destruct (findOne _ (levels db)).
    + intros Hrest. destruct (IH _ _ _ _ Hrest) as (new & Hl & Hnew).
      exists new. split; [exact Hl | now apply Hweaken].
    + destruct (Level.validate _);
        [|intros [= <- _]; exists []; now rewrite app_nil_r].
      intros Hrest. destruct (IH _ _ _ _ Hrest) as (new & Hl & Hnew).
      simpl in Hl. rewrite <- app_assoc in Hl. simpl in Hl.
      eexists. split; [exact Hl|].
      constructor; [|now apply Hweaken].
      simpl. rewrite !toLowerCase_idem. repeat split; auto; lia.
Qed.

Lemma findOne_updateFirst {A : Type} (q : A -> bool) (f : A -> A) (l : list A) (x : A) :
  findOne q l = Some x -> q (f x) = true ->
  findOne q (updateFirst q f l) = Some (f x).
Proof.
  unfold findOne. induction l as [|y l IH]; simpl; [discriminate|].
  destruct (q y) eqn:Hy.
  - intros [= ->] Hq. simpl. now rewrite Hq.
  - intros H Hq. simpl. rewrite Hy. now apply IH.
Qed.

(** What [createLevelRelationships] leaves: the users and the ledger as
    they were, and new rows appended after the old ones. *)
Lemma createLevelRelationships_rows (u r : string) (now : N) (db : DB) :
  let db' := fst (EventListener.createLevelRelationships u (Some r) now db) in
  users db' = users db /\ investments db' = investments db
  /\ exists new,
       levels db' = levels db ++ new
       /\ Forall (fun row =>
            Level.userAddress row = toLowerCase u
            /\ In (Level.referrerAddress row)
                  (List.map toLowerCase
                     (EventListener.uplineFrom (users db) (toLowerCase r) 21))
            /\ 1 <= Level.level row <= 21) new.
Proof.
  cbv zeta.
  unfold EventListener.createLevelRelationships, caught, bind.
  rewrite getUplineChain_run.
  destruct (EventListener.createFrom _ _ _ _ db) as [db2 o] eqn:Hrun.
  destruct (createFrom_appends _ _ _ _ _ _ _ Hrun) as (Hu & Hi & _).
  destruct (createFrom_new_rows _ _ _ _ _ _ _ Hrun) as (new & Hl & Hnew).
  assert (Hfst : forall x : DB * option error, fst x = db2 ->
    users (fst x) = users db /\ investments (fst x) = investments db
    /\ exists new0, levels (fst x) = levels db ++ new0
       /\ Forall (fun row =>
            Level.userAddress row = toLowerCase u
            /\ In (Level.referrerAddress row)
                  (List.map toLowerCase
                     (EventListener.uplineFrom (users db) (toLowerCase r) 21))
            /\ 1 <= Level.level row <= 21) new0).
  { intros x ->. repeat split; [exact Hu | exact Hi |].
    exists new. split; [exact Hl|].
    eapply List.Forall_impl; [|exact Hnew]. intros row (? & ? & ?).
    repeat split; auto; lia. }
  apply Hfst. destruct o; reflexivity.
Qed.

(** The handler on a known address: the referrer is overwritten in place,
    then the rows are materialized. *)
Lemma handleRegistrationEvent_known (u r : string) (now : N) (db : DB) (user : User.t) :
  User.findByWallet (users db) u = Some user ->
  EventListener.handleRegistrationEvent u (Some r) now db =
  (fst (EventListener.createLevelRelationships u (Some r) now
     (mkDB (updateFirst
              (fun v => String.eqb (User.walletAddress v) (toLowerCase u))
              (User.setReferrer (toLowerCase r)) (users db))
           (levels db) (investments db))),
   None).
Proof.
  intros Hfind.
  unfold EventListener.handleRegistrationEvent, caught, bind, gets, call, lowerOf, ret.
  rewrite Hfind. reflexivity.
Qed.

Lemma setReferrer_lower (r : string) (user : User.t) :
  User.setReferrer (toLowerCase r) user = User.setReferrer r user.
Proof. unfold User.setReferrer. now rewrite toLowerCase_idem. Qed.

End Registration.

Section Reregistration.
Context `{JS : Number}.

Lemma uplineFrom_length (coll : list User.t) (n : nat) :
  forall a, List.length (EventListener.uplineFrom coll a n) <= n.
Proof.
  induction n as [|n IH]; intros a; simpl; [lia|].
  destruct (User.findByWallet coll a) as [user|]; simpl; [|lia].
  destruct (User.referrerAddress user) as [r|]; simpl; [|lia].
  destruct (nonEmpty r); simpl; [|lia]. specialize (IH r). lia.
Qed.

Lemma uplineFrom_nonEmpty (coll : list User.t) (n : nat) :
  forall a, Forall (fun c => nonEmpty c = true)
                   (EventListener.uplineFrom coll a n).
Proof.
  induction n as [|n IH]; intros a; cbn [EventListener.uplineFrom];
    [constructor|].
  destruct (User.findByWallet coll a) as [v|]; [|constructor].
  destruct (User.referrerAddress v) as [r|]; [|constructor].
  destruct (nonEmpty r) eqn:Hr; constructor; [exact Hr | apply IH].
Qed.

(** The new rows are fresh rows of the user, towards members of the chain,
    at levels above the index. *)
Lemma missingRelations_rows (u : string) (now : N) (coll : list Level.t)
    (chain : list string) :
  forall i,
    Forall (fun row =>
      Level.userAddress row = toLowerCase u
      /\ In (Level.referrerAddress row) (List.map toLowerCase chain)
      /\ i < Level.level row <= 21
      /\ Level.totalInvestment row = zero /\ Level.totalEarnings row = zero
      /\ Level.isActive row = true /\ Level.registrationTime row = now)
      (missingRelations u now coll chain i).
Proof.
  induction chain as [|a rest IH]; intros i; cbn [missingRelations];
    [constructor|].
  destruct (i <? 21) eqn:Hi; [|constructor]. apply Nat.ltb_lt in Hi.
  assert (Htail : Forall (fun row =>
      Level.userAddress row = toLowerCase u
      /\ In (Level.referrerAddress row) (List.map toLowerCase (a :: rest))
      /\ i < Level.level row <= 21
      /\ Level.totalInvestment row = zero /\ Level.totalEarnings row = zero
      /\ Level.isActive row = true /\ Level.registrationTime row = now)
      (missingRelations u now coll rest (S i))).
  { eapply List.Forall_impl; [|exact (IH (S i))].
    intros row (Hu & Hin & Hl & Hrest). split; [exact Hu|].
    split; [now right|]. split; [lia | exact Hrest]. }
  destruct (findOne _ coll); cbn [app]; [exact Htail|].
  constructor; [|exact Htail].
  cbn. rewrite !toLowerCase_idem. repeat split; auto; lia.
Qed.

Lemma findOne_absent {A : Type} (q : A -> bool) (l : list A) :
  (forall x, In x l -> q x = false) -> findOne q l = None.
Proof.
  unfold findOne. induction l as [|y l IH]; intros Hall; simpl; [reflexivity|].
  rewrite (Hall y (or_introl eq_refl)). apply IH.
  intros x Hx. apply Hall. now right.
Qed.

(** The loop, round by round: it adds the missing rows and ends without an
    error. [added] are the rows of the rounds before. *)
Lemma createFrom_exact (u : string) (now : N) (coll : list Level.t)
    (chain : list string) :
  nonEmpty u = true -> Forall (fun c => nonEmpty c = true) chain ->
  forall (i : nat) (added : list Level.t) (db : DB),
    levels db = coll ++ added ->
    Forall (fun row => Level.level row <= i) added ->
    EventListener.createFrom u now chain i db
    = (mkDB (users db) (levels db ++ missingRelations u now coll chain i)
            (investments db), Ok tt).
Proof.
  intros Hu Hchain. induction Hchain as [|a rest Ha Hrest IH];
    intros i added db Hdb Hadded; cbn [EventListener.createFrom missingRelations].
  - rewrite app_nil_r. now destruct db.
  - destruct (i <? 21) eqn:Hi; [|rewrite app_nil_r; now destruct db].
    apply Nat.ltb_lt in Hi.
    unfold bind. rewrite createRelation_run. cbv zeta.
    assert (Hlook : forall q : Level.t -> bool,
      (forall row, q row = true -> Level.level row = i + 1) ->
      findOne q (levels db) = findOne q coll).
    { intros q Hq. rewrite Hdb, findOne_app.
      destruct (findOne q coll); [reflexivity|].
      apply findOne_absent. intros row Hin.
      rewrite List.Forall_forall in Hadded. specialize (Hadded row Hin).
      destruct (q row) eqn:Hrow; [|reflexivity].
      specialize (Hq row Hrow). lia. }
    rewrite Hlook.
    2:{ intros row Hrow. unfold Level.hasKey in Hrow.
        apply andb_prop in Hrow as [_ Hrow]. now apply Nat.eqb_eq in Hrow. }
    destruct (findOne _ coll) as [row|].
    + cbn [app]. apply (IH (S i) added db Hdb).
      eapply List.Forall_impl; [|exact Hadded]. intros; simpl in *; lia.
    + assert (Hvalid : Level.validate
                (Level.create (toLowerCase u) (toLowerCase a) (i + 1) now) = true).
      { unfold Level.validate, Level.create.
        cbn [Level.userAddress Level.referrerAddress Level.level].
        rewrite !nonEmpty_toLowerCase, Hu, Ha.
        replace (1 <=? i + 1) with true by (symmetry; apply Nat.leb_le; lia).
        replace (i + 1 <=? 21) with true by (symmetry; apply Nat.leb_le; lia).
        reflexivity. }
      rewrite Hvalid.
      rewrite (IH (S i)
                 (added ++ [Level.create (toLowerCase u) (toLowerCase a) (i + 1) now])).
      * cbn [users levels investments]. now rewrite <- app_assoc.
      * cbn [levels]. now rewrite Hdb, app_assoc.
      * apply Forall_app. split.
        -- eapply List.Forall_impl; [|exact Hadded]. intros; simpl in *; lia.
        -- constructor; [cbn; lia | constructor].
Qed.

(** Without a user address no row passes validation: the loop adds
    nothing. *)
Lemma createFrom_nameless (u : string) (now : N) (chain : list string) :
  nonEmpty u = false ->
  forall (i : nat) (db : DB),
    fst (EventListener.createFrom u now chain i db) = db.
Proof.
  intros Hu. induction chain as [|a rest IH]; intros i db;
    cbn [EventListener.createFrom]; [reflexivity|].
  destruct (i <? 21); [|reflexivity].
  unfold bind. rewrite createRelation_run. cbv zeta.
  destruct (findOne _ (levels db)); [apply IH|].
  unfold Level.validate, Level.create.
  cbn [Level.userAddress Level.referrerAddress Level.level].
  rewrite !nonEmpty_toLowerCase, Hu. reflexivity.
Qed.

(** With the missing rows added, every position of the chain below 21 has
    a row. *)
Lemma missingRelations_cover (u : string) (now : N) (coll : list Level.t)
    (chain : list string) :
  forall i j a,
    nth_error chain j = Some a -> i + j < 21 ->
    exists row,
      In row (coll ++ missingRelations u now coll chain i)
      /\ Level.hasKey (toLowerCase u) (toLowerCase a) (i + j + 1) row = true.
Proof.
  induction chain as [|c rest IH]; intros i j a Hj Hlt;
    [destruct j; discriminate|].
  cbn [missingRelations].
  replace (i <? 21) with true by (symmetry; apply Nat.ltb_lt; lia).
  destruct j as [|j].
  - injection Hj as ->. rewrite Nat.add_0_r.
    destruct (findOne _ coll) as [row|] eqn:Hf.
    + exists row. apply findOne_Some in Hf as [Hin Hrow].
      split; [apply in_or_app; now left | exact Hrow].
    + eexists. split; [apply in_or_app; right; left; reflexivity|].
      unfold Level.hasKey, Level.create.
      cbn [Level.userAddress Level.referrerAddress Level.level].
      now rewrite !toLowerCase_idem, !String.eqb_refl, Nat.eqb_refl.
  - cbn [nth_error] in Hj.
    destruct (IH (S i) j a Hj ltac:(lia)) as (row & Hin & Hrow).
    exists row. split.
    + apply in_app_or in Hin as [Hin|Hin]; apply in_or_app; [now left|].
      right. apply in_or_app. now right.
    + now replace (i + S j + 1) with (S i + j + 1) by lia.
Qed.

(** What [createLevelRelationships] adds, exactly. *)
Lemma createLevelRelationships_exact (u r : string) (now : N) (db : DB) :
  levels (fst (EventListener.createLevelRelationships u (Some r) now db))
  = levels db
    ++ (if nonEmpty u
        then missingRelations u now (levels db)
               (EventListener.uplineFrom (users db) (toLowerCase r) 21) 0
        else []).
Proof.
  unfold EventListener.createLevelRelationships, caught, bind.
  rewrite getUplineChain_run.
  destruct (nonEmpty u) eqn:Hu.
  - rewrite (createFrom_exact u now (levels db) _ Hu
               (uplineFrom_nonEmpty _ _ _) 0 [] db);
      [reflexivity | now rewrite app_nil_r | constructor].
  - pose proof (createFrom_nameless u now
                  (EventListener.uplineFrom (users db) (toLowerCase r) 21)
                  Hu 0 db) as Hsame.
    destruct (EventListener.createFrom _ _ _ _ db) as [db2 o].
    cbn [fst] in Hsame. subst db2. rewrite app_nil_r.
    destruct o; reflexivity.
Qed.

End Reregistration.

(** C10. A registration event for an address that is already in the
    directory overwrites that user's [referrerAddress] with the event's
    (lower-cased) referrer and, on the relationship rows, only appends:
    every row that was in the store is still there, unchanged and at its
    place (none deleted, none deactivated), followed by the new rows.  The
    new rows are exactly the rows missing for the chain of the new
    referrer: one fresh row (active, no investment, no earnings) for each
    position [i] of the chain whose key (user, chain member, [i + 1]) was
    in no row of the store; they are rows of the user towards members of
    that chain at levels 1 to 21, and afterwards every position of the
    chain has its row.  (For an empty user address, which no row may
    carry, nothing is added.)  The ledger is not touched. *)
Theorem reregistration_keeps_rows `{JS : Number}
    (userAddress referrerAddress : string) (now : N) (db : DB) (user : User.t) :
  User.findByWallet (users db) userAddress = Some user ->
  let db' := fst (EventListener.handleRegistrationEvent userAddress
                    (Some referrerAddress) now db) in
  let chain := EventListener.uplineFrom (users db')
                 (toLowerCase referrerAddress) 21 in
  User.findByWallet (users db') userAddress
    = Some (User.setReferrer referrerAddress user)
  /\ User.referrerAddress (User.setReferrer referrerAddress user)
     = Some (toLowerCase referrerAddress)
  /\ investments db' = investments db
  /\ exists new,
       levels db' = levels db ++ new
       /\ Forall (fun row =>
            Level.userAddress row = toLowerCase userAddress
            /\ In (Level.referrerAddress row) (List.map toLowerCase chain)
            /\ 1 <= Level.level row <= 21
            /\ Level.totalInvestment row = zero
            /\ Level.totalEarnings row = zero
            /\ Level.isActive row = true
            /\ Level.registrationTime row = now) new
       /\ new = (if nonEmpty userAddress
                 then missingRelations userAddress now (levels db) chain 0
                 else [])
       /\ (nonEmpty userAddress = true ->
           forall i uplineAddress,
             nth_error chain i = Some uplineAddress ->
             exists row,
               In row (levels db')
               /\ Level.hasKey (toLowerCase userAddress)
                    (toLowerCase uplineAddress) (i + 1) row = true).
Proof.
  intros Hfind. cbv zeta.
  rewrite (handleRegistrationEvent_known _ _ _ _ _ Hfind).
  cbn [fst].
  match goal with
  | |- context [EventListener.createLevelRelationships _ _ _ ?d] => set (db1 := d)
  end.
  destruct (createLevelRelationships_rows userAddress referrerAddress now db1)
    as (Hu & Hi & _).
  pose proof (createLevelRelationships_exact userAddress referrerAddress now db1)
    as Hl.
  rewrite Hu, Hi. split; [|split; [reflexivity|split; [reflexivity|]]].
  - unfold db1; simpl users.
    unfold User.findByWallet in *.
    rewrite (findOne_updateFirst _ (User.setReferrer (toLowerCase referrerAddress))
               _ _ Hfind).
    + now rewrite setReferrer_lower.
    + simpl. now destruct (findOne_Some _ _ _ Hfind).
  - change (levels db1) with (levels db) in Hl.
    eexists. split; [exact Hl|]. split; [|split; [reflexivity|]].
    + destruct (nonEmpty userAddress); [|constructor].
      eapply List.Forall_impl;
        [|exact (missingRelations_rows userAddress now (levels db) _ 0)].
      intros row (H1 & H2 & H3 & H4). repeat split; try tauto; lia.
    + intros Hne i a Hi'. rewrite Hl, Hne.
      assert (Hlen : i < 21).
      { pose proof (proj1 (nth_error_Some _ i)
                      ltac:(rewrite Hi'; discriminate)) as Hlt.
        pose proof (uplineFrom_length (users db1) 21
                      (toLowerCase referrerAddress)). lia. }
      exact (missingRelations_cover userAddress now (levels db) _ 0 i a Hi' Hlen).
Qed.

(** C10, witness: in the store of Scenario A, U2 (registered under U1) is
    registered again under R. The chain of R is the zero address alone;
    the three rows of the store stay and the row (U2, 0x0, 1) is added. *)
Lemma reregistration_keeps_rows_witness :
  User.findByWallet (users Scenario.storeA) Scenario.addrU2 = Some Scenario.userU2
  /\ let db' := fst (EventListener.handleRegistrationEvent Scenario.addrU2
                       (Some Scenario.addrR) 4000%N Scenario.storeA) in
     User.findByWallet (users db') Scenario.addrU2
       = Some (User.setReferrer Scenario.addrR Scenario.userU2)
     /\ levels db'
        = levels Scenario.storeA
          ++ [Level.create Scenario.u2 Scenario.zeroAddress 1 4000%N]
     /\ List.map Scenario.key (levels db')
        = [(Scenario.u1, toLowerCase Scenario.zeroAddress, 1);
           (Scenario.u2, Scenario.r, 1);
           (Scenario.u2, toLowerCase Scenario.zeroAddress, 2);
           (Scenario.u2, toLowerCase Scenario.zeroAddress, 1)].
Proof.
  split; [reflexivity|].
  destruct (reregistration_keeps_rows Scenario.addrU2 Scenario.addrR 4000%N
              Scenario.storeA Scenario.userU2 eq_refl)
    as (Huser & _ & _ & new & Hl & _ & Hnew & _).
  cbv zeta. split; [exact Huser|].
  assert (Hrows : new = [Level.create Scenario.u2 Scenario.zeroAddress 1 4000%N]).
  { rewrite Hnew. vm_compute. reflexivity. }
  rewrite Hrows in Hl. split; [exact Hl|]. rewrite Hl. vm_compute. reflexivity.
Defined.

(** ** The scenarios on the code *)

(** C1. Scenario A on the handlers. [getUplineChain(referrer)] starts at
    the referrer's own referrer, so the referrer itself is never position
    0 of the chain: with a root registered without a referrer (its event
    carries none, or the empty string) the only row left by the three
    registrations is (U2, R, 1); with the zero address as the root's
    referrer the rows are (U1, 0x0, 1), (U2, R, 1), (U2, 0x0, 2). In no
    case are they the expected (U1, R, 1), (U2, U1, 1), (U2, R, 2). *)
Theorem scenarioA_rows :
  List.map Scenario.key (levels (Scenario.scenarioA None))
    = [(Scenario.u2, Scenario.r, 1)]
  /\ List.map Scenario.key (levels (Scenario.scenarioA (Some "")))
    = [(Scenario.u2, Scenario.r, 1)]
  /\ List.map Scenario.key (levels (Scenario.scenarioA (Some Scenario.zeroAddress)))
    = [(Scenario.u1, toLowerCase Scenario.zeroAddress, 1);
       (Scenario.u2, Scenario.r, 1);
       (Scenario.u2, toLowerCase Scenario.zeroAddress, 2)]
  /\ Scenario.expectedA
    = [(Scenario.u1, Scenario.r, 1); (Scenario.u2, Scenario.u1, 1);
       (Scenario.u2, Scenario.r, 2)].
Proof. vm_compute. repeat split. Qed.

(** The sibling path on the same directory: setup-levels for R and then
    for U1 creates the rows of the direct referrers, (U1, R, 1) and
    (U2, U1, 1), and (U2, R, 2), next to the row the listener had left. *)
Example setupLevels_starts_at_direct_referrer :
  List.map Scenario.key
    (levels (fst (UserRoutes.setupLevels Scenario.addrU1
                    (fst (UserRoutes.setupLevels Scenario.addrR
                            (Scenario.scenarioA (Some "")))))))
  = [(Scenario.u2, Scenario.r, 1); (Scenario.u1, Scenario.r, 1);
     (Scenario.u2, Scenario.r, 2); (Scenario.u2, Scenario.u1, 1)].
Proof. vm_compute. reflexivity. Qed.

(** Scenario B on the handler: the same deposit event delivered twice. The
    first delivery records the deposit; the second is stopped by the
    unique index of the ledger (one entry for the transaction, relationship
    totals as the first delivery left them) and the error is only logged,
    but the depositor's [deposits] list has already been extended a second
    time. *)
Example scenarioB_replay :
  snd Scenario.firstDeposit = None
  /\ snd Scenario.replayedDeposit = Some DuplicateKeyError
  /\ List.map Investment.txHash (investments (fst Scenario.replayedDeposit))
     = [Scenario.txA]
  /\ levels (fst Scenario.replayedDeposit) = levels (fst Scenario.firstDeposit)
  /\ Scenario.depositsOf (fst Scenario.firstDeposit)
     = [(Scenario.r, []); (Scenario.u1, []);
        (Scenario.u2, [(100%Z, Scenario.txA)])]
  /\ Scenario.depositsOf (fst Scenario.replayedDeposit)
     = [(Scenario.r, []); (Scenario.u1, []);
        (Scenario.u2, [(100%Z, Scenario.txA); (100%Z, Scenario.txA)])].
Proof. vm_compute. repeat split. Qed.

(** ** Bounded depth *)

Section BoundedDepth.
Context `{JS : Number}.

Lemma sameRelationship_refl (row : Level.t) : sameRelationship row row.
Proof. now repeat split. Qed.

Lemma sameRelationship_trans (a b c : Level.t) :
  sameRelationship a b -> sameRelationship b c -> sameRelationship a c.
Proof. unfold sameRelationship. intros (? & ? & ?) (? & ? & ?). repeat split; congruence. Qed.

Lemma Forall2_same_refl (l : list Level.t) : Forall2 sameRelationship l l.
Proof. induction l; constructor; auto using sameRelationship_refl. Qed.

Lemma grows_refl (db : DB) : grows db db.
Proof.
  exists (levels db), []. rewrite app_nil_r.
  repeat split; [apply Forall2_same_refl | constructor].
Qed.

Lemma grows_levels (db db' : DB) : levels db' = levels db -> grows db db'.
Proof.
  intros H. exists (levels db), []. rewrite app_nil_r.
  repeat split; [exact H | apply Forall2_same_refl | constructor].
Qed.

Lemma Forall2_same_range (l l' : list Level.t) :
  Forall2 sameRelationship l l' -> Forall levelInRange l -> Forall levelInRange l'.
Proof.
  induction 1 as [|a b l l' (_ & _ & Hab) _ IH]; intros Hl; [constructor|].
  inversion Hl; subst. constructor; [|auto].
  unfold levelInRange in *. now rewrite Hab.
Qed.

Lemma Forall2_same_trans (a b c : list Level.t) :
  Forall2 sameRelationship a b -> Forall2 sameRelationship b c ->
  Forall2 sameRelationship a c.
Proof.
  intros Hab. revert c. induction Hab as [|x y a b Hxy _ IH]; intros c Hbc.
  - inversion Hbc. constructor.
  - inversion Hbc; subst. constructor; [|auto].
    eapply sameRelationship_trans; eauto.
Qed.

Lemma grows_trans (a b c : DB) : grows a b -> grows b c -> grows a c.
Proof.
  intros (k1 & c1 & Hb & Hk1 & Hc1) (k2 & c2 & Hc & Hk2 & Hc2).
  rewrite Hb in Hk2.
  apply List.Forall2_app_inv_l in Hk2 as (k2a & k2b & Hka & Hkb & ->).
  exists k2a, (k2b ++ c2). repeat split.
  - now rewrite Hc, app_assoc.
  - eapply Forall2_same_trans; eauto.
  - apply Forall_app. split; [|exact Hc2].
    eapply Forall2_same_range; eauto.
Qed.

Lemma keeps_ret {A : Type} (a : A) : keeps (ret a).
Proof. intros db db' o [= <- _]. apply grows_refl. Qed.

Lemma keeps_throw {A : Type} (e : error) : keeps (@throw _ A e).
Proof. intros db db' o [= <- _]. apply grows_refl. Qed.

Lemma keeps_gets {A : Type} (f : DB -> A) : keeps (gets f).
Proof. intros db db' o [= <- _]. apply grows_refl. Qed.

Lemma keeps_bind {A B : Type} (m : M A) (k : A -> M B) :
  keeps m -> (forall a, keeps (k a)) -> keeps (bind m k).
Proof.
  intros Hm Hk db db' o. unfold bind.
  destruct (m db) as [db1 [a|e]] eqn:H1.
  - intros H2. eapply grows_trans; [eapply Hm, H1 | eapply Hk, H2].
  - intros [= <- _]. eapply Hm, H1.
Qed.

Lemma keeps_setUsers (f : list User.t -> list User.t) : keeps (setUsers f).
Proof. intros db db' o [= <- _]. now apply grows_levels. Qed.

Lemma keeps_setInvestments (f : list Investment.t -> list Investment.t) :
  keeps (setInvestments f).
Proof. intros db db' o [= <- _]. now apply grows_levels. Qed.

(** A new row is saved only if it passes the schema's validation, and so
    only with a level from 1 to 21. *)
Lemma keeps_saveNewLevel (row : Level.t) : keeps (saveNewLevel row).
Proof.
  intros db db' o. unfold saveNewLevel.
  destruct (Level.validate row) eqn:Hv.
  - intros [= <- _]. exists (levels db), [row]. simpl.
    repeat split; [apply Forall2_same_refl|].
    constructor; [|constructor].
    unfold Level.validate in Hv.
    apply andb_prop in Hv as [Hv H21]. apply andb_prop in Hv as [_ H1].
    apply Nat.leb_le in H21, H1. split; assumption.
  - intros [= <- _]. apply grows_refl.
Qed.

Lemma updateFirst_same (q : Level.t -> bool) (f : Level.t -> Level.t) (l : list Level.t) :
  (forall row, sameRelationship row (f row)) ->
  Forall2 sameRelationship l (updateFirst q f l).
Proof.
  intros Hf. induction l as [|x l IH]; simpl; [constructor|].
  destruct (q x); constructor; auto using Forall2_same_refl, sameRelationship_refl.
Qed.

Lemma updateAll_same (q : Level.t -> bool) (f : Level.t -> Level.t) (l : list Level.t) :
  (forall row, sameRelationship row (f row)) ->
  Forall2 sameRelationship l (updateAll q f l).
Proof.
  intros Hf. unfold updateAll. induction l as [|x l IH]; simpl; constructor; auto.
  destruct (q x); auto using sameRelationship_refl.
Qed.

Lemma grows_same (db db' : DB) :
  Forall2 sameRelationship (levels db) (levels db') -> grows db db'.
Proof.
  intros H. exists (levels db'), []. rewrite app_nil_r.
  repeat split; [exact H | constructor].
Qed.

Lemma keeps_forEach {A : Type} (l : list A) (body : A -> M unit) :
  (forall x, keeps (body x)) -> keeps (forEach l body).
Proof.
  intros Hb. induction l as [|x l IH]; simpl.
  - apply keeps_ret.
  - apply keeps_bind; [apply Hb | intros _; exact IH].
Qed.

Lemma keepsH_caught (m : M unit) : keeps m -> keepsH (caught m).
Proof.
  intros Hm db. unfold caught.
  destruct (m db) as [db' [a|e]] eqn:H; simpl; eapply Hm, H.
Qed.

Lemma keeps_call (h : Handler) : keepsH h -> keeps (call h).
Proof. intros Hh db db' o [= <- _]. apply Hh. Qed.

Lemma keeps_lowerOf (x : option string) : keeps (lowerOf x).
Proof. destruct x; [apply keeps_ret | apply keeps_throw]. Qed.

Lemma keeps_saveNewUser (u : User.t) : keeps (saveNewUser u).
Proof.
  unfold saveNewUser. destruct (negb _); [apply keeps_throw|].
  apply keeps_bind; [apply keeps_gets|]. intros coll.
  destruct (existsb _ _); [apply keeps_throw | apply keeps_setUsers].
Qed.

Lemma keeps_saveNewInvestment (i : Investment.t) : keeps (saveNewInvestment i).
Proof.
  unfold saveNewInvestment. destruct (negb _); [apply keeps_throw|].
  apply keeps_bind; [apply keeps_gets|]. intros coll.
  destruct (Investment.txExists _ _); [apply keeps_throw | apply keeps_setInvestments].
Qed.

Lemma keeps_addDeposit (w : string) (a : num) (tx : string) (blk : nat) (now : N) :
  keeps (addDeposit w a tx blk now).
Proof.
  unfold addDeposit. destruct (negb _); [apply keeps_throw | apply keeps_setUsers].
Qed.

Lemma keeps_setLevels_updateFirst (q : Level.t -> bool) (f : Level.t -> Level.t) :
  (forall row, sameRelationship row (f row)) -> keeps (setLevels (updateFirst q f)).
Proof.
  intros Hf db db' o [= <- _]. apply grows_same. simpl. now apply updateFirst_same.
Qed.

Lemma keeps_setLevels_updateAll (q : Level.t -> bool) (f : Level.t -> Level.t) :
  (forall row, sameRelationship row (f row)) -> keeps (setLevels (updateAll q f)).
Proof.
  intros Hf db db' o [= <- _]. apply grows_same. simpl. now apply updateAll_same.
Qed.

Lemma same_addInvestment (a : num) (row : Level.t) :
  sameRelationship row (Level.addInvestment a row).
Proof. now repeat split. Qed.

Lemma same_addEarnings (a : num) (row : Level.t) :
  sameRelationship row (Level.addEarnings a row).
Proof. now repeat split. Qed.

Lemma same_deactivate (row : Level.t) :
  sameRelationship row (SyncService.deactivate row).
Proof. now repeat split. Qed.

(** *** The event listener *)

Lemma keeps_createFrom (u : string) (now : N) (chain : list string) (i : nat) :
  keeps (EventListener.createFrom u now chain i).
Proof.
  revert i. induction chain as [|a rest IH]; intros i; simpl.
  - apply keeps_ret.
  - destruct (i <? 21); [|apply keeps_ret].
    apply keeps_bind; [|intros _; apply IH].
    unfold EventListener.createRelation.
    apply keeps_bind; [apply keeps_gets|]. intros [row|];
      [apply keeps_ret | apply keeps_saveNewLevel].
Qed.

Lemma keepsH_createLevelRelationships (u : string) (r : option string) (now : N) :
  keepsH (EventListener.createLevelRelationships u r now).
Proof.
  apply keepsH_caught. apply keeps_bind.
  - unfold EventListener.getUplineChain.
    apply keeps_bind; [apply keeps_lowerOf|]. intros a.
    apply keeps_bind; [apply keeps_gets|]. intros coll. apply keeps_ret.
  - intros chain. apply keeps_createFrom.
Qed.

Lemma keepsH_handleRegistrationEvent (u : string) (r : option string) (now : N) :
  keepsH (EventListener.handleRegistrationEvent u r now).
Proof.
  apply keepsH_caught. apply keeps_bind; [apply keeps_gets|]. intros user.
  apply keeps_bind.
  - destruct user; (apply keeps_bind; [apply keeps_lowerOf|]); intros a;
      [apply keeps_setUsers | apply keeps_saveNewUser].
  - intros _. apply keeps_call, keepsH_createLevelRelationships.
Qed.

Lemma keepsH_updateLevelInvestments (u : string) (a : num) :
  keepsH (EventListener.updateLevelInvestments u a).
Proof.
  apply keepsH_caught, keeps_setLevels_updateAll. intros row. apply same_addInvestment.
Qed.

Lemma keepsH_updateLevelEarnings (u from : string) (a : num) (lvl : nat) :
  keepsH (EventListener.updateLevelEarnings u from a lvl).
Proof.
  apply keepsH_caught, keeps_setLevels_updateFirst. intros row. apply same_addEarnings.
Qed.

Lemma keepsH_handleDepositEvent (u : string) (a : num) (token : bool) (blk : nat)
    (tx : string) (now : N) :
  keepsH (EventListener.handleDepositEvent u a token blk tx now).
Proof.
  apply keepsH_caught. apply keeps_bind; [apply keeps_gets|]. intros user.
  apply keeps_bind; [destruct user; [apply keeps_ret | apply keeps_saveNewUser]|].
  intros _. apply keeps_bind; [apply keeps_addDeposit|].
  intros _. apply keeps_bind; [apply keeps_saveNewInvestment|].
  intros _. apply keeps_call, keepsH_updateLevelInvestments.
Qed.

Lemma keepsH_handleTransactionEvent (u from : string) (v : num) (lvl : nat) :
  keepsH (EventListener.handleTransactionEvent u from v lvl).
Proof. apply keepsH_caught, keeps_call, keepsH_updateLevelEarnings. Qed.

(** *** setup-levels *)

Lemma keeps_ensureLevel (referral : User.t) (referrer : string) (lvl : nat) :
  keeps (UserRoutes.ensureLevel referral referrer lvl).
Proof.
  unfold UserRoutes.ensureLevel.
  apply keeps_bind; [apply keeps_gets|]. intros [row|];
    [apply keeps_ret | apply keeps_saveNewLevel].
Qed.

Lemma keeps_createDeeperLevelsFrom (remaining : nat) :
  forall u orig, keeps (UserRoutes.createDeeperLevelsFrom remaining u orig).
Proof.
  induction remaining as [|rem IH]; intros u orig; simpl.
  - apply keeps_ret.
  - apply keeps_bind; [apply keeps_gets|]. intros referrals.
    apply keeps_forEach. intros referral.
    apply keeps_bind; [apply keeps_ensureLevel|]. intros _. apply IH.
Qed.

Lemma grows_setupLevels (w : string) (db : DB) :
  grows db (fst (UserRoutes.setupLevels w db)).
Proof.
  unfold UserRoutes.setupLevels.
  destruct (User.findByWallet _ _); [|apply grows_refl].
  match goal with |- context [bind ?m ?k db] => 
    assert (Hk : keeps (bind m k)); [|destruct (bind m k db) as [db' [x|e]] eqn:H] end.
  - apply keeps_bind.
    + apply keeps_forEach. intros referral. apply keeps_ensureLevel.
    + intros _. apply keeps_forEach. intros referral.
      apply keeps_createDeeperLevelsFrom.
  - simpl. eapply Hk, H.
  - simpl. eapply Hk, H.
Qed.

(** *** The investment route's propagation and the housekeeping *)

Lemma keeps_climb (remaining : nat) :
  forall u a t r, keeps (InvestmentRoutes.climb remaining u a t r).
Proof.
  induction remaining as [|rem IH]; intros u a t r; simpl.
  - apply keeps_ret.
  - apply keeps_bind; [apply keeps_gets|]. intros found.
    apply keeps_bind.
    + destruct found; [|apply keeps_saveNewLevel].
      apply keeps_setLevels_updateFirst. intros row. apply same_addInvestment.
    + intros _. apply keeps_bind; [apply keeps_gets|]. intros [v|]; [|apply keeps_ret].
      destruct (User.referrerAddress v) as [r'|]; [|apply keeps_ret].
      destruct (nonEmpty r'); [apply IH | apply keeps_ret].
Qed.

Lemma keepsH_propagate (u : string) (a : num) :
  keepsH (InvestmentRoutes.updateLevelInvestments u a).
Proof.
  apply keepsH_caught. apply keeps_bind; [apply keeps_gets|]. intros [v|]; [|apply keeps_ret].
  destruct (User.referrerAddress v) as [r'|]; [|apply keeps_ret].
  destruct (nonEmpty r'); [apply keeps_climb | apply keeps_ret].
Qed.

Lemma grows_cleanup (cutoff : N) (db : DB) :
  grows db (SyncService.cleanupInactiveRecords cutoff db).
Proof.
  apply grows_same. simpl. apply updateAll_same. intros row. apply same_deactivate.
Qed.

Lemma grows_perform (db : DB) (op : operation) : grows db (perform db op).
Proof.
  destruct op; simpl.
  - apply keepsH_handleRegistrationEvent.
  - apply keepsH_handleDepositEvent.
  - apply keepsH_handleTransactionEvent.
  - apply grows_setupLevels.
  - apply keepsH_propagate.
  - apply grows_cleanup.
Qed.

Lemma grows_run (ops : list operation) : forall db, grows db (run ops db).
Proof.
  unfold run. induction ops as [|op ops IH]; intros db; simpl.
  - apply grows_refl.
  - eapply grows_trans; [apply grows_perform | apply IH].
Qed.

End BoundedDepth.

(** The chain of a referrer starts at the referrer's own referrer. *)
Lemma uplineFrom_starts_above `{JS : Number} (coll : list User.t)
    (referrer above : string) (user : User.t) (n : nat) :
  User.findByWallet coll referrer = Some user ->
  User.referrerAddress user = Some above ->
  nonEmpty above = true ->
  EventListener.uplineFrom coll referrer (S n)
  = above :: EventListener.uplineFrom coll above n.
Proof. intros Hf Hr Hne. simpl. now rewrite Hf, Hr, Hne. Qed.

(** A user registered under a chain of 26 ancestors gets rows for the
    levels 1 to 21 and no more, and 21 is the highest level in the store. *)
Example long_chain_stops_at_21 :
  List.map Level.level
    (List.filter (fun row => String.eqb (Level.userAddress row) "new")
                 (levels Scenario.longChain)) = seq 1 21
  /\ list_max (List.map Level.level (levels Scenario.longChain)) = 21
  /\ List.length (users Scenario.longChain) = 27.
Proof. vm_compute. repeat split. Qed.

(** C7. Bounded depth. Whatever sequence of registrations, deposits,
    commissions, setup-levels requests, investment propagations and
    housekeeping runs is performed, and from whatever store: the rows that
    were there are kept (each at its place, for the same descendant,
    ancestor and level) and every row created has a level from 1 to 21;
    in particular every row of a store built from the empty one has. *)
Theorem level_bound_invariant `{JS : Number} (ops : list operation) (db : DB) :
  (exists kept created,
     levels (run ops db) = kept ++ created
     /\ Forall2 sameRelationship (levels db) kept
     /\ Forall (fun row => 1 <= Level.level row <= 21) created)
  /\ Forall (fun row => 1 <= Level.level row <= 21) (levels (run ops emptyDB)).
Proof.
  split; [apply grows_run|].
  destruct (grows_run ops emptyDB) as (kept & created & Hl & Hk & Hc).
  simpl in Hk. inversion Hk; subst. rewrite Hl. exact Hc.
Qed.

(** ** The recursive walk *)

Section Walk.
Context `{JS : Number}.

Lemma descends_snoc (ok : User.t -> bool) (coll : list User.t)
    (a : string) (n : nat) (v u : User.t) :
  descends ok coll a n v ->
  In u coll -> ok u = true -> refersTo (toLowerCase (User.walletAddress v)) u = true ->
  descends ok coll a (S n) u.
Proof.
  induction 1 as [a v Hin Hok Href | a d v n Hin Hok Href _ IH]; intros Hu Huok Hur.
  - apply (descends_step ok coll a v u 1); auto. now apply descends_direct.
  - apply (descends_step ok coll a d u (S n)); auto.
Qed.

Lemma below_cons (ok : User.t -> bool) (coll : list User.t)
    (a : string) (d u : User.t) (n : nat) :
  below ok coll u n (User.walletAddress d) ->
  In d coll -> ok d = true -> refersTo (toLowerCase a) d = true ->
  below ok coll u (S n) a.
Proof.
  remember (User.walletAddress d) as w eqn:Hw.
  induction 1 as [u w Hin Hok Href | u v n w Hin Hok Href _ IH];
    intros Hd Hdok Hdr; subst w.
  - apply (below_step ok coll u d 1 a); auto. now apply below_direct.
  - apply (below_step ok coll u v (S n) a); auto.
Qed.

Lemma below_descends (ok : User.t -> bool) (coll : list User.t)
    (a : string) (n : nat) (u : User.t) :
  below ok coll u n a <-> descends ok coll a n u.
Proof.
  split.
  - induction 1; [now apply descends_direct | eapply descends_snoc; eauto].
  - induction 1; [now apply below_direct | eapply below_cons; eauto].
Qed.

Lemma In_findAll {A : Type} (q : A -> bool) (l : list A) (x : A) :
  In x (findAll q l) <-> In x l /\ q x = true.
Proof. unfold findAll. apply List.filter_In. Qed.

Lemma direct_referrals (db : DB) (a : string) (u : User.t) :
  In u (findAll (activeReferralOf (toLowerCase a)) (users db)) <->
  In u (users db) /\ isActiveUser u = true /\ refersTo (toLowerCase a) u = true.
Proof.
  rewrite In_findAll. unfold activeReferralOf, isActiveUser.
  rewrite andb_true_iff. tauto.
Qed.

(** The walk with [remaining] levels left, looking for level [t], returns
    the users [d] active edges below the current referrer, where [d] is
    the number of levels between the current one and [t]. *)
Lemma usersAtLevelFrom_spec {Entry : Type} (entryOf : User.t -> nat -> num -> Entry)
    (db : DB) (t : nat) (e : Entry) (remaining : nat) :
  remaining <= 22 ->
  forall cur : string,
    In e (ReferralRoutes.usersAtLevelFrom entryOf db remaining cur t) <->
    exists d u,
      t + remaining = 21 + d /\ 1 <= d <= remaining
      /\ descends isActiveUser (users db) cur d u
      /\ e = entryOf u t
               (ReferralRoutes.ledgerTotal (investments db) (User.walletAddress u)).
Proof.
  induction remaining as [|rem IH]; intros Hle cur.
  - simpl. split; [intros [] | intros (d & u & _ & ? & _); lia].
  - cbn [ReferralRoutes.usersAtLevelFrom]. cbv zeta.
    destruct (21 - rem =? t) eqn:Hc.
    + apply Nat.eqb_eq in Hc. rewrite List.in_map_iff. split.
      * intros (u & <- & Hu). apply direct_referrals in Hu as (Hin & Hok & Href).
        exists 1, u. repeat split; try lia. now apply descends_direct.
      * intros (d & u & Hd & Hr & Hw & ->).
        assert (d = 1) as -> by lia.
        inversion Hw as [? ? Hin Hok Href | ? ? ? n ? ? ? Hw']; subst;
          [|inversion Hw'].
        exists u. split; [reflexivity|]. apply direct_referrals. auto.
    + apply Nat.eqb_neq in Hc. rewrite List.in_flat_map. split.
      * intros (d0 & Hd0 & Hin).
        apply direct_referrals in Hd0 as (Hd0in & Hd0ok & Hd0ref).
        apply IH in Hin as (d & u & Hd & Hr & Hw & ->); [|lia].
        exists (S d), u. repeat split; try lia.
        eapply descends_step; eauto.
      * intros (d & u & Hd & Hr & Hw & ->).
        inversion Hw as [? ? Hin Hok Href | ? d0 ? n Hin Hok Href Hw']; subst;
          [lia|].
        exists d0. split; [now apply direct_referrals|].
        apply IH; [lia|]. exists n, u. repeat split; auto; lia.
Qed.

Lemma getUsersAtLevel_spec {Entry : Type} (entryOf : User.t -> nat -> num -> Entry)
    (db : DB) (referrer : string) (t : nat) (e : Entry) :
  In e (ReferralRoutes.usersAtLevelFrom entryOf db (22 - 1) referrer t) <->
  1 <= t <= 21
  /\ exists u,
       below isActiveUser (users db) u t referrer
       /\ e = entryOf u t
                (ReferralRoutes.ledgerTotal (investments db) (User.walletAddress u)).
Proof.
  rewrite usersAtLevelFrom_spec by (simpl; lia). simpl. split.
  - intros (d & u & Hd & Hr & Hw & ->). assert (d = t) as -> by lia.
    split; [lia|]. exists u. split; [now apply below_descends | reflexivity].
  - intros (Ht & u & Hb & ->). exists t, u.
    repeat split; try lia. now apply below_descends.
Qed.

End Walk.

(** C5 (as amended). For every directory, ledger, referrer and target
    level, the walk [getUsersAtLevel(referrer, t)] of both routes returns
    the entries of exactly the users from which [t] referral edges lead up
    to the referrer through active users only (the user found included),
    for [t] from 1 to 21, and nothing for any other [t]; each entry
    carries the sum of the amounts of the ledger rows under the user's
    address. The recursion is on the levels left up to 21. *)
Theorem getUsersAtLevel_active_paths `{JS : Number}
    (db : DB) (referrer : string) (t : nat) :
  (forall e,
     In e (ReferralRoutes.TreeDirect.getUsersAtLevel db referrer t 1) <->
     1 <= t <= 21
     /\ exists u,
          below isActiveUser (users db) u t referrer
          /\ e = ReferralRoutes.TreeDirect.entryOf u t
                   (ReferralRoutes.ledgerTotal (investments db) (User.walletAddress u)))
  /\ (forall e,
     In e (ReferralRoutes.StatsDirect.getUsersAtLevel db referrer t 1) <->
     1 <= t <= 21
     /\ exists u,
          below isActiveUser (users db) u t referrer
          /\ e = ReferralRoutes.StatsDirect.entryOf u t
                   (ReferralRoutes.ledgerTotal (investments db) (User.walletAddress u)))
  /\ (forall u x,
        ReferralRoutes.TreeDirect.userAddress (ReferralRoutes.TreeDirect.entryOf u t x)
          = User.walletAddress u
        /\ ReferralRoutes.TreeDirect.totalInvestment (ReferralRoutes.TreeDirect.entryOf u t x) = x
        /\ ReferralRoutes.StatsDirect.userAddress (ReferralRoutes.StatsDirect.entryOf u t x)
          = User.walletAddress u
        /\ ReferralRoutes.StatsDirect.totalInvestment (ReferralRoutes.StatsDirect.entryOf u t x) = x)
  /\ (forall wallet,
        ReferralRoutes.ledgerTotal (investments db) wallet
        = sumOf Investment.amount
            (List.filter (fun i => String.eqb (Investment.userAddress i) wallet)
                         (investments db))).
Proof.
  split; [|split; [|split]].
  - intros e. apply getUsersAtLevel_spec.
  - intros e. apply getUsersAtLevel_spec.
  - intros u x. repeat split.
  - intros wallet. reflexivity.
Qed.

(** C5, counterexample. In the store that Scenario A and the housekeeping
    leave, U2 is one referral edge below U1, yet the walk from U1 for
    level 1 returns nothing: U2 is not active. *)
Lemma getUsersAtLevel_misses_inactive :
  below (fun _ => true) (users Scenario.dormantA)
        (SyncService.setStatus User.inactive Scenario.userU2) 1 Scenario.addrU1
  /\ ReferralRoutes.TreeDirect.getUsersAtLevel Scenario.dormantA Scenario.addrU1 1 1 = []
  /\ ReferralRoutes.StatsDirect.getUsersAtLevel Scenario.dormantA Scenario.addrU1 1 1 = [].
Proof.
  split; [|split; vm_compute; reflexivity].
  apply below_direct; [|reflexivity|vm_compute; reflexivity].
  vm_compute. auto.
Qed.

(** ** Zero-safety of the summaries *)

Section ZeroSafety.
Context `{JS : Number}.



End ZeroSafety.



(** ** The result cache *)

Section CacheFacts.
Context {V : Type}.

Lemma tier_withTier (ct : Cache.cacheType_t) (c : Cache.SimpleCache V)
    (m : Cache.CacheManager V) :
  Cache.tier ct (Cache.withTier ct c m) = c.
Proof. destruct ct; reflexivity. Qed.

Lemma withTier_tier (ct : Cache.cacheType_t) (m : Cache.CacheManager V) :
  Cache.withTier ct (Cache.tier ct m) m = m.
Proof. destruct ct, m; reflexivity. Qed.

(** What a lookup returns, by cases on the entry. *)
Lemma get_cases (key : string) (now : N) (c : Cache.SimpleCache V) :
  (Cache.cache c !! key = None /\ Cache.get key now c = (c, Cache.undefined))
  \/ (exists it, Cache.cache c !! key = Some it /\ (Cache.expiry it < now)%N
      /\ Cache.get key now c
         = (Cache.mkSimpleCache (delete key (Cache.cache c)) (Cache.ttl c),
            Cache.undefined))
  \/ (exists it, Cache.cache c !! key = Some it /\ (now <= Cache.expiry it)%N
      /\ Cache.get key now c = (c, Cache.itemValue it)).
Proof.
  unfold Cache.get. destruct (Cache.cache c !! key) as [it|]; [|left; auto].
  right. destruct (Cache.expiry it <? now)%N eqn:H.
  - left. exists it. apply N.ltb_lt in H. auto.
  - right. exists it. apply N.ltb_ge in H. auto.
Qed.

Lemma get_set (key : string) (v : Cache.jsval V) (ttl : option N) (t now : N)
    (c : Cache.SimpleCache V) :
  (now <= t + Cache.ttlOr ttl (Cache.ttl c))%N ->
  Cache.get key now (Cache.set key v ttl t c) = (Cache.set key v ttl t c, v).
Proof.
  intros H. unfold Cache.get, Cache.set. simpl. rewrite lookup_insert_eq. simpl.
  apply N.ltb_ge in H. now rewrite H.
Qed.

(** A lookup that returns a value leaves the manager as it was. *)
Lemma managerGet_hit (ct : Cache.cacheType_t) (key : string) (now : N)
    (m : Cache.CacheManager V) (v : V) :
  snd (Cache.managerGet ct key now m) = Cache.value v ->
  Cache.managerGet ct key now m = (m, Cache.value v)
  /\ exists it,
       Cache.cache (Cache.tier ct m) !! key = Some it
       /\ Cache.itemValue it = Cache.value v /\ (now <= Cache.expiry it)%N.
Proof.
  unfold Cache.managerGet.
  destruct (get_cases key now (Cache.tier ct m))
    as [(_ & ->) | [(it & _ & _ & ->) | (it & Hit & Hexp & ->)]]; simpl;
    try discriminate.
  intros Hv. rewrite withTier_tier, Hv. split; [reflexivity|]. eauto.
Qed.

End CacheFacts.

(** C9 (as amended). The cache memoizes: (1) a result stored under a key
    comes back verbatim from every lookup up to its expiry; (2) a lookup
    returns [undefined] exactly when the key has no entry, or its entry is
    past its expiry, or holds [undefined]; (3) on such a miss [cached]
    runs the function and, when it returns, stores its result under the
    key and returns it; (4) on a hit [cached] returns the stored value and
    nothing else, whatever the function, and leaves the cache as it was;
    (5) the stats-direct route answers a hit with the stored result, the
    flag [cached: true] and the time, and (6) a miss for a known user with
    the aggregation's result, which it stores. The flag is the route's:
    neither [get] nor [cached] adds one. *)
Theorem cache_memoizes :
  (forall (V : Type) (key : string) (v : Cache.jsval V) (ttl : option N)
          (t now : N) (c : Cache.SimpleCache V),
     (now <= t + Cache.ttlOr ttl (Cache.ttl c))%N ->
     Cache.get key now (Cache.set key v ttl t c) = (Cache.set key v ttl t c, v))
  /\ (forall (V : Type) (key : string) (now : N) (c : Cache.SimpleCache V),
     snd (Cache.get key now c) = Cache.undefined <->
     Cache.cache c !! key = None
     \/ exists it, Cache.cache c !! key = Some it
          /\ ((Cache.expiry it < now)%N \/ Cache.itemValue it = Cache.undefined))
  /\ (forall (V : Type) (ct : Cache.cacheType_t) (key : string)
          (f : unit -> outcome (Cache.jsval V)) (ttl : option N) (tGet tSet : N)
          (m : Cache.CacheManager V) (result : Cache.jsval V),
     snd (Cache.managerGet ct key tGet m) = Cache.undefined ->
     f tt = Ok result ->
     snd (Cache.cached key f ttl ct tGet tSet m) = Ok result
     /\ Cache.cache (Cache.tier ct (fst (Cache.cached key f ttl ct tGet tSet m))) !! key
        = Some (Cache.mkItem result
                  (tSet + Cache.ttlOr ttl (Cache.ttl (Cache.tier ct m)))%N))
  /\ (forall (V : Type) (ct : Cache.cacheType_t) (key : string)
          (f : unit -> outcome (Cache.jsval V)) (ttl : option N) (tGet tSet : N)
          (m : Cache.CacheManager V) (v : V),
     snd (Cache.managerGet ct key tGet m) = Cache.value v ->
     Cache.cached key f ttl ct tGet tSet m = (m, Ok (Cache.value v))
     /\ exists it, Cache.cache (Cache.tier ct m) !! key = Some it
          /\ Cache.itemValue it = Cache.value v)
  /\ (forall (JS : Number) (walletAddress : string) (tGet tSet : N) (db : DB)
          (cm : Cache.CacheManager ReferralRoutes.StatsDirect.result)
          (r : ReferralRoutes.StatsDirect.result),
     snd (Cache.managerGet Cache.defaultType
            (Cache.generateKey "referral_stats" [toLowerCase walletAddress]) tGet cm)
       = Cache.value r ->
     ReferralRoutes.StatsDirect.statsDirect walletAddress tGet tSet db cm
       = (cm, ReferralRoutes.StatsDirect.Json r (Some tGet)))
  /\ (forall (JS : Number) (walletAddress : string) (tGet tSet : N) (db : DB)
          (cm : Cache.CacheManager ReferralRoutes.StatsDirect.result) (user : User.t),
     snd (Cache.managerGet Cache.defaultType
            (Cache.generateKey "referral_stats" [toLowerCase walletAddress]) tGet cm)
       = Cache.undefined ->
     User.findByWallet (users db) walletAddress = Some user ->
     let r := ReferralRoutes.StatsDirect.compute db walletAddress tSet in
     let out := ReferralRoutes.StatsDirect.statsDirect walletAddress tGet tSet db cm in
     snd out = ReferralRoutes.StatsDirect.Json r None
     /\ Cache.cache (Cache.defaultCache (fst out))
          !! Cache.generateKey "referral_stats" [toLowerCase walletAddress]
        = Some (Cache.mkItem (Cache.value r) (tSet + 300)%N)).
Proof.
  split; [|split; [|split; [|split; [|split]]]].
  - intros V. apply get_set.
  - intros V key now c.
    destruct (get_cases key now c)
      as [(Hn & ->) | [(it & Hit & Hexp & ->) | (it & Hit & Hexp & ->)]]; simpl.
    + split; auto.
    + split; eauto.
    + split.
      * intros Hv. right. eauto.
      * intros [Hn | (it' & Hit' & [Hlt | Hv])]; [congruence | | congruence].
        rewrite Hit in Hit'. injection Hit' as <-. lia.
  - intros V ct key f ttl tGet tSet m result Hmiss Hf.
    unfold Cache.cached.
    destruct (Cache.managerGet ct key tGet m) as [m1 cv] eqn:Hget.
    simpl in Hmiss. subst cv. rewrite Hf. simpl. split; [reflexivity|].
    unfold Cache.managerSet. rewrite tier_withTier.
    unfold Cache.set. simpl. rewrite lookup_insert_eq.
    assert (Httl : Cache.ttl (Cache.tier ct m1) = Cache.ttl (Cache.tier ct m)).
    { revert Hget. unfold Cache.managerGet.
      destruct (Cache.get key tGet (Cache.tier ct m)) as [c1 v1] eqn:Hg.
      intros [= <- _]. rewrite tier_withTier.
      revert Hg. unfold Cache.get.
      destruct (Cache.cache (Cache.tier ct m) !! key) as [it|];
        [destruct (Cache.expiry it <? tGet)%N|]; now intros [= <- _]. }
    now rewrite Httl.
  - intros V ct key f ttl tGet tSet m v Hhit.
    destruct (managerGet_hit ct key tGet m v Hhit) as (Hget & it & Hit & Hv & _).
    unfold Cache.cached. rewrite Hget. split; [reflexivity | eauto].
  - intros JS walletAddress tGet tSet db cm r Hhit.
    destruct (managerGet_hit _ _ _ _ _ Hhit) as (Hget & _).
    unfold ReferralRoutes.StatsDirect.statsDirect. now rewrite Hget.
  - intros JS walletAddress tGet tSet db cm user Hmiss Hfind. cbv zeta.
    unfold ReferralRoutes.StatsDirect.statsDirect.
    destruct (Cache.managerGet _ _ tGet cm) as [cm1 cv] eqn:Hget.
    simpl in Hmiss. subst cv. rewrite Hfind. simpl. split; [reflexivity|].
    unfold Cache.set. simpl. now rewrite lookup_insert_eq.
Qed.

(** C9, counterexample. [cached] on a hit and on a miss (with an
    aggregation that returns the stored value) return the very same thing:
    nothing in what the cache returns says that it came from the cache. *)
Lemma cached_hit_carries_no_flag :
  snd (Cache.managerGet Cache.defaultType "k" 10%N Scenario.hitManager) = Cache.value 7
  /\ snd (Cache.managerGet Cache.defaultType "k" 10%N
            (@Cache.newCacheManager nat)) = Cache.undefined
  /\ snd (Cache.cached "k" Scenario.seven None Cache.defaultType 10%N 10%N
            Scenario.hitManager) = Ok (Cache.value 7)
  /\ snd (Cache.cached "k" Scenario.seven None Cache.defaultType 10%N 10%N
            Cache.newCacheManager) = Ok (Cache.value 7).
Proof. vm_compute. repeat split. Qed.

(** C9, witness: a hit and a miss of [cached] on the key ["k"], and the
    stats-direct route asked twice for R within the entry's life. *)
Lemma cache_memoizes_witness :
  (snd (Cache.managerGet Cache.defaultType "k" 10%N Scenario.hitManager) = Cache.value 7
   /\ Cache.cached "k" Scenario.seven None Cache.defaultType 10%N 10%N Scenario.hitManager
      = (Scenario.hitManager, Ok (Cache.value 7)))
  /\ (snd (Cache.managerGet Cache.defaultType "k" 10%N (@Cache.newCacheManager nat))
      = Cache.undefined
      /\ Scenario.seven tt = Ok (Cache.value 7)
      /\ snd (Cache.cached "k" Scenario.seven None Cache.defaultType 10%N 10%N
                Cache.newCacheManager) = Ok (Cache.value 7))
  /\ (snd (Cache.managerGet Cache.defaultType
             (Cache.generateKey "referral_stats" [toLowerCase Scenario.addrR]) 200%N
             (fst Scenario.statsFirst))
      = Cache.value (ReferralRoutes.StatsDirect.compute Scenario.storeA Scenario.addrR 100%N)
      /\ ReferralRoutes.StatsDirect.statsDirect Scenario.addrR 200%N 200%N
           Scenario.storeA (fst Scenario.statsFirst)
         = (fst Scenario.statsFirst,
            ReferralRoutes.StatsDirect.Json
              (ReferralRoutes.StatsDirect.compute Scenario.storeA Scenario.addrR 100%N)
              (Some 200%N))).
Proof.
  destruct cache_memoizes as (_ & _ & Hmiss & Hhit & Hroute & _).
  split; [|split].
  - assert (H : snd (Cache.managerGet Cache.defaultType "k" 10%N Scenario.hitManager)
                = Cache.value 7) by (vm_compute; reflexivity).
    split; [exact H|].
    exact (proj1 (Hhit nat Cache.defaultType "k" Scenario.seven None 10%N 10%N
                    Scenario.hitManager 7 H)).
  - assert (H : snd (Cache.managerGet Cache.defaultType "k" 10%N
                       (@Cache.newCacheManager nat)) = Cache.undefined)
      by (vm_compute; reflexivity).
    split; [exact H|]. split; [reflexivity|].
    exact (proj1 (Hmiss nat Cache.defaultType "k" Scenario.seven None 10%N 10%N
                    Cache.newCacheManager (Cache.value 7) H eq_refl)).
  - assert (H : snd (Cache.managerGet Cache.defaultType
             (Cache.generateKey "referral_stats" [toLowerCase Scenario.addrR]) 200%N
             (fst Scenario.statsFirst))
      = Cache.value (ReferralRoutes.StatsDirect.compute Scenario.storeA Scenario.addrR 100%N))
      by (vm_compute; reflexivity).
    split; [exact H|].
    exact (Hroute ZNumber Scenario.addrR 200%N 200%N Scenario.storeA
             (fst Scenario.statsFirst) _ H).
Defined.


(** ** Replayed deposits *)

Section Replay.
Context `{JS : Number}.

Lemma findByWallet_app_new (coll : list User.t) (u : string) (now : N) :
  User.findByWallet coll u = None ->
  User.findByWallet (coll ++ [User.create (toLowerCase u) None now]) u
  = Some (User.create (toLowerCase u) None now).
Proof.
  unfold User.findByWallet. intros H. rewrite findOne_app, H.
  unfold findOne. simpl. now rewrite toLowerCase_idem, String.eqb_refl.
Qed.

Lemma txExists_app (coll : list Investment.t) (i : Investment.t) :
  Investment.txExists (coll ++ [i]) (Investment.txHash i) = true.
Proof.
  unfold Investment.txExists. rewrite existsb_app. simpl.
  now rewrite String.eqb_refl, orb_true_r.
Qed.

(** The handler when the depositor is known and the transaction is
    already in the ledger: the deposit is pushed, then the ledger refuses
    the duplicate. *)
Lemma handleDepositEvent_duplicate (u : string) (amt : num) (token : bool) (blk : nat)
    (tx : string) (now : N) (db : DB) (user : User.t) :
  User.findByWallet (users db) u = Some user ->
  nonEmpty tx = true ->
  Investment.validate
    (Investment.create (toLowerCase u) amt tx blk
       (if token then Investment.USDT else Investment.BDC) now) = true ->
  Investment.txExists (investments db) tx = true ->
  EventListener.handleDepositEvent u amt token blk tx now db
  = (mkDB (updateFirst
             (fun v => String.eqb (User.walletAddress v) (toLowerCase u))
             (User.pushDeposit (User.mkDeposit amt tx blk now)) (users db))
          (levels db) (investments db),
     Some DuplicateKeyError).
Proof.
  intros Hfind Htx Hval Hdup.
  unfold EventListener.handleDepositEvent, caught, bind, gets, call, ret.
  rewrite Hfind. unfold addDeposit. rewrite Htx. simpl.
  unfold saveNewInvestment. rewrite Hval. simpl.
  unfold bind, gets. simpl. now rewrite Hdup.
Qed.

(** What a delivery that logs nothing has done. *)
Lemma handleDepositEvent_ok (u : string) (amt : num) (token : bool) (blk : nat)
    (tx : string) (now : N) (db : DB) :
  snd (EventListener.handleDepositEvent u amt token blk tx now db) = None ->
  let inv := Investment.create (toLowerCase u) amt tx blk
               (if token then Investment.USDT else Investment.BDC) now in
  exists users0 user,
    User.findByWallet users0 u = Some user
    /\ nonEmpty tx = true
    /\ Investment.validate inv = true
    /\ fst (EventListener.handleDepositEvent u amt token blk tx now db)
       = mkDB (updateFirst
                 (fun v => String.eqb (User.walletAddress v) (toLowerCase u))
                 (User.pushDeposit (User.mkDeposit amt tx blk now)) users0)
              (levels (fst (EventListener.updateLevelInvestments u amt db)))
              (investments db ++ [inv]).
Proof.
  cbv zeta.
  unfold EventListener.handleDepositEvent, caught, bind, gets, call, ret.
  destruct (User.findByWallet (users db) u) as [user|] eqn:Hfind.
  - unfold addDeposit. destruct (nonEmpty tx) eqn:Htx; simpl; [|discriminate].
    unfold saveNewInvestment.
    destruct (Investment.validate _) eqn:Hval; simpl; [|discriminate].
    unfold bind, gets. simpl.
    destruct (Investment.txExists _ _); simpl; [discriminate|].
    intros _. exists (users db), user. repeat split; auto.
  - unfold saveNewUser.
    destruct (negb _) eqn:Hne; simpl; [discriminate|].
    unfold bind, gets. simpl.
    destruct (existsb _ _); simpl; [discriminate|].
    unfold addDeposit. destruct (nonEmpty tx) eqn:Htx; simpl; [|discriminate].
    unfold saveNewInvestment.
    destruct (Investment.validate _) eqn:Hval; simpl; [|discriminate].
    unfold bind, gets. simpl.
    destruct (Investment.txExists _ _); simpl; [discriminate|].
    intros _.
    exists (users db ++ [User.create (toLowerCase u) None now]),
           (User.create (toLowerCase u) None now).
    split; [now apply findByWallet_app_new|].
    repeat split; auto.
Qed.

End Replay.

(** C2. A deposit event that was processed without error and is delivered
    a second time (at whatever later time): the ledger and every
    relationship row are left as the first delivery left them and the
    duplicate-key error of the ledger's unique index is logged, but the
    depositor, who holds the first delivery's deposit, has been given the
    same deposit once more. *)
Theorem deposit_replay_extends_deposits `{JS : Number}
    (userAddress : string) (amount : num) (token : bool) (blockNumber : nat)
    (txHash : string) (now now' : N) (db : DB) :
  snd (EventListener.handleDepositEvent userAddress amount token blockNumber
         txHash now db) = None ->
  let db1 := fst (EventListener.handleDepositEvent userAddress amount token
                    blockNumber txHash now db) in
  let db2 := fst (EventListener.handleDepositEvent userAddress amount token
                    blockNumber txHash now' db1) in
  snd (EventListener.handleDepositEvent userAddress amount token blockNumber
         txHash now' db1) = Some DuplicateKeyError
  /\ investments db2 = investments db1
  /\ levels db2 = levels db1
  /\ exists user,
       User.findByWallet (users db1) userAddress = Some user
       /\ In (User.mkDeposit amount txHash blockNumber now) (User.deposits user)
       /\ User.findByWallet (users db2) userAddress
          = Some (User.pushDeposit
                    (User.mkDeposit amount txHash blockNumber now') user)
       /\ List.length (User.deposits
            (User.pushDeposit (User.mkDeposit amount txHash blockNumber now') user))
          = S (List.length (User.deposits user)).
Proof.
  intros Hok. cbv zeta.
  destruct (handleDepositEvent_ok _ _ _ _ _ _ _ Hok)
    as (users0 & user & Hfind & Htx & Hval & Hdb1).
  set (q := fun v => String.eqb (User.walletAddress v) (toLowerCase userAddress)) in *.
  assert (Hq : q user = true) by (now destruct (findOne_Some _ _ _ Hfind)).
  assert (Hfind1 : User.findByWallet
            (users (fst (EventListener.handleDepositEvent userAddress amount token
                           blockNumber txHash now db))) userAddress
          = Some (User.pushDeposit (User.mkDeposit amount txHash blockNumber now) user)).
  { rewrite Hdb1. simpl. unfold User.findByWallet. fold q.
    now apply findOne_updateFirst. }
  assert (Hdup : Investment.txExists
            (investments (fst (EventListener.handleDepositEvent userAddress amount token
                                 blockNumber txHash now db))) txHash = true).
  { rewrite Hdb1.
    apply (txExists_app (investments db)
             (Investment.create (toLowerCase userAddress) amount txHash blockNumber
                (if token then Investment.USDT else Investment.BDC) now)). }
  clear Hdb1.
  set (db1 := fst (EventListener.handleDepositEvent userAddress amount token
                     blockNumber txHash now db)) in *.
  pose proof (handleDepositEvent_duplicate userAddress amount token blockNumber
                txHash now' db1 _ Hfind1 Htx Hval Hdup) as Hsecond.
  rewrite Hsecond. cbn [fst snd users levels investments].
  split; [reflexivity|]. split; [reflexivity|]. split; [reflexivity|].
  exists (User.pushDeposit (User.mkDeposit amount txHash blockNumber now) user).
  split; [exact Hfind1|]. split; [|split].
  - cbn [User.pushDeposit User.deposits]. apply in_or_app. right. now left.
  - unfold User.findByWallet in *. fold q in Hfind1 |- *.
    now apply findOne_updateFirst.
  - cbn [User.pushDeposit User.deposits]. rewrite !length_app. simpl. lia.
Qed.

(** C2, witness: U2 of Scenario A deposits 100 and the event is delivered
    again. *)
Lemma deposit_replay_extends_deposits_witness :
  snd Scenario.firstDeposit = None
  /\ snd Scenario.replayedDeposit = Some DuplicateKeyError
  /\ investments (fst Scenario.replayedDeposit) = investments (fst Scenario.firstDeposit)
  /\ levels (fst Scenario.replayedDeposit) = levels (fst Scenario.firstDeposit).
Proof.
  split; [reflexivity|].
  destruct (deposit_replay_extends_deposits (JS := ZNumber) Scenario.addrU2 100%Z false 77 Scenario.txA
              4000%N 5000%N Scenario.storeA eq_refl) as (H1 & H2 & H3 & _).
  exact (conj H1 (conj H2 H3)).
Defined.

(** * Further properties *)

(** ** The upline chain *)

Section UplineChain.
Context `{JS : Number}.

Lemma uplineFrom_hops (coll : list User.t) (n : nat) :
  forall a, hops coll a (EventListener.uplineFrom coll a n).
Proof.
  induction n as [|n IH]; intros a; simpl; [constructor|].
  destruct (User.findByWallet coll a) as [user|] eqn:Hf; [|constructor].
  destruct (User.referrerAddress user) as [r|] eqn:Hr; [|constructor].
  destruct (nonEmpty r) eqn:Hne; [|constructor].
  econstructor; eauto.
Qed.

Lemma last_cons_default {A : Type} (x : A) (xs : list A) (d d' : A) :
  List.last (x :: xs) d = List.last (x :: xs) d'.
Proof.
  revert x. induction xs as [|y ys IH]; intros x; [reflexivity|].
  change (List.last (y :: ys) d = List.last (y :: ys) d'). apply IH.
Qed.

Lemma uplineFrom_stops (coll : list User.t) (n : nat) :
  forall a,
    List.length (EventListener.uplineFrom coll a n) < n ->
    topOfChain coll (List.last (EventListener.uplineFrom coll a n) a).
Proof.
  induction n as [|n IH]; intros a; [simpl; lia|].
  cbn [EventListener.uplineFrom].
  destruct (User.findByWallet coll a) as [user|] eqn:Hf;
    [|intros _; simpl; unfold topOfChain; now rewrite Hf].
  destruct (User.referrerAddress user) as [r|] eqn:Hr;
    [|intros _; simpl; unfold topOfChain; now rewrite Hf, Hr].
  destruct (nonEmpty r) eqn:Hne;
    [|intros _; simpl; unfold topOfChain; now rewrite Hf, Hr].
  intros Hlen. simpl in Hlen.
  specialize (IH r ltac:(lia)).
  destruct (EventListener.uplineFrom coll r n) as [|x xs] eqn:Hc; [exact IH|].
  change (topOfChain coll (List.last (x :: xs) a)).
  now rewrite (last_cons_default x xs a r).
Qed.

End UplineChain.

(** X1. [getUplineChain(address, maxLevels)] never writes and returns a
    chain of at most [maxLevels] addresses, none of them empty, in which
    each address is the stored referrer of the user registered under the
    one before (the first of the user under [address]); a chain shorter
    than [maxLevels] ends where the directory does: at an unknown address
    or at a user without a referrer. *)
Theorem getUplineChain_chain `{JS : Number}
    (address : string) (maxLevels : nat) (db : DB) :
  exists chain,
    EventListener.getUplineChain (Some address) maxLevels db = (db, Ok chain)
    /\ List.length chain <= maxLevels
    /\ hops (users db) address chain
    /\ Forall (fun a => nonEmpty a = true) chain
    /\ (List.length chain < maxLevels ->
        topOfChain (users db) (List.last chain address)).
Proof.
  exists (EventListener.uplineFrom (users db) (toLowerCase address) maxLevels).
  rewrite getUplineChain_run.
  assert (Hhops : forall a chain, hops (users db) (toLowerCase a) chain ->
                                  hops (users db) a chain).
  { intros a chain H. inversion H as [|? r user rest Hf Hr Hne Hrest]; subst;
      [constructor|].
    econstructor; eauto. unfold User.findByWallet in *.
    now rewrite toLowerCase_idem in Hf. }
  assert (Htop : forall a, topOfChain (users db) (toLowerCase a) ->
                           topOfChain (users db) a).
  { intros a. unfold topOfChain, User.findByWallet.
    now rewrite toLowerCase_idem. }
  repeat split.
  - apply uplineFrom_length.
  - apply Hhops, uplineFrom_hops.
  - generalize (uplineFrom_hops (users db) maxLevels (toLowerCase address)).
    generalize (EventListener.uplineFrom (users db) (toLowerCase address) maxLevels).
    generalize (toLowerCase address).
    intros a chain H. induction H; constructor; auto.
  - intros Hlen.
    pose proof (uplineFrom_stops (users db) maxLevels (toLowerCase address) Hlen) as H.
    destruct (EventListener.uplineFrom (users db) (toLowerCase address) maxLevels)
      as [|x xs] eqn:Hc.
    + simpl in *. now apply Htop.
    + now rewrite (last_cons_default x xs address (toLowerCase address)).
Qed.

(** ** Stores without duplicate keys *)

Section Preserved.
Context `{JS : Number}.
Variable P : DB -> Prop.

Lemma preserves_ret {A : Type} (a : A) : preserves P (ret a).
Proof. now intros db db' o [= <- _]. Qed.

Lemma preserves_throw {A : Type} (e : error) : preserves P (@throw _ A e).
Proof. now intros db db' o [= <- _]. Qed.

Lemma preserves_gets {A : Type} (f : DB -> A) : preserves P (gets f).
Proof. now intros db db' o [= <- _]. Qed.

Lemma preserves_bind {A B : Type} (m : M A) (k : A -> M B) :
  preserves P m -> (forall a, preserves P (k a)) -> preserves P (bind m k).
Proof.
  intros Hm Hk db db' o. unfold bind.
  destruct (m db) as [db1 [a|e]] eqn:H1.
  - intros H2 Hdb. eapply Hk; [exact H2|]. eapply Hm; eauto.
  - intros [= <- _] Hdb. eapply Hm; eauto.
Qed.

Lemma preserves_forEach {A : Type} (l : list A) (body : A -> M unit) :
  (forall x, preserves P (body x)) -> preserves P (forEach l body).
Proof.
  intros Hb. induction l as [|x l IH]; simpl.
  - apply preserves_ret.
  - apply preserves_bind; [apply Hb | intros _; exact IH].
Qed.

Lemma preservesH_caught (m : M unit) : preserves P m -> preservesH P (caught m).
Proof.
  intros Hm db Hdb. unfold caught.
  destruct (m db) as [db' [a|e]] eqn:H; simpl; eapply Hm; eauto.
Qed.

Lemma preserves_call (h : Handler) : preservesH P h -> preserves P (call h).
Proof. intros Hh db db' o [= <- _]. apply Hh. Qed.

Lemma preserves_lowerOf (x : option string) : preserves P (lowerOf x).
Proof. destruct x; [apply preserves_ret | apply preserves_throw]. Qed.

End Preserved.

Section UniqueKeys.
Context `{JS : Number}.

Lemma NoDup_snoc {A : Type} (l : list A) (x : A) :
  NoDup l -> ~ In x l -> NoDup (l ++ [x]).
Proof.
  intros Hl Hx. apply NoDup_app. split; [exact Hl|]. split.
  - intros y Hy Hs. apply list_elem_of_singleton in Hs. subst y.
    apply Hx. now apply list_elem_of_In.
  - apply NoDup_singleton.
Qed.

Lemma hasKey_keyOf (u a : string) (lvl : nat) (row : Level.t) :
  Level.hasKey u a lvl row = true <-> keyOf row = (u, a, lvl).
Proof.
  unfold Level.hasKey, keyOf. rewrite !andb_true_iff.
  rewrite !String.eqb_eq, Nat.eqb_eq. split.
  - intros [[H1 H2] H3]. now rewrite H1, H2, H3.
  - intros [= H1 H2 H3]. auto.
Qed.

Lemma findOne_None_keyOf (u a : string) (lvl : nat) (l : list Level.t) :
  findOne (Level.hasKey u a lvl) l = None -> ~ In (u, a, lvl) (List.map keyOf l).
Proof.
  intros Hnone Hin. apply List.in_map_iff in Hin as (row & Hk & Hrow).
  apply hasKey_keyOf in Hk.
  now rewrite (findOne_None _ _ Hnone row Hrow) in Hk.
Qed.

Lemma unique_setUsers (f : list User.t -> list User.t) :
  preserves uniqueKeys (setUsers f).
Proof. now intros db db' o [= <- _]. Qed.

Lemma unique_setInvestments (f : list Investment.t -> list Investment.t) :
  preserves uniqueKeys (setInvestments f).
Proof. now intros db db' o [= <- _]. Qed.

Lemma keyOf_updateFirst (q : Level.t -> bool) (f : Level.t -> Level.t) (l : list Level.t) :
  (forall row, keyOf (f row) = keyOf row) ->
  List.map keyOf (updateFirst q f l) = List.map keyOf l.
Proof.
  intros Hf. induction l as [|x l IH]; simpl; [reflexivity|].
  destruct (q x); simpl; [now rewrite Hf | now rewrite IH].
Qed.

Lemma keyOf_updateAll (q : Level.t -> bool) (f : Level.t -> Level.t) (l : list Level.t) :
  (forall row, keyOf (f row) = keyOf row) ->
  List.map keyOf (updateAll q f l) = List.map keyOf l.
Proof.
  intros Hf. unfold updateAll. induction l as [|x l IH]; simpl; [reflexivity|].
  rewrite IH. destruct (q x); [now rewrite Hf | reflexivity].
Qed.

Lemma unique_updateFirst (q : Level.t -> bool) (f : Level.t -> Level.t) :
  (forall row, keyOf (f row) = keyOf row) ->
  preserves uniqueKeys (setLevels (updateFirst q f)).
Proof.
  intros Hf db db' o [= <- _]. unfold uniqueKeys. simpl.
  now rewrite keyOf_updateFirst.
Qed.

Lemma unique_updateAll (q : Level.t -> bool) (f : Level.t -> Level.t) :
  (forall row, keyOf (f row) = keyOf row) ->
  preserves uniqueKeys (setLevels (updateAll q f)).
Proof.
  intros Hf db db' o [= <- _]. unfold uniqueKeys. simpl.
  now rewrite keyOf_updateAll.
Qed.

(** The listener looks the key up before it inserts it. *)
Lemma unique_createRelation (u : string) (now : N) (i : nat) (a : string) :
  preserves uniqueKeys (EventListener.createRelation u now i a).
Proof.
  intros db db' o. rewrite createRelation_run. cbv zeta.
  destruct (findOne _ (levels db)) eqn:Hf; [now intros [= <- _]|].
  destruct (Level.validate _); [|now intros [= <- _]].
  intros [= <- _] Hu. unfold uniqueKeys in *. simpl.
  rewrite List.map_app. simpl. apply NoDup_snoc; [exact Hu|].
  unfold keyOf at 1. simpl. rewrite !toLowerCase_idem.
  now apply findOne_None_keyOf.
Qed.

Lemma unique_createFrom (u : string) (now : N) (chain : list string) (i : nat) :
  preserves uniqueKeys (EventListener.createFrom u now chain i).
Proof.
  revert i. induction chain as [|a rest IH]; intros i; simpl.
  - apply preserves_ret.
  - destruct (i <? 21); [|apply preserves_ret].
    apply preserves_bind; [apply unique_createRelation | intros _; apply IH].
Qed.

Lemma unique_createLevelRelationships (u : string) (r : option string) (now : N) :
  preservesH uniqueKeys (EventListener.createLevelRelationships u r now).
Proof.
  apply preservesH_caught, preserves_bind.
  - unfold EventListener.getUplineChain.
    apply preserves_bind; [apply preserves_lowerOf|]. intros a.
    apply preserves_bind; [apply preserves_gets|]. intros coll. apply preserves_ret.
  - intros chain. apply unique_createFrom.
Qed.

Lemma unique_saveNewUser (u : User.t) : preserves uniqueKeys (saveNewUser u).
Proof.
  unfold saveNewUser. destruct (negb _); [apply preserves_throw|].
  apply preserves_bind; [apply preserves_gets|]. intros coll.
  destruct (existsb _ _); [apply preserves_throw | apply unique_setUsers].
Qed.

Lemma unique_saveNewInvestment (i : Investment.t) :
  preserves uniqueKeys (saveNewInvestment i).
Proof.
  unfold saveNewInvestment. destruct (negb _); [apply preserves_throw|].
  apply preserves_bind; [apply preserves_gets|]. intros coll.
  destruct (Investment.txExists _ _); [apply preserves_throw | apply unique_setInvestments].
Qed.

Lemma unique_handleRegistrationEvent (u : string) (r : option string) (now : N) :
  preservesH uniqueKeys (EventListener.handleRegistrationEvent u r now).
Proof.
  unfold EventListener.handleRegistrationEvent. apply preservesH_caught.
  apply preserves_bind; [apply preserves_gets|]. intros user.
  apply preserves_bind.
  - destruct user; (apply preserves_bind; [apply preserves_lowerOf|]); intros x;
      [apply unique_setUsers | apply unique_saveNewUser].
  - intros _. apply preserves_call, unique_createLevelRelationships.
Qed.

Lemma unique_updateLevelInvestments (u : string) (a : num) :
  preservesH uniqueKeys (EventListener.updateLevelInvestments u a).
Proof.
  unfold EventListener.updateLevelInvestments.
  apply preservesH_caught, unique_updateAll. reflexivity.
Qed.

Lemma unique_updateLevelEarnings (u from : string) (a : num) (lvl : nat) :
  preservesH uniqueKeys (EventListener.updateLevelEarnings u from a lvl).
Proof.
  unfold EventListener.updateLevelEarnings.
  apply preservesH_caught, unique_updateFirst. reflexivity.
Qed.

Lemma unique_handleDepositEvent (u : string) (a : num) (token : bool) (blk : nat)
    (tx : string) (now : N) :
  preservesH uniqueKeys (EventListener.handleDepositEvent u a token blk tx now).
Proof.
  unfold EventListener.handleDepositEvent. apply preservesH_caught.
  apply preserves_bind; [apply preserves_gets|]. intros user.
  apply preserves_bind;
    [destruct user; [apply preserves_ret | apply unique_saveNewUser]|].
  intros _. apply preserves_bind.
  { unfold addDeposit. destruct (negb _);
      [apply preserves_throw | apply unique_setUsers]. }
  intros _. apply preserves_bind; [apply unique_saveNewInvestment|].
  intros _. apply preserves_call, unique_updateLevelInvestments.
Qed.

Lemma unique_handleTransactionEvent (u from : string) (v : num) (lvl : nat) :
  preservesH uniqueKeys (EventListener.handleTransactionEvent u from v lvl).
Proof.
  unfold EventListener.handleTransactionEvent.
  apply preservesH_caught, preserves_call, unique_updateLevelEarnings.
Qed.

Lemma unique_cleanup (cutoff : N) (db : DB) :
  uniqueKeys db -> uniqueKeys (SyncService.cleanupInactiveRecords cutoff db).
Proof.
  unfold uniqueKeys. simpl. intros H. now rewrite keyOf_updateAll.
Qed.

Lemma unique_perform (db : DB) (op : operation) :
  fromListener op = true -> uniqueKeys db -> uniqueKeys (perform db op).
Proof.
  destruct op as [u r now | u a token blk tx now | u from v lvl | w | u a | now];
    simpl; try discriminate; intros _.
  - apply unique_handleRegistrationEvent.
  - apply unique_handleDepositEvent.
  - apply unique_handleTransactionEvent.
  - apply unique_cleanup.
Qed.

End UniqueKeys.

(** X2. Uniqueness of relationship rows. Under every sequence of
    registration, deposit and commission events of the listener and of
    housekeeping runs, a store in which no two rows share their
    (descendant, ancestor, level) key stays such a store: the listener
    looks a key up before it inserts it, and nothing else touches a key. *)
Theorem listener_keeps_keys_unique `{JS : Number} (ops : list operation) (db : DB) :
  forallb fromListener ops = true ->
  uniqueKeys db ->
  uniqueKeys (run ops db).
Proof.
  unfold run. revert db. induction ops as [|op ops IH]; intros db; simpl; [auto|].
  intros Hops Hdb. apply andb_prop in Hops as [Hop Hops].
  apply IH; [exact Hops|]. now apply unique_perform.
Qed.

(** X2, witness: Scenario A, a deposit delivered twice, a commission,
    housekeeping and a second registration of U2, from the empty store. *)
Lemma listener_keeps_keys_unique_witness :
  forallb fromListener ListenerCases.history = true
  /\ uniqueKeys (@emptyDB ZNumber)
  /\ uniqueKeys (run ListenerCases.history emptyDB).
Proof.
  assert (H0 : uniqueKeys (@emptyDB ZNumber)) by constructor.
  split; [reflexivity|]. split; [exact H0|].
  exact (listener_keeps_keys_unique ListenerCases.history emptyDB eq_refl H0).
Defined.

(** ** Registrations and deposits recorded *)

Section Recorded.
Context `{JS : Number}.

Lemma findByWallet_None_existsb (coll : list User.t) (u : string) :
  User.findByWallet coll u = None ->
  existsb (fun v => String.eqb (User.walletAddress v) (toLowerCase u)) coll = false.
Proof.
  unfold User.findByWallet, findOne.
  induction coll as [|x coll IH]; simpl; [reflexivity|].
  destruct (String.eqb _ _); [discriminate | exact IH].
Qed.

Lemma sumOf_snoc {A : Type} (f : A -> num) (l : list A) (x : A) :
  sumOf f (l ++ [x]) = add (sumOf f l) (f x).
Proof. unfold sumOf. now rewrite fold_left_app. Qed.

Lemma findAll_snoc {A : Type} (q : A -> bool) (l : list A) (x : A) :
  findAll q (l ++ [x]) = if q x then findAll q l ++ [x] else findAll q l.
Proof.
  unfold findAll. rewrite List.filter_app. simpl.
  destruct (q x); [reflexivity | now rewrite app_nil_r].
Qed.

(** What the handler does with a deposit that passes every check. *)
Lemma handleDepositEvent_run (u : string) (amt : num) (token : bool) (blk : nat)
    (tx : string) (now : N) (db : DB) :
  nonEmpty u = true -> nonEmpty tx = true -> geb amt zero = true ->
  Investment.txExists (investments db) tx = false ->
  EventListener.handleDepositEvent u amt token blk tx now db
  = (mkDB
       (updateFirst
          (fun v => String.eqb (User.walletAddress v) (toLowerCase u))
          (User.pushDeposit (User.mkDeposit amt tx blk now))
          (match User.findByWallet (users db) u with
           | Some _ => users db
           | None => users db ++ [User.create (toLowerCase u) None now]
           end))
       (levels (fst (EventListener.updateLevelInvestments u amt db)))
       (investments db ++
        [Investment.create (toLowerCase u) amt tx blk
           (if token then Investment.USDT else Investment.BDC) now]),
     None).
Proof.
  intros Hu Htx Hamt Hfresh.
  unfold EventListener.handleDepositEvent, caught, bind, gets, call, ret.
  assert (Hval : Investment.validate
            (Investment.create (toLowerCase u) amt tx blk
               (if token then Investment.USDT else Investment.BDC) now) = true).
  { unfold Investment.validate, Investment.create. simpl.
    now rewrite !nonEmpty_toLowerCase, Hu, Hamt, Htx. }
  destruct (User.findByWallet (users db) u) as [user|] eqn:Hfind.
  - unfold addDeposit. rewrite Htx. simpl.
    unfold saveNewInvestment. rewrite Hval. simpl.
    unfold bind, gets. simpl. now rewrite Hfresh.
  - unfold saveNewUser, User.create. cbn [User.walletAddress].
    rewrite !nonEmpty_toLowerCase, Hu. cbn [negb].
    unfold bind, gets. cbn [users]. rewrite toLowerCase_idem.
    rewrite (findByWallet_None_existsb _ _ Hfind).
    unfold setUsers, addDeposit. rewrite Htx. simpl.
    unfold saveNewInvestment. rewrite Hval. simpl.
    unfold bind, gets. simpl. now rewrite Hfresh.
Qed.

End Recorded.

(** X3. A registration event for an address the directory does not know
    (and that is not the empty string) adds one user at the end of the
    directory, with the address and the referrer in lower case, no
    deposit and status active, whom [findByWallet] then finds under the
    address as the event spelled it; the ledger is not touched, the
    relationship store only gains rows, and nothing is logged. *)
Theorem registration_creates_user `{JS : Number}
    (userAddress referrerAddress : string) (now : N) (db : DB) :
  User.findByWallet (users db) userAddress = None ->
  nonEmpty userAddress = true ->
  let created := User.mk (toLowerCase userAddress)
                   (Some (toLowerCase referrerAddress)) [] now User.active in
  let out := EventListener.handleRegistrationEvent userAddress
               (Some referrerAddress) now db in
  snd out = None
  /\ users (fst out) = users db ++ [created]
  /\ User.findByWallet (users (fst out)) userAddress = Some created
  /\ investments (fst out) = investments db
  /\ exists new, levels (fst out) = levels db ++ new.
Proof.
  intros Hfind Hne. cbv zeta.
  unfold EventListener.handleRegistrationEvent, caught, bind, gets, call, lowerOf, ret.
  rewrite Hfind. unfold saveNewUser, User.create. cbn [User.walletAddress].
  rewrite !nonEmpty_toLowerCase, Hne. cbn [negb].
  unfold bind, gets. cbn [users]. rewrite !toLowerCase_idem.
  rewrite (findByWallet_None_existsb _ _ Hfind). unfold setUsers. simpl.
  match goal with
  | |- context [EventListener.createLevelRelationships _ _ _ ?d] => set (db1 := d)
  end.
  destruct (createLevelRelationships_rows userAddress referrerAddress now db1)
    as (Hu & Hi & new & Hl & _).
  rewrite Hu, Hi, Hl. unfold db1. simpl. rewrite !toLowerCase_idem.
  split; [reflexivity|]. split; [reflexivity|]. split; [|split; [reflexivity|eauto]].
  unfold User.findByWallet in *. rewrite findOne_app, Hfind.
  unfold findOne. simpl. now rewrite String.eqb_refl.
Qed.

(** X3, witness: a fourth user registers under U2 in the store of
    Scenario A. *)
Lemma registration_creates_user_witness :
  User.findByWallet (users Scenario.storeA) "0x00000000000000000000000000000000000000D4" = None
  /\ User.findByWallet
       (users (fst (EventListener.handleRegistrationEvent
                      "0x00000000000000000000000000000000000000D4"
                      (Some Scenario.addrU2) 4000%N Scenario.storeA)))
       "0x00000000000000000000000000000000000000D4"
     = Some (User.mk "0x00000000000000000000000000000000000000d4"
               (Some Scenario.u2) [] 4000%N User.active).
Proof.
  split; [reflexivity|].
  exact (proj1 (proj2 (proj2
    (registration_creates_user (JS := ZNumber)
       "0x00000000000000000000000000000000000000D4" Scenario.addrU2 4000%N
       Scenario.storeA eq_refl eq_refl)))).
Defined.

(** X4. A deposit event with a non-empty address and transaction hash, a
    non-negative amount and a transaction hash that the ledger does not
    hold is recorded in full and nothing is logged: the ledger gains
    exactly one entry, at its end, for the lower-cased address with the
    amount, hash and block of the event and status confirmed; the
    depositor, who is added to the directory when unknown, gets the
    deposit at the end of the [deposits] list; no other user is added. *)
Theorem deposit_recorded `{JS : Number}
    (userAddress : string) (amount : num) (tokenIsZero : bool) (blockNumber : nat)
    (txHash : string) (now : N) (db : DB) :
  nonEmpty userAddress = true -> nonEmpty txHash = true ->
  geb amount zero = true ->
  Investment.txExists (investments db) txHash = false ->
  let out := EventListener.handleDepositEvent userAddress amount tokenIsZero
               blockNumber txHash now db in
  let before :=
    match User.findByWallet (users db) userAddress with
    | Some user => user
    | None => User.create (toLowerCase userAddress) None now
    end in
  snd out = None
  /\ investments (fst out)
     = investments db ++
       [Investment.mk (toLowerCase userAddress) amount txHash blockNumber
          (if tokenIsZero then Investment.USDT else Investment.BDC)
          Investment.confirmed now]
  /\ User.findByWallet (users (fst out)) userAddress
     = Some (User.mk (User.walletAddress before) (User.referrerAddress before)
               (User.deposits before
                ++ [User.mkDeposit amount txHash blockNumber now])
               (User.registrationTime before) (User.status before))
  /\ List.length (users (fst out))
     = match User.findByWallet (users db) userAddress with
       | Some _ => List.length (users db)
       | None => S (List.length (users db))
       end
  /\ Investment.txExists (investments (fst out)) txHash = true.
Proof.
  intros Hu Htx Hamt Hfresh. cbv zeta.
  rewrite (handleDepositEvent_run _ _ _ _ _ _ _ Hu Htx Hamt Hfresh).
  cbn [fst snd users investments].
  split; [reflexivity|]. split.
  { unfold Investment.create. now rewrite toLowerCase_idem. }
  assert (Hlen : forall (q : User.t -> bool) f (l : list User.t),
            List.length (updateFirst q f l) = List.length l).
  { intros q f l. induction l as [|x l IH]; simpl; [reflexivity|].
    destruct (q x); simpl; [reflexivity | now rewrite IH]. }
  split; [|split].
  - unfold User.findByWallet at 1.
    destruct (User.findByWallet (users db) userAddress) as [user|] eqn:Hfind.
    + apply (findOne_updateFirst _ (User.pushDeposit _) _ _ Hfind).
      simpl. now destruct (findOne_Some _ _ _ Hfind).
    + pose proof (findByWallet_app_new (users db) userAddress now Hfind) as Hnew.
      apply (findOne_updateFirst _ (User.pushDeposit _) _ _ Hnew).
      simpl. now rewrite toLowerCase_idem, String.eqb_refl.
  - rewrite Hlen.
    destruct (User.findByWallet (users db) userAddress);
      [reflexivity | rewrite length_app; simpl; lia].
  - apply (txExists_app (investments db)
             (Investment.create (toLowerCase userAddress) amount txHash blockNumber
                (if tokenIsZero then Investment.USDT else Investment.BDC) now)).
Qed.

(** X4, witness: the first deposit of U2 in Scenario A. *)
Lemma deposit_recorded_witness :
  snd Scenario.firstDeposit = None
  /\ Investment.txExists (investments (fst Scenario.firstDeposit)) Scenario.txA = true.
Proof.
  destruct (deposit_recorded (JS := ZNumber) Scenario.addrU2 100%Z false 77
              Scenario.txA 4000%N Scenario.storeA eq_refl eq_refl eq_refl eq_refl)
    as (H1 & _ & _ & _ & H5).
  exact (conj H1 H5).
Defined.

(** ** Totals after a deposit *)

Section Totals.
Context `{JS : Number}.

Lemma ledgerTotal_snoc (coll : list Investment.t) (i : Investment.t) (w : string) :
  ReferralRoutes.ledgerTotal (coll ++ [i]) w
  = if String.eqb (Investment.userAddress i) w
    then add (ReferralRoutes.ledgerTotal coll w) (Investment.amount i)
    else ReferralRoutes.ledgerTotal coll w.
Proof.
  unfold ReferralRoutes.ledgerTotal. rewrite findAll_snoc.
  destruct (String.eqb _ _); [apply sumOf_snoc | reflexivity].
Qed.

End Totals.

(** X5. After a deposit event that passes every check (as in X4), the sum
    of the ledger amounts under the depositor's address has grown by the
    amount, the sums under every other address are as before, and the
    depositor's [getTotalDeposits()] and [getDepositCount()] have grown by
    the amount and by one (from 0 for a depositor the directory did not
    know). *)
Theorem deposit_raises_totals `{JS : Number}
    (userAddress : string) (amount : num) (tokenIsZero : bool) (blockNumber : nat)
    (txHash : string) (now : N) (db : DB) :
  nonEmpty userAddress = true -> nonEmpty txHash = true ->
  geb amount zero = true ->
  Investment.txExists (investments db) txHash = false ->
  let out := EventListener.handleDepositEvent userAddress amount tokenIsZero
               blockNumber txHash now db in
  let before :=
    match User.findByWallet (users db) userAddress with
    | Some user => user
    | None => User.create (toLowerCase userAddress) None now
    end in
  ReferralRoutes.ledgerTotal (investments (fst out)) (toLowerCase userAddress)
  = add (ReferralRoutes.ledgerTotal (investments db) (toLowerCase userAddress)) amount
  /\ (forall other, other <> toLowerCase userAddress ->
        ReferralRoutes.ledgerTotal (investments (fst out)) other
        = ReferralRoutes.ledgerTotal (investments db) other)
  /\ exists after,
       User.findByWallet (users (fst out)) userAddress = Some after
       /\ User.getTotalDeposits after = add (User.getTotalDeposits before) amount
       /\ User.getDepositCount after = S (User.getDepositCount before).
Proof.
  intros Hu Htx Hamt Hfresh. cbv zeta.
  rewrite (handleDepositEvent_run _ _ _ _ _ _ _ Hu Htx Hamt Hfresh).
  cbn [fst snd users investments].
  split; [|split].
  - rewrite ledgerTotal_snoc. unfold Investment.create.
    cbn [Investment.userAddress Investment.amount].
    now rewrite toLowerCase_idem, String.eqb_refl.
  - intros other Hother. rewrite ledgerTotal_snoc. unfold Investment.create.
    cbn [Investment.userAddress]. rewrite toLowerCase_idem.
    destruct (String.eqb_spec (toLowerCase userAddress) other); [congruence|reflexivity].
  - destruct (User.findByWallet (users db) userAddress) as [user|] eqn:Hfind.
    + eexists. split.
      * apply (findOne_updateFirst _ (User.pushDeposit _) _ _ Hfind).
        simpl. now destruct (findOne_Some _ _ _ Hfind).
      * unfold User.getTotalDeposits, User.getDepositCount.
        cbn [User.pushDeposit User.deposits]. rewrite sumOf_snoc, length_app.
        simpl. split; (reflexivity || lia).
    + pose proof (findByWallet_app_new (users db) userAddress now Hfind) as Hnew.
      eexists. split.
      * apply (findOne_updateFirst _ (User.pushDeposit _) _ _ Hnew).
        simpl. now rewrite toLowerCase_idem, String.eqb_refl.
      * unfold User.getTotalDeposits, User.getDepositCount.
        cbn [User.pushDeposit User.deposits]. rewrite sumOf_snoc, length_app.
        simpl. split; (reflexivity || lia).
Qed.

(** X5, witness: the first deposit of U2 in Scenario A. *)
Lemma deposit_raises_totals_witness :
  ReferralRoutes.ledgerTotal (investments (fst Scenario.firstDeposit)) Scenario.u2
  = 100%Z
  /\ ReferralRoutes.ledgerTotal (investments Scenario.storeA) Scenario.u2 = 0%Z.
Proof.
  split; [|reflexivity].
  exact (proj1 (deposit_raises_totals (JS := ZNumber) Scenario.addrU2 100%Z false 77
                  Scenario.txA 4000%N Scenario.storeA eq_refl eq_refl eq_refl eq_refl)).
Defined.

(** ** Deposits and commissions in either order *)

Section Commute.
Context `{JS : Number}.

Lemma updateFirst_updateAll {A : Type} (q1 q2 : A -> bool) (f1 f2 : A -> A) (l : list A) :
  (forall x, q2 (f1 x) = q2 x) -> (forall x, q1 (f2 x) = q1 x) ->
  (forall x, f1 (f2 x) = f2 (f1 x)) ->
  updateFirst q2 f2 (updateAll q1 f1 l) = updateAll q1 f1 (updateFirst q2 f2 l).
Proof.
  intros H21 H12 Hf. unfold updateAll.
  induction l as [|x l IH]; simpl; [reflexivity|].
  assert (Hq : q2 (if q1 x then f1 x else x) = q2 x)
    by (destruct (q1 x); [apply H21 | reflexivity]).
  rewrite Hq. destruct (q2 x); simpl.
  - rewrite H12. destruct (q1 x); [now rewrite Hf | reflexivity].
  - now rewrite IH.
Qed.

(** The deposit handler reads and writes the relationship rows only in
    its last step: whatever is done to the rows beforehand, it leaves the
    same users and ledger, logs the same, and does to the rows one and the
    same thing [h] (the propagation, or nothing when it stops early). *)
Lemma handleDepositEvent_rows (u : string) (amt : num) (token : bool) (blk : nat)
    (tx : string) (now : N) (db : DB) :
  exists U I logged h,
    (h = (fun l => l)
     \/ h = updateAll
              (fun r => String.eqb (Level.userAddress r) (toLowerCase u)
                        && Level.isActive r)
              (Level.addInvestment amt))
    /\ forall g : list Level.t -> list Level.t,
         EventListener.handleDepositEvent u amt token blk tx now
           (mkDB (users db) (g (levels db)) (investments db))
         = (mkDB U (h (g (levels db))) I, logged).
Proof.
  unfold EventListener.handleDepositEvent, caught, bind, gets, call, ret.
  cbn [users levels investments].
  destruct (User.findByWallet (users db) u) as [user|] eqn:Hfind.
  - unfold addDeposit. destruct (nonEmpty tx) eqn:Htx; cbn [negb].
    + unfold setUsers, saveNewInvestment. cbn [users levels investments].
      destruct (Investment.validate _) eqn:Hval; cbn [negb].
      * unfold bind, gets, setInvestments, throw. cbn [users levels investments].
        destruct (Investment.txExists _ _) eqn:Hdup.
        -- eexists _, _, _, (fun l => l). split; [now left|]. intros g. reflexivity.
        -- eexists _, _, _, _. split; [now right|]. intros g. unfold EventListener.updateLevelInvestments, setLevels, lowerOf, bind, gets, ret. cbn -[updateAll updateFirst toLowerCase]. reflexivity.
      * unfold throw. eexists _, _, _, (fun l => l). split; [now left|].
        intros g. reflexivity.
    + unfold throw. eexists _, _, _, (fun l => l). split; [now left|].
      intros g. reflexivity.
  - unfold saveNewUser. destruct (negb (nonEmpty _)) eqn:Hne.
    + unfold throw. eexists _, _, _, (fun l => l). split; [now left|].
      intros g. reflexivity.
    + unfold bind, gets. cbn [users levels investments].
      destruct (existsb _ (users db)) eqn:Hex.
      * unfold throw. eexists _, _, _, (fun l => l). split; [now left|].
        intros g. reflexivity.
      * unfold setUsers, addDeposit. unfold setUsers. cbn [users levels investments].
        destruct (nonEmpty tx) eqn:Htx; cbn [negb].
        -- unfold saveNewInvestment. cbn [users levels investments].
           destruct (Investment.validate _) eqn:Hval; cbn [negb].
           ++ unfold bind, gets, setInvestments, throw. cbn [users levels investments].
              destruct (Investment.txExists _ _) eqn:Hdup.
              ** eexists _, _, _, (fun l => l). split; [now left|]. intros g. reflexivity.
              ** eexists _, _, _, _. split; [now right|]. intros g. unfold EventListener.updateLevelInvestments, setLevels, lowerOf, bind, gets, ret. cbn -[updateAll updateFirst toLowerCase]. reflexivity.
           ++ unfold throw. eexists _, _, _, (fun l => l). split; [now left|].
              intros g. reflexivity.
        -- unfold throw. eexists _, _, _, (fun l => l). split; [now left|].
           intros g. reflexivity.
Qed.

End Commute.

(** X6. A deposit event and a commission event commute: delivered in
    either order they leave the same store, and the deposit handler logs
    the same whether the commission came before it or not. *)
Theorem deposit_and_commission_commute `{JS : Number}
    (depositor : string) (amount : num) (tokenIsZero : bool) (blockNumber : nat)
    (txHash : string) (now : N)
    (beneficiary source : string) (value : num) (level : nat) (db : DB) :
  let deposit := EventListener.handleDepositEvent depositor amount tokenIsZero
                   blockNumber txHash now in
  let commission := EventListener.handleTransactionEvent beneficiary source
                      value level in
  fst (commission (fst (deposit db))) = fst (deposit (fst (commission db)))
  /\ snd (deposit (fst (commission db))) = snd (deposit db)
  /\ snd (commission (fst (deposit db))) = None.
Proof.
  cbv zeta.
  destruct (handleDepositEvent_rows depositor amount tokenIsZero blockNumber txHash
              now db) as (U & I & logged & h & Hh & Hrun).
  pose proof (Hrun (fun l => l)) as H0. cbn beta in H0.
  assert (Hdb : mkDB (users db) (levels db) (investments db) = db) by (now destruct db).
  rewrite Hdb in H0.
  set (q2 := fun row =>
         Level.hasKey (toLowerCase source) (toLowerCase beneficiary) level row
         && Level.isActive row).
  assert (HT : forall d, EventListener.handleTransactionEvent beneficiary source value level d
             = (mkDB (users d) (updateFirst q2 (Level.addEarnings value) (levels d))
                     (investments d), None)) by reflexivity.
  rewrite !HT. cbn [fst snd].
  rewrite (Hrun (updateFirst q2 (Level.addEarnings value))), H0.
  cbn [fst snd users levels investments].
  split; [|split; reflexivity]. f_equal.
  destruct Hh as [-> | ->]; [reflexivity|].
  apply updateFirst_updateAll; intros row; reflexivity.
Qed.

(** ** The housekeeping of the sync service *)

Section Cleanup.
Context `{JS : Number}.

Lemma updateAll_idem {A : Type} (q : A -> bool) (f : A -> A) (l : list A) :
  (forall x, q (f x) = false) ->
  updateAll q f (updateAll q f l) = updateAll q f l.
Proof.
  intros Hq. unfold updateAll. rewrite List.map_map. apply List.map_ext.
  intros x. destruct (q x) eqn:Hx; [now rewrite Hq | now rewrite Hx].
Qed.

Lemma updateAll_changes {A : Type} (q : A -> bool) (f : A -> A) (l : list A) :
  Forall2 (fun x y => y = x \/ (q x = true /\ y = f x)) l (updateAll q f l).
Proof.
  unfold updateAll. induction l as [|x l IH]; simpl; constructor; auto.
  destruct (q x); auto.
Qed.

End Cleanup.

(** X7. One pass of [cleanupInactiveRecords] settles the store: a second
    pass with the same cut-off date changes nothing.  The pass never touches the
    ledger, never removes or reorders a user or a relationship, changes a
    user only by turning an active user without deposits inactive and a
    relationship only by switching an active one off; afterwards no
    active relationship has an inactive user at either end. *)
Theorem cleanupInactiveRecords_settles `{JS : Number} (cutoff : N) (db : DB) :
  let db' := SyncService.cleanupInactiveRecords cutoff db in
  SyncService.cleanupInactiveRecords cutoff db' = db'
  /\ investments db' = investments db
  /\ Forall2 (fun u u' =>
                u' = u
                \/ (User.status u = User.active /\ User.deposits u = []
                    /\ u' = SyncService.setStatus User.inactive u))
             (users db) (users db')
  /\ Forall2 (fun r r' =>
                r' = r \/ (Level.isActive r = true /\ r' = SyncService.deactivate r))
             (levels db) (levels db')
  /\ Forall (fun r =>
               Level.isActive r = true ->
               SyncService.isAmong (Level.userAddress r)
                 (SyncService.getInactiveUserAddresses (users db')) = false
               /\ SyncService.isAmong (Level.referrerAddress r)
                    (SyncService.getInactiveUserAddresses (users db')) = false)
            (levels db').
Proof.
  cbv zeta. unfold SyncService.cleanupInactiveRecords. cbn [users levels investments].
  set (q1 := fun u : User.t => _ && _ && _).
  assert (Hq1 : forall x, q1 (SyncService.setStatus User.inactive x) = false)
    by (intros x; reflexivity).
  rewrite (updateAll_idem q1 _ _ Hq1).
  set (gone := SyncService.getInactiveUserAddresses _).
  set (q2 := fun r : Level.t => Level.isActive r && _).
  assert (Hq2 : forall x, q2 (SyncService.deactivate x) = false)
    by (intros x; reflexivity).
  rewrite (updateAll_idem q2 _ _ Hq2).
  split; [reflexivity|]. split; [reflexivity|]. split; [|split].
  - eapply Forall2_impl; [apply (updateAll_changes q1)|].
    intros u u' [->|[Hq ->]]; [now left|right].
    unfold q1 in Hq. apply andb_true_iff in Hq as [Hq _].
    apply andb_true_iff in Hq as [Hst Hdep].
    split; [|split; [|reflexivity]].
    + destruct (User.status u); simpl in Hst; congruence.
    + apply Nat.eqb_eq in Hdep. now destruct (User.deposits u).
  - eapply Forall2_impl; [apply (updateAll_changes q2)|].
    intros r r' [->|[Hq ->]]; [now left|right].
    unfold q2 in Hq. apply andb_true_iff in Hq as [Hact _]. now split.
  - unfold updateAll. apply Forall_map. apply Forall_forall. intros r _.
    destruct (q2 r) eqn:Hq; [simpl; congruence|].
    intros Hact. unfold q2 in Hq. rewrite Hact in Hq. simpl in Hq.
    now apply orb_false_iff in Hq.
Qed.

(** ** The cache: sweeping, framing, and what is never served *)

Section CacheMaintenance.
Context {V : Type}.

Lemma tier_withTier_other (ct ct' : Cache.cacheType_t) (c : Cache.SimpleCache V)
    (m : Cache.CacheManager V) :
  ct <> ct' -> Cache.tier ct' (Cache.withTier ct c m) = Cache.tier ct' m.
Proof. destruct ct, ct'; intros H; try reflexivity; congruence. Qed.

Lemma cleanup_lookup (now : N) (c : Cache.SimpleCache V) (key : string) :
  Cache.cache (Cache.cleanup now c) !! key
  = match Cache.cache c !! key with
    | Some it => if (Cache.expiry it <? now)%N then None else Some it
    | None => None
    end.
Proof.
  unfold Cache.cleanup. cbn [Cache.cache].
  destruct (Cache.cache c !! key) as [it|] eqn:Hk.
  - destruct (Cache.expiry it <? now)%N eqn:Hexp.
    + apply map_lookup_filter_None. right. intros it' Hit'. simpl.
      rewrite Hk in Hit'. injection Hit' as <-. congruence.
    + apply map_lookup_filter_Some. split; [assumption|exact Hexp].
  - apply map_lookup_filter_None. now left.
Qed.

(** A lookup that misses leaves a cache in which the key still misses,
    whenever it is asked again. *)
Lemma get_miss_stays (key : string) (t t' : N) (c : Cache.SimpleCache V) :
  snd (Cache.get key t c) = Cache.undefined ->
  snd (Cache.get key t' (fst (Cache.get key t c))) = Cache.undefined.
Proof.
  unfold Cache.get.
  destruct (Cache.cache c !! key) as [it|] eqn:Hk.
  - destruct (Cache.expiry it <? t)%N; cbn [fst snd Cache.cache].
    + intros _. now rewrite lookup_delete_eq.
    + intros Hv. rewrite Hk. destruct (Cache.expiry it <? t')%N; [reflexivity|exact Hv].
  - cbn [fst snd]. intros _. now rewrite Hk.
Qed.

Lemma get_set_undefined (key : string) (ttl : option N) (t t' : N)
    (c : Cache.SimpleCache V) :
  snd (Cache.get key t' (Cache.set key Cache.undefined ttl t c)) = Cache.undefined.
Proof.
  unfold Cache.get, Cache.set. cbn [Cache.cache]. rewrite lookup_insert_eq.
  cbn [Cache.expiry Cache.itemValue]. now destruct (_ <? _)%N.
Qed.

End CacheMaintenance.

(** X8. The sweep [cleanup] cannot be observed through [get]: at the time
    of the sweep or later, a lookup in the swept cache returns what it
    returns in the unswept one, and sweeping before the lookup or after it
    leaves the same cache.  The sweep keeps exactly the entries that have
    not expired, so [getStats().keys] never grows. *)
Theorem cleanup_is_invisible (V : Type) (key : string) (now t : N)
    (c : Cache.SimpleCache V) :
  (now <= t)%N ->
  Cache.get key t (Cache.cleanup now c)
  = (Cache.cleanup now (fst (Cache.get key t c)), snd (Cache.get key t c))
  /\ (forall k it,
        Cache.cache (Cache.cleanup now c) !! k = Some it
        <-> Cache.cache c !! k = Some it /\ (now <= Cache.expiry it)%N)
  /\ Cache.statKeys (Cache.getStats (Cache.cleanup now c))
     <= Cache.statKeys (Cache.getStats c).
Proof.
  intros Hle. split; [|split].
  - unfold Cache.get at 1. rewrite cleanup_lookup.
    unfold Cache.get. destruct (Cache.cache c !! key) as [it|] eqn:Hk.
    + destruct (Cache.expiry it <? now)%N eqn:Hnow.
      * assert (Ht : (Cache.expiry it <? t)%N = true)
          by (apply N.ltb_lt; apply N.ltb_lt in Hnow; lia).
        rewrite Ht. cbn [fst snd]. f_equal.
        unfold Cache.cleanup. cbn [Cache.cache Cache.ttl]. f_equal.
        rewrite map_filter_delete. symmetry. apply delete_id.
        apply map_lookup_filter_None. right. intros it' Hit'. simpl.
        rewrite Hk in Hit'. injection Hit' as <-. congruence.
      * destruct (Cache.expiry it <? t)%N; cbn [fst snd]; [|reflexivity].
        f_equal. unfold Cache.cleanup. cbn [Cache.cache Cache.ttl]. f_equal.
        now rewrite map_filter_delete.
    + reflexivity.
  - intros k it. rewrite cleanup_lookup.
    destruct (Cache.cache c !! k) as [it'|]; [|split; [discriminate|now intros [? _]]].
    destruct (Cache.expiry it' <? now)%N eqn:Hexp.
    + split; [discriminate|]. intros [[= ->] H]. apply N.ltb_lt in Hexp. lia.
    + split; [intros [= ->]|now intros [? _]]. split; [reflexivity|].
      now apply N.ltb_ge in Hexp.
  - unfold Cache.getStats, Cache.cleanup. cbn [Cache.statKeys Cache.cache].
    apply map_subseteq_size, map_filter_subseteq.
Qed.

(** X8, witness: an entry stored at time 0 for one second, swept at 2 s
    and looked up at 3 s. *)
Lemma cleanup_is_invisible_witness :
  (2000 <= 3000)%N
  /\ Cache.get "k" 3000
       (Cache.cleanup 2000
          (Cache.set "k" (Cache.value 1) None 0 (Cache.mkSimpleCache ∅ 1000)))
     = (Cache.cleanup 2000
          (fst (Cache.get "k" 3000
                  (Cache.set "k" (Cache.value 1) None 0 (Cache.mkSimpleCache ∅ 1000)))),
        snd (Cache.get "k" 3000
               (Cache.set "k" (Cache.value 1) None 0 (Cache.mkSimpleCache ∅ 1000)))).
Proof.
  split; [lia|].
  apply (cleanup_is_invisible nat "k" 2000 3000
           (Cache.set "k" (Cache.value 1) None 0 (Cache.mkSimpleCache ∅ 1000))).
  lia.
Defined.

(** X9. Storing under one key of one tier is not seen from anywhere else:
    a lookup of another key, or of any key in another tier, returns what it
    returned before the store. *)
Theorem managerSet_frame (V : Type) (ct ct' : Cache.cacheType_t) (key key' : string)
    (v : Cache.jsval V) (ttl : option N) (t now : N) (m : Cache.CacheManager V) :
  ct <> ct' \/ key <> key' ->
  snd (Cache.managerGet ct' key' now (Cache.managerSet ct key v ttl t m))
  = snd (Cache.managerGet ct' key' now m).
Proof.
  intros Hne. unfold Cache.managerGet, Cache.managerSet.
  assert (Hlook : Cache.cache (Cache.tier ct' (Cache.withTier ct
                     (Cache.set key v ttl t (Cache.tier ct m)) m)) !! key'
                  = Cache.cache (Cache.tier ct' m) !! key').
  { assert (Hdec : ct = ct' \/ ct <> ct')
      by (destruct ct, ct'; (now left) || (right; discriminate)).
    destruct Hdec as [<-|Hct].
    - rewrite tier_withTier. unfold Cache.set. cbn [Cache.cache].
      apply lookup_insert_ne. destruct Hne; congruence.
    - now rewrite tier_withTier_other. }
  unfold Cache.get. rewrite Hlook.
  destruct (Cache.cache (Cache.tier ct' m) !! key') as [it|]; [|reflexivity].
  now destruct (Cache.expiry it <? now)%N.
Qed.

(** X9, witness: a store in the long-term tier and a lookup of the same
    key in the default tier. *)
Lemma managerSet_frame_witness :
  snd (Cache.managerGet Cache.defaultType "k" 10
         (Cache.managerSet Cache.longTerm "k" (Cache.value 1) None 0
            Cache.newCacheManager))
  = Cache.undefined.
Proof.
  rewrite (managerSet_frame nat Cache.longTerm Cache.defaultType "k" "k"
             (Cache.value 1) None 0 10 Cache.newCacheManager);
    [reflexivity | left; discriminate].
Defined.

(** X10. [cached] never serves a failure or an [undefined]: when the
    function throws, or returns [undefined], the next call of [cached]
    under the same key runs its function again, whenever it is made. *)
Theorem cached_runs_again (V : Type) (ct : Cache.cacheType_t) (key : string)
    (f g : unit -> outcome (Cache.jsval V)) (ttl ttl' : option N)
    (tGet tSet tGet' tSet' : N) (m : Cache.CacheManager V) :
  (forall v, snd (Cache.cached key f ttl ct tGet tSet m) <> Ok (Cache.value v)) ->
  snd (Cache.cached key g ttl' ct tGet' tSet'
         (fst (Cache.cached key f ttl ct tGet tSet m)))
  = g tt.
Proof.
  intros Hnot.
  assert (Hmiss : snd (Cache.managerGet ct key tGet'
                         (fst (Cache.cached key f ttl ct tGet tSet m)))
                  = Cache.undefined).
  { revert Hnot. unfold Cache.cached, Cache.managerGet.
    destruct (Cache.get key tGet (Cache.tier ct m)) as [c1 v1] eqn:Hget.
    destruct v1 as [|v1]; [|intros H; now destruct (H v1)].
    destruct (f tt) as [[|r]|e]; cbn [fst snd]; intros Hnot.
    - unfold Cache.managerSet. rewrite !tier_withTier.
      pose proof (get_set_undefined key ttl tSet tGet' c1) as Hu.
      destruct (Cache.get key tGet' _); exact Hu.
    - now destruct (Hnot r).
    - rewrite tier_withTier.
      pose proof (get_miss_stays key tGet tGet' (Cache.tier ct m)) as Hs.
      rewrite Hget in Hs. cbn [fst snd] in Hs. specialize (Hs eq_refl).
      destruct (Cache.get key tGet' c1); exact Hs. }
  unfold Cache.cached at 1.
  destruct (Cache.managerGet ct key tGet' _) as [m1 v1]. cbn [snd] in Hmiss.
  subst v1. now destruct (g tt).
Qed.

(** X10, witness: a function that throws, then one that returns 7. *)
Lemma cached_runs_again_witness :
  snd (Cache.cached "k" (fun _ => Ok (Cache.value 7)) None Cache.defaultType 20 30
         (fst (Cache.cached "k" (fun _ => Throw TypeError) None Cache.defaultType
                 0 10 Cache.newCacheManager)))
  = Ok (Cache.value 7).
Proof.
  apply (cached_runs_again nat Cache.defaultType "k" (fun _ => Throw TypeError)
           (fun _ => Ok (Cache.value 7)) None None 0 10 20 30 Cache.newCacheManager).
  intros v. discriminate.
Defined.

(** ** The cache: invalidation *)

Section CacheInvalidation.
Context {V : Type}.

Lemma In_keys (c : Cache.SimpleCache V) (k : string) :
  List.In k (Cache.keys c) <-> is_Some (Cache.cache c !! k).
Proof.
  unfold Cache.keys. rewrite List.in_map_iff. split.
  - intros ([k' it] & <- & Hin). exists it.
    now apply elem_of_map_to_list, list_elem_of_In.
  - intros [it Hit]. exists (k, it). split; [reflexivity|].
    now apply list_elem_of_In, elem_of_map_to_list.
Qed.

Lemma delEach_ok (test : string -> bool) (c : Cache.SimpleCache V) :
  Cache.delEach (List.filter test (Cache.keys c)) = Ok tt
  <-> forall k, is_Some (Cache.cache c !! k) -> test k = false.
Proof.
  split.
  - intros Hok k Hk. apply In_keys in Hk.
    destruct (test k) eqn:Htest; [|reflexivity].
    assert (Hin : List.In k (List.filter test (Cache.keys c)))
      by (apply List.filter_In; auto).
    destruct (List.filter test (Cache.keys c)); [destruct Hin | discriminate].
  - intros Hnone.
    destruct (List.filter test (Cache.keys c)) as [|k ks] eqn:Hf; [reflexivity|].
    assert (Hin : List.In k (List.filter test (Cache.keys c)))
      by (rewrite Hf; now left).
    apply List.filter_In in Hin as [Hin Htest].
    apply In_keys in Hin. rewrite (Hnone k Hin) in Htest. discriminate.
Qed.

Lemma delEach_cases (ks : list string) :
  Cache.delEach ks = Ok tt \/ Cache.delEach ks = Throw TypeError.
Proof. destruct ks; [now left | now right]. Qed.

End CacheInvalidation.

(** X11. The manager cannot invalidate.  [clearByPattern] removes
    nothing: it returns normally exactly when no key of any tier matches
    the pattern; when some key matches it throws a [TypeError] (the
    missing method [del]), and in both cases every tier is as it was.
    [del], [delLongTerm], [delShortTerm] and [clearAll] throw the same
    error and leave every tier as it was. *)
Theorem clearByPattern_removes_nothing (V : Type) (test : string -> bool)
    (m : Cache.CacheManager V) :
  fst (Cache.clearByPattern test m) = m
  /\ (snd (Cache.clearByPattern test m) = Ok tt
      \/ snd (Cache.clearByPattern test m) = Throw TypeError)
  /\ (snd (Cache.clearByPattern test m) = Ok tt
      <-> forall ct k, is_Some (Cache.cache (Cache.tier ct m) !! k) -> test k = false)
  /\ (forall ct key, Cache.managerDel ct key m = (m, Throw TypeError))
  /\ Cache.clearAll m = (m, Throw TypeError).
Proof.
  enough (Hpattern :
    fst (Cache.clearByPattern test m) = m
    /\ (snd (Cache.clearByPattern test m) = Ok tt
        \/ snd (Cache.clearByPattern test m) = Throw TypeError)
    /\ (snd (Cache.clearByPattern test m) = Ok tt
        <-> forall ct k, is_Some (Cache.cache (Cache.tier ct m) !! k) -> test k = false))
    by (destruct Hpattern as (H1 & H2 & H3); repeat split; auto; apply H3).
  unfold Cache.clearByPattern.
  pose proof (delEach_ok test (Cache.defaultCache m)) as Hd.
  pose proof (delEach_ok test (Cache.longTermCache m)) as Hl.
  pose proof (delEach_ok test (Cache.shortTermCache m)) as Hs.
  destruct (delEach_cases (List.filter test (Cache.keys (Cache.defaultCache m))))
    as [Ed|Ed]; rewrite Ed in *; cbn [fst snd].
  - destruct (delEach_cases (List.filter test (Cache.keys (Cache.longTermCache m))))
      as [El|El]; rewrite El in *; cbn [fst snd].
    + destruct (delEach_cases (List.filter test (Cache.keys (Cache.shortTermCache m))))
        as [Es|Es]; rewrite Es in *; cbn [fst snd].
      * split; [reflexivity|]. split; [now left|]. split; [|reflexivity].
        intros _ [] k; [now apply Hd | now apply Hl | now apply Hs].
      * split; [reflexivity|]. split; [now right|]. split; [discriminate|].
        intros H. apply Hs. intros k. apply (H Cache.shortTerm).
    + split; [reflexivity|]. split; [now right|]. split; [discriminate|].
      intros H. apply Hl. intros k. apply (H Cache.longTerm).
  - split; [reflexivity|]. split; [now right|]. split; [discriminate|].
    intros H. apply Hd. intros k. apply (H Cache.defaultType).
Qed.

(** ** The two direct routes *)

Section DirectRoutes.
Context `{JS : Number}.

Import ReferralRoutes.

Lemma usersAtLevelFrom_map {E1 E2 : Type} (e1 : User.t -> nat -> num -> E1)
    (conv : E1 -> E2) (db : DB) (t : nat) (remaining : nat) :
  forall cur,
    usersAtLevelFrom (fun u l x => conv (e1 u l x)) db remaining cur t
    = List.map conv (usersAtLevelFrom e1 db remaining cur t).
Proof.
  induction remaining as [|rem IH]; intros cur; [reflexivity|].
  cbn [usersAtLevelFrom]. cbv zeta.
  destruct (21 - rem =? t).
  - now rewrite List.map_map.
  - induction (findAll _ (users db)) as [|u us IHus]; [reflexivity|].
    simpl. now rewrite List.map_app, IH, IHus.
Qed.

Lemma walks_agree (db : DB) (a : string) (t : nat) :
  StatsDirect.getUsersAtLevel db a t 1
  = List.map forStats (TreeDirect.getUsersAtLevel db a t 1).
Proof.
  unfold StatsDirect.getUsersAtLevel, TreeDirect.getUsersAtLevel.
  rewrite <- (usersAtLevelFrom_map TreeDirect.entryOf forStats). reflexivity.
Qed.

Lemma sumOf_ext_from {A B : Type} (f : A -> num) (g : B -> num) (conv : A -> B)
    (l : list A) (acc : num) :
  (forall x, g (conv x) = f x) ->
  fold_left (fun sum x => add sum (g x)) (List.map conv l) acc
  = fold_left (fun sum x => add sum (f x)) l acc.
Proof.
  intros H. revert acc. induction l as [|x l IH]; intros acc; [reflexivity|].
  simpl. now rewrite H, IH.
Qed.

Lemma sumOf_zeros {A : Type} (f : A -> num) (l : list A) :
  (forall x, In x l -> f x = zero) -> sumOf f l = zero.
Proof.
  unfold sumOf. induction l as [|x l IH]; intros H; [reflexivity|].
  simpl. rewrite (H x (or_introl eq_refl)), add_zero_zero.
  apply IH. intros y Hy. apply H. now right.
Qed.

Lemma tree_earnings_zero (db : DB) (a : string) (t : nat) :
  sumOf TreeDirect.totalEarnings (TreeDirect.getUsersAtLevel db a t 1) = zero.
Proof.
  apply sumOf_zeros. intros e He.
  apply (getUsersAtLevel_spec TreeDirect.entryOf) in He as (_ & u & _ & ->).
  reflexivity.
Qed.

(** The view of a level that both routes report: the level, the number of
    users and the two sums. *)
Lemma rounds_agree (db : DB) (w : string) (ls : list nat) :
  forall tree stats summary size inv,
    List.map (fun p => (fst p, (TreeDirect.userCount (snd p),
                                TreeDirect.levelInvestment (snd p),
                                TreeDirect.levelEarnings (snd p)))) stats
    = List.map (fun p => (fst p, (StatsDirect.userCount (snd p),
                                  StatsDirect.levelInvestment (snd p),
                                  StatsDirect.levelEarnings (snd p)))) summary ->
    exists tree' stats' summary' size' inv',
      fold_left (TreeDirect.levelRound db w) ls (tree, stats, size, inv)
      = (tree', stats', size', inv')
      /\ fold_left
           (fun '(summary, size, investment) level =>
              let levelUsers := StatsDirect.getUsersAtLevel db w level 1 in
              let levelInv := sumOf StatsDirect.totalInvestment levelUsers in
              (summary ++ [(level, StatsDirect.mkLevelSummary
                                     (List.length levelUsers) levelInv zero)],
               size + List.length levelUsers,
               add investment levelInv))
           ls (summary, size, inv)
         = (summary', size', inv')
      /\ List.map (fun p => (fst p, (TreeDirect.userCount (snd p),
                                     TreeDirect.levelInvestment (snd p),
                                     TreeDirect.levelEarnings (snd p)))) stats'
         = List.map (fun p => (fst p, (StatsDirect.userCount (snd p),
                                       StatsDirect.levelInvestment (snd p),
                                       StatsDirect.levelEarnings (snd p)))) summary'
      /\ tree' = tree ++ List.map (fun l => (l, TreeDirect.getUsersAtLevel db w l 1)) ls.
Proof.
  induction ls as [|l ls IH]; intros tree stats summary size inv Hview.
  - exists tree, stats, summary, size, inv. simpl. now rewrite app_nil_r.
  - cbn [fold_left]. unfold TreeDirect.levelRound at 2. cbv zeta.
    rewrite walks_agree, List.length_map.
    assert (Hsum : sumOf StatsDirect.totalInvestment
                     (List.map forStats (TreeDirect.getUsersAtLevel db w l 1))
                   = sumOf TreeDirect.totalInvestment
                       (TreeDirect.getUsersAtLevel db w l 1))
      by (apply sumOf_ext_from; reflexivity).
    rewrite Hsum, tree_earnings_zero.
    edestruct (IH (tree ++ [(l, TreeDirect.getUsersAtLevel db w l 1)])) as
      (tree' & stats' & summary' & size' & inv' & H1 & H2 & H3 & H4);
      [|exists tree', stats', summary', size', inv'; split; [exact H1|];
        split; [exact H2|]; split; [exact H3|];
        rewrite H4, <- app_assoc; reflexivity].
    rewrite !List.map_app, Hview. reflexivity.
Qed.

End DirectRoutes.

(** The tree-direct route and the aggregation that the stats-direct route
    runs when its cache has no answer: for a known wallet and the default
    of 21 levels, the tree lists the levels 1 to 21; level by level the
    aggregation counts the users the tree lists and reports the same
    investment and earnings; the totals are the same. *)
Lemma tree_agrees_with_compute `{JS : Number} (walletAddress : string)
    (levelsQuery : option Z) (now now' : N) (db : DB) :
  ReferralRoutes.TreeDirect.levelsOf levelsQuery = 21%Z ->
  User.findByWallet (users db) walletAddress <> None ->
  let r := ReferralRoutes.StatsDirect.compute db walletAddress now' in
  exists b,
    ReferralRoutes.TreeDirect.treeDirect walletAddress levelsQuery now db
    = ReferralRoutes.TreeDirect.Json b
    /\ ReferralRoutes.TreeDirect.tree b
       = List.map (fun l => (l, ReferralRoutes.TreeDirect.getUsersAtLevel
                                  db walletAddress l 1)) (seq 1 21)
    /\ List.map (fun p => (fst p,
                   (ReferralRoutes.TreeDirect.userCount (snd p),
                    ReferralRoutes.TreeDirect.levelInvestment (snd p),
                    ReferralRoutes.TreeDirect.levelEarnings (snd p))))
         (ReferralRoutes.TreeDirect.levelStats b)
       = List.map (fun p => (fst p,
                     (ReferralRoutes.StatsDirect.userCount (snd p),
                      ReferralRoutes.StatsDirect.levelInvestment (snd p),
                      ReferralRoutes.StatsDirect.levelEarnings (snd p))))
           (ReferralRoutes.StatsDirect.levelSummary r)
    /\ ReferralRoutes.TreeDirect.totalTeamSize b
       = ReferralRoutes.StatsDirect.totalTeamSize
           (ReferralRoutes.StatsDirect.totals r)
    /\ ReferralRoutes.TreeDirect.totalTeamInvestment b
       = ReferralRoutes.StatsDirect.totalTeamInvestment
           (ReferralRoutes.StatsDirect.totals r)
    /\ ReferralRoutes.TreeDirect.totalTeamEarnings b
       = ReferralRoutes.StatsDirect.totalTeamEarnings
           (ReferralRoutes.StatsDirect.totals r).
Proof.
  intros Hlevels Hknown. cbv zeta.
  unfold ReferralRoutes.TreeDirect.treeDirect, ReferralRoutes.StatsDirect.compute.
  rewrite Hlevels. cbn [Z.ltb Z.compare Pos.compare Pos.compare_cont].
  destruct (User.findByWallet (users db) walletAddress); [|contradiction].
  change (Z.to_nat 21) with 21.
  destruct (rounds_agree db walletAddress (seq 1 21) [] [] [] 0 zero eq_refl)
    as (tree' & stats' & summary' & size' & inv' & H1 & H2 & H3 & H4).
  assert (H2' : ReferralRoutes.StatsDirect.levelLoop db walletAddress
                = (summary', size', inv')) by exact H2.
  rewrite H1, H2'. eexists. split; [reflexivity|].
  cbn [ReferralRoutes.TreeDirect.tree ReferralRoutes.TreeDirect.levelStats
       ReferralRoutes.TreeDirect.totalTeamSize
       ReferralRoutes.TreeDirect.totalTeamInvestment
       ReferralRoutes.TreeDirect.totalTeamEarnings
       ReferralRoutes.StatsDirect.levelSummary ReferralRoutes.StatsDirect.totals
       ReferralRoutes.StatsDirect.totalTeamSize
       ReferralRoutes.StatsDirect.totalTeamInvestment
       ReferralRoutes.StatsDirect.totalTeamEarnings].
  repeat split; assumption || reflexivity.
Qed.

(** On a hit the stats-direct route serves the stored answer, whatever the
    store holds by then, with the time of the lookup as its cache
    timestamp; the cache entry is not renewed. *)
Lemma statsDirect_hit `{JS : Number} (walletAddress : string) (tGet tSet : N)
    (db : DB) (cm : Cache.CacheManager ReferralRoutes.StatsDirect.result)
    (stored : ReferralRoutes.StatsDirect.result) :
  snd (Cache.managerGet Cache.defaultType
         (Cache.generateKey "referral_stats" [toLowerCase walletAddress])
         tGet cm) = Cache.value stored ->
  ReferralRoutes.StatsDirect.statsDirect walletAddress tGet tSet db cm
  = (fst (Cache.managerGet Cache.defaultType
            (Cache.generateKey "referral_stats" [toLowerCase walletAddress])
            tGet cm),
     ReferralRoutes.StatsDirect.Json stored (Some tGet)).
Proof.
  intros Hhit. unfold ReferralRoutes.StatsDirect.statsDirect.
  destruct (Cache.managerGet _ _ tGet cm) as [cm1 res].
  cbn [snd fst] in *. now rewrite Hhit.
Qed.

(** X12. The tree-direct and the stats-direct route agree when the stats
    route finds no answer in its cache.  For a known wallet and the
    default of 21 levels, both routes answer; the stats route computes its
    answer afresh, stores it under the wallet's key for 300 and marks it
    as not cached; the tree lists the levels 1 to 21; level by level the
    stats route counts the users the tree lists and reports the same
    investment and earnings; the totals of the team size, of the team
    investment and of the team earnings are the same in both answers.  (On
    a hit the stats route serves the stored answer instead, see
    [statsDirect_hit].) *)
Theorem direct_routes_agree `{JS : Number} (walletAddress : string)
    (levelsQuery : option Z) (now tGet tSet : N) (db : DB)
    (cm : Cache.CacheManager ReferralRoutes.StatsDirect.result) :
  ReferralRoutes.TreeDirect.levelsOf levelsQuery = 21%Z ->
  User.findByWallet (users db) walletAddress <> None ->
  let cacheKey :=
    Cache.generateKey "referral_stats" [toLowerCase walletAddress] in
  snd (Cache.managerGet Cache.defaultType cacheKey tGet cm) = Cache.undefined ->
  exists b r,
    ReferralRoutes.TreeDirect.treeDirect walletAddress levelsQuery now db
    = ReferralRoutes.TreeDirect.Json b
    /\ ReferralRoutes.StatsDirect.statsDirect walletAddress tGet tSet db cm
       = (Cache.managerSet Cache.defaultType cacheKey (Cache.value r)
            (Some 300%N) tSet
            (fst (Cache.managerGet Cache.defaultType cacheKey tGet cm)),
          ReferralRoutes.StatsDirect.Json r None)
    /\ r = ReferralRoutes.StatsDirect.compute db walletAddress tSet
    /\ ReferralRoutes.TreeDirect.tree b
       = List.map (fun l => (l, ReferralRoutes.TreeDirect.getUsersAtLevel
                                  db walletAddress l 1)) (seq 1 21)
    /\ List.map (fun p => (fst p,
                   (ReferralRoutes.TreeDirect.userCount (snd p),
                    ReferralRoutes.TreeDirect.levelInvestment (snd p),
                    ReferralRoutes.TreeDirect.levelEarnings (snd p))))
         (ReferralRoutes.TreeDirect.levelStats b)
       = List.map (fun p => (fst p,
                     (ReferralRoutes.StatsDirect.userCount (snd p),
                      ReferralRoutes.StatsDirect.levelInvestment (snd p),
                      ReferralRoutes.StatsDirect.levelEarnings (snd p))))
           (ReferralRoutes.StatsDirect.levelSummary r)
    /\ ReferralRoutes.TreeDirect.totalTeamSize b
       = ReferralRoutes.StatsDirect.totalTeamSize
           (ReferralRoutes.StatsDirect.totals r)
    /\ ReferralRoutes.TreeDirect.totalTeamInvestment b
       = ReferralRoutes.StatsDirect.totalTeamInvestment
           (ReferralRoutes.StatsDirect.totals r)
    /\ ReferralRoutes.TreeDirect.totalTeamEarnings b
       = ReferralRoutes.StatsDirect.totalTeamEarnings
           (ReferralRoutes.StatsDirect.totals r).
Proof.
  intros Hlevels Hknown cacheKey Hmiss.
  destruct (tree_agrees_with_compute walletAddress levelsQuery now tSet db
              Hlevels Hknown) as (b & Hb & Hrest).
  exists b, (ReferralRoutes.StatsDirect.compute db walletAddress tSet).
  split; [exact Hb|]. split; [|split; [reflexivity | exact Hrest]].
  unfold ReferralRoutes.StatsDirect.statsDirect. fold cacheKey.
  destruct (Cache.managerGet Cache.defaultType cacheKey tGet cm) as [cm1 res].
  cbn [snd fst] in *. rewrite Hmiss.
  destruct (User.findByWallet (users db) walletAddress); [reflexivity|contradiction].
Qed.

(** X12, witness: the root of Scenario A, asked with an empty cache. *)
Lemma direct_routes_agree_witness :
  exists b r cm',
    ReferralRoutes.TreeDirect.treeDirect (JS := ZNumber) Scenario.addrR None 9000
      Scenario.storeA
    = ReferralRoutes.TreeDirect.Json b
    /\ ReferralRoutes.StatsDirect.statsDirect Scenario.addrR 9000 9001
         Scenario.storeA Cache.newCacheManager
       = (cm', ReferralRoutes.StatsDirect.Json r None)
    /\ ReferralRoutes.TreeDirect.totalTeamSize b
       = ReferralRoutes.StatsDirect.totalTeamSize
           (ReferralRoutes.StatsDirect.totals r).
Proof.
  destruct (direct_routes_agree (JS := ZNumber) Scenario.addrR None 9000 9000
              9001 Scenario.storeA Cache.newCacheManager)
    as (b & r & Hb & Hr & _ & _ & _ & Hsize & _).
  - reflexivity.
  - intros H. vm_compute in H. discriminate H.
  - reflexivity.
  - exists b, r. eexists. split; [exact Hb|]. split; [exact Hr | exact Hsize].
Defined.

(** ** Levels of a team are contiguous *)

Section Contiguous.
Context `{JS : Number}.

Lemma below_shorter (ok : User.t -> bool) (coll : list User.t) (u : User.t)
    (n : nat) (a : string) :
  below ok coll u n a ->
  forall m, 1 <= m <= n -> exists v, below ok coll v m a.
Proof.
  induction 1 as [u a Hin Hok Href | u v n a Hin Hok Href Hb IH]; intros m Hm.
  - assert (m = 1) as -> by lia. exists u. now apply below_direct.
  - destruct (Nat.eq_dec m (S n)) as [->|Hne].
    + exists u. now apply (below_step ok coll u v n a).
    + apply IH. lia.
Qed.

Lemma walk_empty {Entry : Type} (entryOf : User.t -> nat -> num -> Entry)
    (db : DB) (a : string) (t : nat) :
  ReferralRoutes.usersAtLevelFrom entryOf db (22 - 1) a t = []
  <-> forall u, ~ (1 <= t <= 21 /\ below isActiveUser (users db) u t a).
Proof.
  split.
  - intros Hnil u [Ht Hb].
    assert (Hin : In (entryOf u t (ReferralRoutes.ledgerTotal (investments db)
                                     (User.walletAddress u)))
                     (ReferralRoutes.usersAtLevelFrom entryOf db (22 - 1) a t))
      by (apply getUsersAtLevel_spec; eauto).
    rewrite Hnil in Hin. destruct Hin.
  - intros Hnone.
    destruct (ReferralRoutes.usersAtLevelFrom entryOf db (22 - 1) a t) as [|e l] eqn:He;
      [reflexivity|].
    assert (Hin : In e (ReferralRoutes.usersAtLevelFrom entryOf db (22 - 1) a t))
      by (rewrite He; now left).
    apply getUsersAtLevel_spec in Hin as (Ht & u & Hb & _).
    destruct (Hnone u). now split.
Qed.

End Contiguous.

(** X13. The levels of a team are contiguous: when the walk of either
    direct route finds nobody at a level [t >= 1] below a referrer, it
    finds nobody at any deeper level either. *)
Theorem team_levels_contiguous `{JS : Number} (db : DB) (referrer : string)
    (t t' : nat) :
  1 <= t <= t' ->
  ReferralRoutes.TreeDirect.getUsersAtLevel db referrer t 1 = [] ->
  ReferralRoutes.TreeDirect.getUsersAtLevel db referrer t' 1 = []
  /\ ReferralRoutes.StatsDirect.getUsersAtLevel db referrer t' 1 = [].
Proof.
  intros Ht Hnil.
  assert (Hnone : forall u,
            ~ (1 <= t' <= 21 /\ below isActiveUser (users db) u t' referrer)).
  { intros u [Ht' Hb].
    destruct (below_shorter _ _ _ _ _ Hb t Ht) as [v Hv].
    apply (proj1 (walk_empty ReferralRoutes.TreeDirect.entryOf db referrer t) Hnil v).
    split; [lia|exact Hv]. }
  split; apply walk_empty; exact Hnone.
Qed.

(** X13, witness: nobody was referred by U2 in Scenario A. *)
Lemma team_levels_contiguous_witness :
  ReferralRoutes.TreeDirect.getUsersAtLevel (JS := ZNumber) Scenario.storeA
    Scenario.addrU2 2 1 = []
  /\ ReferralRoutes.StatsDirect.getUsersAtLevel (JS := ZNumber) Scenario.storeA
       Scenario.addrU2 2 1 = [].
Proof.
  apply (team_levels_contiguous (JS := ZNumber) Scenario.storeA Scenario.addrU2 1 2);
    [lia | reflexivity].
Defined.

(** ** The shape of the analytics answer *)

Section AnalyticsShape.
Context `{JS : Number}.

Import LevelRoutes.

(** The number of rows of a level. *)
Lemma count_cons (r : Level.t) (rows : list Level.t) (i : nat) :
  List.length (findAll (fun x => Level.level x =? i) (r :: rows))
  = (if Level.level r =? i then 1 else 0)
    + List.length (findAll (fun x => Level.level x =? i) rows).
Proof. unfold findAll. simpl. now destruct (Level.level r =? i). Qed.

Lemma list_sum_map_add {A : Type} (f g : A -> nat) (l : list A) :
  list_sum (List.map (fun i => f i + g i) l)
  = list_sum (List.map f l) + list_sum (List.map g l).
Proof. induction l as [|x l IH]; simpl; lia. Qed.

Lemma list_sum_indicator (k a n : nat) :
  list_sum (List.map (fun i => if k =? i then 1 else 0) (seq a n))
  = if (a <=? k) && (k <? a + n) then 1 else 0.
Proof.
  revert a. induction n as [|n IH]; intros a; simpl.
  - destruct (a <=? k) eqn:H1; [|reflexivity]. simpl.
    destruct (k <? a + 0) eqn:H2; [|reflexivity].
    apply Nat.leb_le in H1. apply Nat.ltb_lt in H2. lia.
  - rewrite IH.
    destruct (k =? a) eqn:E1, (S a <=? k) eqn:E2, (k <? S a + n) eqn:E3,
             (a <=? k) eqn:E4, (k <? a + S n) eqn:E5; simpl; try reflexivity;
      repeat match goal with
             | H : (_ =? _) = true |- _ => apply Nat.eqb_eq in H
             | H : (_ =? _) = false |- _ => apply Nat.eqb_neq in H
             | H : (_ <=? _) = true |- _ => apply Nat.leb_le in H
             | H : (_ <=? _) = false |- _ => apply Nat.leb_gt in H
             | H : (_ <? _) = true |- _ => apply Nat.ltb_lt in H
             | H : (_ <? _) = false |- _ => apply Nat.ltb_ge in H
             end; lia.
Qed.

(** The sizes of the levels [a .. a + n - 1] add up to the number of rows,
    when every row has its level there. *)
Lemma counts_add_up (rows : list Level.t) (a n : nat) :
  Forall (fun r => a <= Level.level r < a + n) rows ->
  list_sum (List.map
              (fun i => List.length (findAll (fun x => Level.level x =? i) rows))
              (seq a n))
  = List.length rows.
Proof.
  induction 1 as [|r rows Hr _ IH].
  - simpl. induction (seq a n); simpl; auto.
  - rewrite (List.map_ext _ _ (count_cons r rows)), list_sum_map_add, IH,
      list_sum_indicator.
    destruct (a <=? Level.level r) eqn:E1; destruct (Level.level r <? a + n) eqn:E2;
      simpl; try reflexivity;
      [apply Nat.ltb_ge in E2 | apply Nat.leb_gt in E1 | apply Nat.leb_gt in E1]; lia.
Qed.

Lemma insertSorted_length (row : Level.t) (l : list Level.t) :
  List.length (insertSorted row l) = S (List.length l).
Proof.
  induction l as [|x l IH]; simpl; [reflexivity|].
  destruct (precedes row x); simpl; [reflexivity | now rewrite IH].
Qed.

Lemma insertSorted_filter_length (q : Level.t -> bool) (row : Level.t)
    (l : list Level.t) :
  List.length (List.filter q (insertSorted row l))
  = List.length (List.filter q (row :: l)).
Proof.
  induction l as [|x l IH]; [reflexivity|].
  simpl. destruct (precedes row x); [reflexivity|].
  simpl in *. destruct (q x), (q row); simpl in *; lia.
Qed.

Lemma sort_length (l : list Level.t) :
  List.length (sortByLevelAndTime l) = List.length l.
Proof.
  unfold sortByLevelAndTime. induction l as [|x l IH]; simpl; [reflexivity|].
  now rewrite insertSorted_length, IH.
Qed.

Lemma sort_filter_length (q : Level.t -> bool) (l : list Level.t) :
  List.length (List.filter q (sortByLevelAndTime l))
  = List.length (List.filter q l).
Proof.
  unfold sortByLevelAndTime. induction l as [|x l IH]; simpl; [reflexivity|].
  rewrite insertSorted_filter_length. simpl. destruct (q x); simpl; now rewrite IH.
Qed.

Lemma insertSorted_Forall (P : Level.t -> Prop) (row : Level.t) (l : list Level.t) :
  Forall P (insertSorted row l) <-> P row /\ Forall P l.
Proof.
  induction l as [|x l IH]; simpl.
  - rewrite !Forall_cons_iff. tauto.
  - destruct (precedes row x).
    + rewrite !Forall_cons_iff. tauto.
    + rewrite !Forall_cons_iff, IH. tauto.
Qed.

Lemma sort_Forall (P : Level.t -> Prop) (l : list Level.t) :
  Forall P (sortByLevelAndTime l) <-> Forall P l.
Proof.
  unfold sortByLevelAndTime. induction l as [|x l IH]; simpl; [tauto|].
  rewrite insertSorted_Forall, Forall_cons_iff, IH. tauto.
Qed.

(** What the loop over the levels accumulates, as far as users are
    counted. *)
Lemma levels_fold (rows : list Level.t) (ls : list nat) :
  forall acc,
    let t := fold_left (levelStep rows) ls acc in
    let cnt := fun i => List.length (findAll (fun x => Level.level x =? i) rows) in
    teamSize t = teamSize acc + list_sum (List.map cnt ls)
    /\ active t = active acc + List.length (List.filter (fun i => 0 <? cnt i) ls)
    /\ List.map (fun l => (level l, totalUsers (statistics l))) (analyticsSoFar t)
       = List.map (fun l => (level l, totalUsers (statistics l))) (analyticsSoFar acc)
         ++ List.map (fun i => (i, cnt i)) ls.
Proof.
  induction ls as [|i ls IH]; intros acc; cbv zeta.
  - simpl. rewrite app_nil_r. repeat split; lia.
  - cbn [fold_left]. destruct (IH (levelStep rows acc i)) as (H1 & H2 & H3).
    cbv zeta in H1, H2, H3. rewrite H1, H2, H3.
    unfold levelStep. cbv zeta.
    cbn [teamSize active analyticsSoFar]. rewrite List.map_app.
    cbn [List.map level statistics totalUsers list_sum List.filter].
    rewrite <- app_assoc. cbn [app].
    destruct (0 <? _); cbn [List.length]; repeat split; simpl list_sum; lia.
Qed.

Lemma filter_le_sum (f : nat -> nat) (ls : list nat) :
  List.length (List.filter (fun i => 0 <? f i) ls) <= list_sum (List.map f ls).
Proof.
  induction ls as [|i ls IH]; simpl; [lia|].
  destruct (0 <? f i) eqn:E; simpl; [apply Nat.ltb_lt in E|]; lia.
Qed.

Lemma filter_view (f : nat -> nat) (ls : list nat) (l : list levelAnalytics_t) :
  List.map (fun x => (level x, totalUsers (statistics x))) l
  = List.map (fun i => (i, f i)) ls ->
  List.map level (List.filter (fun x => 0 <? totalUsers (statistics x)) l)
  = List.filter (fun i => 0 <? f i) ls.
Proof.
  revert ls. induction l as [|x l IH]; intros [|i ls] H; try discriminate;
    [reflexivity|].
  simpl in H. injection H as Hl Hu Hrest. simpl. rewrite Hu, <- Hl.
  destruct (0 <? f (level x)); simpl; now rewrite (IH ls Hrest).
Qed.

Lemma userAnalytics_view (param : string) (db : DB)
    (body : analytics) :
  userAnalytics param db = Json body ->
  let rows := findAll (activeUnder (toLowerCase param)) (levels db) in
  let cnt := fun i => List.length (findAll (fun x => Level.level x =? i) rows) in
  let team := teamSummary body in
  List.map (fun l => (level l,
                      totalUsers (statistics l)))
           (levelAnalytics body)
  = List.map (fun i => (i, cnt i)) (seq 1 21)
  /\ totalTeamSize team = List.length rows
  /\ activeLevels team
     = List.length (List.filter (fun i => 0 <? cnt i) (seq 1 21))
  /\ maxLevel team
     = list_max (List.filter (fun i => 0 <? cnt i) (seq 1 21))
  /\ activeLevels team <= 21
  /\ maxLevel team <= 21
  /\ activeLevels team <= totalTeamSize team.
Proof.
  unfold userAnalytics.
  destruct (negb (ethAddressRegex (toLowerCase param))); [discriminate|].
  destruct (User.findByWallet (users db) (toLowerCase param)) as [user|];
    [|discriminate].
  set (rows := findAll (activeUnder (toLowerCase param)) (levels db)).
  destruct (forallb _ (sortByLevelAndTime rows)) eqn:Hrange;
    [|discriminate].
  destruct (personalStats _ _) as [amount count].
  intros [= <-]. cbv zeta.
  cbn [levelAnalytics teamSummary].
  unfold teamSummaryOf.
  cbn [totalTeamSize activeLevels maxLevel].
  unfold levelTotals.
  destruct (levels_fold (sortByLevelAndTime rows) (seq 1 21)
              (mkTotals 0 zero zero 0 [])) as (H1 & H2 & H3).
  cbv zeta in H1, H2, H3. cbn [teamSize active
    analyticsSoFar List.map app] in H1, H2, H3.
  assert (Hcnt : forall i,
            List.length (findAll (fun x => Level.level x =? i)
                           (sortByLevelAndTime rows))
            = List.length (findAll (fun x => Level.level x =? i) rows))
    by (intros i; apply sort_filter_length).
  rewrite (List.map_ext _ _ Hcnt) in H1.
  rewrite (List.map_ext _ _ (fun i => f_equal (pair i) (Hcnt i))) in H3.
  rewrite (List.filter_ext _ _ (fun i => f_equal (Nat.ltb 0) (Hcnt i))) in H2.
  assert (Hall : Forall (fun r => 1 <= Level.level r < 1 + 21) rows).
  { apply sort_Forall. apply List.Forall_forall. intros r Hr.
    rewrite forallb_forall in Hrange. specialize (Hrange r Hr).
    apply andb_true_iff in Hrange as [Ha Hb].
    apply Nat.leb_le in Ha. apply Nat.leb_le in Hb. lia. }
  rewrite (counts_add_up rows 1 21 Hall) in H1.
  rewrite (filter_view _ _ _ H3).
  pose proof (filter_le_sum
                (fun i => List.length (findAll (fun x => Level.level x =? i) rows))
                (seq 1 21)) as Hle.
  rewrite (counts_add_up rows 1 21 Hall) in Hle.
  set (cnt := fun i => List.length (findAll (fun x => Level.level x =? i) rows)) in *.
  assert (Hlen : List.length (List.filter (fun i => 0 <? cnt i) (seq 1 21)) <= 21).
  { etransitivity; [apply List.filter_length_le|]. now rewrite List.length_seq. }
  assert (Hmax : list_max (List.filter (fun i => 0 <? cnt i) (seq 1 21)) <= 21).
  { apply List.list_max_le. apply List.Forall_forall. intros i Hi.
    apply List.filter_In in Hi as [Hi _]. apply List.in_seq in Hi. lia. }
  rewrite H1, H2. repeat split; auto.
Qed.

End AnalyticsShape.

(** X14. The shape of an analytics answer.  Whenever [GET
    /user/:walletAddress] answers with a body, its [levelAnalytics] lists
    the levels 1 to 21 in order, each with the number of the user's active
    rows of that level; [totalTeamSize] is the number of all active rows
    under the wallet; [activeLevels] counts the levels that have a row and
    [maxLevel] is the largest of them, both at most 21; a team of size 0
    has no active level. *)
Theorem analytics_shape `{JS : Number} (param : string) (db : DB)
    (body : LevelRoutes.analytics) :
  LevelRoutes.userAnalytics param db = LevelRoutes.Json body ->
  let rows := findAll (LevelRoutes.activeUnder (toLowerCase param)) (levels db) in
  let cnt := fun i => List.length (findAll (fun x => Level.level x =? i) rows) in
  let team := LevelRoutes.teamSummary body in
  List.map (fun l => (LevelRoutes.level l,
                      LevelRoutes.totalUsers (LevelRoutes.statistics l)))
           (LevelRoutes.levelAnalytics body)
  = List.map (fun i => (i, cnt i)) (seq 1 21)
  /\ LevelRoutes.totalTeamSize team = List.length rows
  /\ LevelRoutes.activeLevels team
     = List.length (List.filter (fun i => 0 <? cnt i) (seq 1 21))
  /\ LevelRoutes.maxLevel team
     = list_max (List.filter (fun i => 0 <? cnt i) (seq 1 21))
  /\ LevelRoutes.activeLevels team <= 21
  /\ LevelRoutes.maxLevel team <= 21
  /\ LevelRoutes.activeLevels team <= LevelRoutes.totalTeamSize team.
Proof. apply userAnalytics_view. Qed.

(** X14, witness: the analytics of the root of Scenario A. *)
Lemma analytics_shape_witness :
  LevelRoutes.totalTeamSize
    (LevelRoutes.teamSummary (AnalyticsCases.bodyOf AnalyticsCases.noAnalytics AnalyticsCases.analyticsR))
  = List.length
      (findAll (LevelRoutes.activeUnder (JS := ZNumber) (toLowerCase Scenario.addrR))
               (levels Scenario.storeA)).
Proof.
  exact (proj1 (proj2 (analytics_shape (JS := ZNumber) Scenario.addrR Scenario.storeA
                         (AnalyticsCases.bodyOf AnalyticsCases.noAnalytics AnalyticsCases.analyticsR) eq_refl))).
Defined.

(** ** The quick summary against the analytics *)

Section SummaryView.
Context `{JS : Number}.

Import LevelRoutes.

Lemma group_view (rows : list Level.t) (ls : list nat) :
  List.map (fun st => (statLevel st, userCount st))
    (List.flat_map
       (fun l =>
          match findAll (fun r => Level.level r =? l) rows with
          | [] => []
          | g => [mkLevelStat l (List.length g)
                    (sumOf Level.totalInvestment g) (sumOf Level.totalEarnings g)]
          end) ls)
  = List.map (fun i => (i, List.length (findAll (fun r => Level.level r =? i) rows)))
      (List.filter
         (fun i => 0 <? List.length (findAll (fun r => Level.level r =? i) rows)) ls).
Proof.
  induction ls as [|l ls IH]; [reflexivity|].
  change (l :: ls) with ([l] ++ ls).
  rewrite List.flat_map_app, List.map_app, List.filter_app, List.map_app, IH.
  f_equal. simpl.
  destruct (findAll (fun r => Level.level r =? l) rows) eqn:Hg; simpl;
    [reflexivity | now rewrite Hg].
Qed.

Lemma level_counted (rows : list Level.t) (i : nat) :
  0 < List.length (findAll (fun r => Level.level r =? i) rows) ->
  exists r, In r rows /\ Level.level r = i.
Proof.
  destruct (findAll (fun r => Level.level r =? i) rows) as [|r g] eqn:Hg;
    [simpl; lia|].
  intros _. exists r.
  assert (Hin : In r (findAll (fun r => Level.level r =? i) rows))
    by (rewrite Hg; now left).
  apply In_findAll in Hin as [Hin Hl]. now apply Nat.eqb_eq in Hl.
Qed.

Lemma filter_none {A : Type} (p : A -> bool) (l : list A) :
  (forall x, In x l -> p x = false) -> List.filter p l = [].
Proof.
  induction l as [|x l IH]; intros H; [reflexivity|].
  simpl. rewrite (H x (or_introl eq_refl)). apply IH. intros y Hy. apply H. now right.
Qed.

(** The groups of the summary are the levels of the analytics that have
    a row. *)
Lemma groups_in_range (rows : list Level.t) :
  Forall (fun r => 1 <= Level.level r < 1 + 21) rows ->
  let cnt := fun i => List.length (findAll (fun r => Level.level r =? i) rows) in
  List.filter (fun i => 0 <? cnt i)
    (seq 0 (S (list_max (List.map Level.level rows))))
  = List.filter (fun i => 0 <? cnt i) (seq 1 21).
Proof.
  intros Hall cnt.
  set (M := list_max (List.map Level.level rows)).
  assert (Hsupport : forall i, (0 <? cnt i) = true -> 1 <= i <= M /\ i <= 21).
  { intros i Hi. apply Nat.ltb_lt in Hi.
    destruct (level_counted rows i Hi) as (r & Hr & <-).
    rewrite List.Forall_forall in Hall. specialize (Hall r Hr).
    assert (HM : Forall (fun k => k <= M) (List.map Level.level rows))
      by (apply List.list_max_le; lia).
    rewrite List.Forall_forall in HM.
    specialize (HM (Level.level r) (List.in_map _ _ _ Hr)). lia. }
  assert (HM21 : M <= 21).
  { apply List.list_max_le. apply List.Forall_forall. intros k Hk.
    apply List.in_map_iff in Hk as (r & <- & Hr).
    rewrite List.Forall_forall in Hall. specialize (Hall r Hr). lia. }
  rewrite <- (List.cons_seq M 0). cbn [List.filter].
  destruct (0 <? cnt 0) eqn:H0; [apply Hsupport in H0; lia|].
  assert (Hsplit : seq 1 21 = seq 1 M ++ seq (1 + M) (21 - M))
    by (rewrite <- List.seq_app; f_equal; lia).
  rewrite Hsplit, List.filter_app.
  rewrite (filter_none _ (seq (1 + M) (21 - M))); [now rewrite app_nil_r|].
  intros i Hi. apply List.in_seq in Hi.
  destruct (0 <? cnt i) eqn:Hc; [apply Hsupport in Hc; lia|reflexivity].
Qed.

Lemma fold_left_count {A : Type} (f : A -> nat) (l : list A) (n : nat) :
  fold_left (fun sum x => sum + f x) l n = n + list_sum (List.map f l).
Proof.
  revert n. induction l as [|x l IH]; intros n; simpl; [lia|]. rewrite IH. lia.
Qed.

Lemma list_sum_support (f : nat -> nat) (l : list nat) :
  list_sum (List.map f (List.filter (fun i => 0 <? f i) l)) = list_sum (List.map f l).
Proof.
  induction l as [|i l IH]; [reflexivity|].
  simpl. destruct (0 <? f i) eqn:E; simpl; rewrite IH; [reflexivity|].
  apply Nat.ltb_ge in E. lia.
Qed.

Lemma userSummary_view (param : string) (db : DB) (s : summary) :
  userSummary param db = Json s ->
  let rows := findAll (activeUnder (toLowerCase param)) (levels db) in
  let cnt := fun i => List.length (findAll (fun x => Level.level x =? i) rows) in
  let present :=
    List.filter (fun i => 0 <? cnt i)
      (seq 0 (S (list_max (List.map Level.level rows)))) in
  List.map (fun x => (summaryLevel x, summaryUserCount x)) (levelSummary s)
  = List.map (fun i => (i, cnt i)) present
  /\ quickTeamSize (quickStats s) = list_sum (List.map cnt present)
  /\ quickActiveLevels (quickStats s) = List.length present
  /\ quickMaxLevel (quickStats s) = list_max present.
Proof.
  unfold userSummary.
  destruct (negb (ethAddressRegex (toLowerCase param))); [discriminate|].
  destruct (User.findByWallet (users db) (toLowerCase param)) as [user|];
    [|discriminate].
  set (rows := findAll (activeUnder (toLowerCase param)) (levels db)).
  destruct (personalStats _ _) as [amount count].
  intros [= <-]. cbv zeta. cbn [levelSummary quickStats].
  unfold quickStatsOf. cbn [quickTeamSize quickActiveLevels quickMaxLevel].
  set (cnt := fun i => List.length (findAll (fun x => Level.level x =? i) rows)).
  set (present := List.filter (fun i => 0 <? cnt i)
                    (seq 0 (S (list_max (List.map Level.level rows))))).
  assert (Hview : List.map (fun st => (statLevel st, userCount st)) (groupByLevel rows)
                  = List.map (fun i => (i, cnt i)) present)
    by exact (group_view rows (seq 0 (S (list_max (List.map Level.level rows))))).
  assert (Hl : List.map statLevel (groupByLevel rows) = present).
  { transitivity (List.map fst (List.map (fun st => (statLevel st, userCount st))
                                 (groupByLevel rows)));
      [now rewrite List.map_map|].
    rewrite Hview, List.map_map. simpl. apply List.map_id. }
  assert (Hc : List.map userCount (groupByLevel rows) = List.map cnt present).
  { transitivity (List.map snd (List.map (fun st => (statLevel st, userCount st))
                                 (groupByLevel rows)));
      [now rewrite List.map_map|].
    rewrite Hview, List.map_map. reflexivity. }
  change (List.filter
            (fun i => 0 <? List.length (findAll (fun x => Level.level x =? i) rows))
            (seq 0 (S (list_max (List.map Level.level rows)))))
    with present.
  change (fun i => List.length (findAll (fun x => Level.level x =? i) rows))
    with cnt.
  split; [|split; [|split]].
  - rewrite List.map_map. exact Hview.
  - now rewrite fold_left_count, Hc.
  - now rewrite <- Hl, List.length_map.
  - rewrite Hl. destruct (0 <? _) eqn:E; [reflexivity|].
    apply Nat.ltb_ge in E.
    assert (Hnone : List.length present = 0)
      by (rewrite <- Hl, List.length_map; lia).
    now rewrite (proj1 (List.length_zero_iff_nil present) Hnone).
Qed.

End SummaryView.

(** X15. The quick summary agrees with the analytics.  Whenever both
    routes answer with a body for the same wallet and store, the summary
    lists exactly the levels to which the analytics gives at least one
    user, with the same user counts, and reports the same team size, the
    same number of active levels and the same deepest level. *)
Theorem summary_agrees_with_analytics `{JS : Number} (param : string) (db : DB)
    (a : LevelRoutes.analytics) (s : LevelRoutes.summary) :
  LevelRoutes.userAnalytics param db = LevelRoutes.Json a ->
  LevelRoutes.userSummary param db = LevelRoutes.Json s ->
  List.map (fun x => (LevelRoutes.summaryLevel x, LevelRoutes.summaryUserCount x))
    (LevelRoutes.levelSummary s)
  = List.filter (fun p => 0 <? snd p)
      (List.map (fun l => (LevelRoutes.level l,
                           LevelRoutes.totalUsers (LevelRoutes.statistics l)))
         (LevelRoutes.levelAnalytics a))
  /\ LevelRoutes.quickTeamSize (LevelRoutes.quickStats s)
     = LevelRoutes.totalTeamSize (LevelRoutes.teamSummary a)
  /\ LevelRoutes.quickActiveLevels (LevelRoutes.quickStats s)
     = LevelRoutes.activeLevels (LevelRoutes.teamSummary a)
  /\ LevelRoutes.quickMaxLevel (LevelRoutes.quickStats s)
     = LevelRoutes.maxLevel (LevelRoutes.teamSummary a).
Proof.
  intros Ha Hs.
  assert (Hall : Forall (fun r => 1 <= Level.level r < 1 + 21)
                   (findAll (LevelRoutes.activeUnder (toLowerCase param)) (levels db))).
  { revert Ha. unfold LevelRoutes.userAnalytics.
    destruct (negb _); [discriminate|].
    destruct (User.findByWallet _ _); [|discriminate].
    destruct (forallb _ _) eqn:Hrange; [|discriminate]. intros _.
    apply sort_Forall. apply List.Forall_forall. intros r Hr.
    rewrite forallb_forall in Hrange. specialize (Hrange r Hr).
    apply andb_true_iff in Hrange as [H1 H2].
    apply Nat.leb_le in H1. apply Nat.leb_le in H2. lia. }
  destruct (userAnalytics_view param db a Ha) as (A1 & A2 & A3 & A4 & _).
  destruct (userSummary_view param db s Hs) as (S1 & S2 & S3 & S4).
  cbv zeta in *. rewrite (groups_in_range _ Hall) in S1, S2, S3, S4.
  rewrite S1, S2, S3, S4, A1, A2, A3, A4.
  split; [|split; [|split; reflexivity]].
  - clear S1 S2 S3 S4 A1 A2 A3 A4 Hall Ha Hs.
    induction (seq 1 21) as [|i l IH]; [reflexivity|].
    simpl. destruct (0 <? _); simpl; now rewrite IH.
  - rewrite list_sum_support. now apply counts_add_up.
Qed.

(** X15, witness: the two answers for the root of Scenario A. *)
Lemma summary_agrees_with_analytics_witness :
  LevelRoutes.quickTeamSize
    (LevelRoutes.quickStats (AnalyticsCases.bodyOf AnalyticsCases.noSummary
                               AnalyticsCases.summaryR))
  = LevelRoutes.totalTeamSize
      (LevelRoutes.teamSummary (AnalyticsCases.bodyOf AnalyticsCases.noAnalytics
                                  AnalyticsCases.analyticsR)).
Proof.
  exact (proj1 (proj2 (summary_agrees_with_analytics (JS := ZNumber)
                         Scenario.addrR Scenario.storeA
                         (AnalyticsCases.bodyOf AnalyticsCases.noAnalytics
                            AnalyticsCases.analyticsR)
                         (AnalyticsCases.bodyOf AnalyticsCases.noSummary
                            AnalyticsCases.summaryR)
                         eq_refl eq_refl))).
Defined.

(** ** Statistics by level *)

Section LevelStatistics.
Context `{JS : Number}.

Import LevelRoutes.

Lemma findAll_findAll {A : Type} (p q : A -> bool) (l : list A) :
  findAll p (findAll q l) = findAll (fun x => p x && q x) l.
Proof.
  unfold findAll. induction l as [|x l IH]; [reflexivity|].
  simpl. destruct (q x) eqn:Hq; simpl.
  - destruct (p x); simpl; now rewrite IH.
  - rewrite andb_false_r. exact IH.
Qed.

Lemma find_group (F : nat -> list Level.t) (ls : list nat) (i : nat) :
  List.find (fun s => fst s =? i)
    (List.flat_map
       (fun l => match F l with
                 | [] => []
                 | g => [(l, groupOf g)]
                 end) ls)
  = if in_dec Nat.eq_dec i ls
    then match F i with
         | [] => None
         | g => Some (i, groupOf g)
         end
    else None.
Proof.
  induction ls as [|l ls IH]; [reflexivity|].
  change (l :: ls) with ([l] ++ ls) at 1. rewrite List.flat_map_app.
  cbn [List.flat_map]. rewrite app_nil_r.
  destruct (Nat.eq_dec l i) as [->|Hne].
  - destruct (in_dec Nat.eq_dec i (i :: ls)) as [_|Hn]; [|destruct Hn; now left].
    destruct (F i) as [|r g] eqn:HF.
    + cbn [app]. rewrite IH. now destruct (in_dec Nat.eq_dec i ls).
    + cbn [app List.find fst]. now rewrite Nat.eqb_refl.
  - assert (Hskip : forall rest,
              List.find (fun s => fst s =? i)
                (match F l with [] => [] | g => [(l, groupOf g)] end ++ rest)
              = List.find (fun s : nat * levelStatistics => fst s =? i) rest).
    { intros rest. destruct (F l); [reflexivity|].
      cbn [app List.find fst]. apply Nat.eqb_neq in Hne. now rewrite Hne. }
    rewrite Hskip, IH.
    destruct (in_dec Nat.eq_dec i ls) as [Hin|Hnin];
      destruct (in_dec Nat.eq_dec i (l :: ls)) as [Hin'|Hnin']; try reflexivity.
    + destruct Hnin'. now right.
    + destruct Hin' as [->|Hin']; [congruence | contradiction].
Qed.

Lemma level_present (rows : list Level.t) (i : nat) (r : Level.t) (g : list Level.t) :
  findAll (fun x => Level.level x =? i) rows = r :: g ->
  i <= list_max (List.map Level.level rows).
Proof.
  intros Hg.
  assert (Hin : In r (findAll (fun x => Level.level x =? i) rows))
    by (rewrite Hg; now left).
  apply In_findAll in Hin as [Hin Hl]. apply Nat.eqb_eq in Hl. subst i.
  assert (HM : Forall (fun k => k <= list_max (List.map Level.level rows))
                 (List.map Level.level rows))
    by (apply List.list_max_le; lia).
  rewrite List.Forall_forall in HM. apply HM. now apply List.in_map.
Qed.

(** The group that [getAllLevelsStatistics] has for a level is the one
    that [getLevelStatistics] computes for it. *)
Lemma find_level (coll : list Level.t) (i : nat) :
  List.find (fun s => fst s =? i) (getAllLevelsStatistics coll)
  = match getLevelStatistics coll i with
    | stat :: _ => Some (i, stat)
    | [] => None
    end.
Proof.
  unfold getAllLevelsStatistics, getLevelStatistics. cbv zeta.
  rewrite (find_group (fun l => findAll (fun r => Level.level r =? l)
                                  (findAll Level.isActive coll))).
  rewrite findAll_findAll.
  set (M := list_max _).
  destruct (findAll (fun x => (Level.level x =? i) && Level.isActive x) coll)
    as [|r g] eqn:Hg.
  - now destruct (in_dec _ _ _).
  - destruct (in_dec Nat.eq_dec i (seq 0 (S M))) as [_|Hnin]; [reflexivity|].
    destruct Hnin. apply List.in_seq.
    rewrite <- findAll_findAll in Hg. apply level_present in Hg.
    fold M in Hg. lia.
Qed.

End LevelStatistics.

(** X16. The handler of [/stats/all] and the handler of [/stats/:level]
    agree.  The all-levels answer has one entry for each of the levels 1
    to 21, in order, and the entry of a level carries exactly the
    statistics that the per-level handler answers for that level (the
    zeros when the level has no active row). *)
Theorem stats_all_agrees_with_stats_level `{JS : Number} (db : DB) :
  exists entries,
    LevelRoutes.statsAll db = LevelRoutes.Json entries
    /\ List.map fst entries = seq 1 21
    /\ Forall (fun e =>
                 LevelRoutes.statsLevel (Some (Z.of_nat (fst e))) db
                 = LevelRoutes.Json (Some (Z.of_nat (fst e)), snd e))
              entries.
Proof.
  unfold LevelRoutes.statsAll. cbv zeta. eexists. split; [reflexivity|]. split.
  - rewrite List.map_map. erewrite List.map_ext; [apply List.map_id|].
    intros i. now destruct (List.find _ _).
  - apply List.Forall_forall. intros e He.
    apply List.in_map_iff in He as (i & <- & Hi). apply List.in_seq in Hi.
    rewrite find_level. unfold LevelRoutes.statsLevel.
    destruct (LevelRoutes.getLevelStatistics (levels db) i) as [|stat rest] eqn:Hstat;
      cbn [fst snd];
      (replace ((Z.of_nat i <? 1)%Z || (21 <? Z.of_nat i)%Z) with false
         by (symmetry; apply orb_false_iff; split; apply Z.ltb_ge; lia));
      rewrite Nat2Z.id, Hstat; reflexivity.
Qed.

(** ** The router *)

Section Router.

Import LevelRoutes.

Lemma literal_is_segment (s x : string) :
  nonEmpty s = true -> matchSegment (Lit s) x = true -> nonEmpty x = true.
Proof.
  unfold matchSegment. intros Hs Heq. apply String.eqb_eq in Heq.
  rewrite <- nonEmpty_toLowerCase, <- Heq, nonEmpty_toLowerCase. exact Hs.
Qed.

End Router.

(** X17. The handler registered for [GET /stats/all] is never reached:
    no path is dispatched to it, because every path that matches
    [/stats/all] also matches [/stats/:level], which is registered first
    and so answers it. *)
Theorem stats_all_is_shadowed (path : list string) (h : LevelRoutes.handler_t) :
  LevelRoutes.dispatch path = Some h ->
  isStatsAll h = false
  /\ (LevelRoutes.matchPath [LevelRoutes.Lit "stats"; LevelRoutes.Lit "all"] path = true ->
      h = LevelRoutes.StatsLevel).
Proof.
  unfold LevelRoutes.dispatch, LevelRoutes.getRoutes.
  cbn [List.find fst snd].
  destruct (LevelRoutes.matchPath [LevelRoutes.Lit "stats"; LevelRoutes.Param "level"] path)
    eqn:Hfirst.
  - intros [= <-]. split; reflexivity.
  - assert (Hall : LevelRoutes.matchPath
                     [LevelRoutes.Lit "stats"; LevelRoutes.Lit "all"] path = false).
    { destruct path as [|a [|b [|c rest]]]; cbn [LevelRoutes.matchPath] in *;
        rewrite ?andb_false_r, ?andb_true_r in *; try reflexivity.
      destruct (LevelRoutes.matchSegment (LevelRoutes.Lit "stats") a); [|reflexivity].
      cbn [andb] in *.
      destruct (LevelRoutes.matchSegment (LevelRoutes.Lit "all") b) eqn:Hb;
        [|reflexivity].
      apply literal_is_segment in Hb; [|reflexivity].
      cbn [LevelRoutes.matchSegment] in Hfirst. congruence. }
    rewrite Hall.
    repeat match goal with
           | |- context [if ?c then _ else _] => destruct c
           end;
      cbn [option_map snd]; intros [= <-]; (split; [reflexivity | discriminate]).
Qed.

(** X17, witness: the path [/stats/all] itself. *)
Lemma stats_all_is_shadowed_witness :
  isStatsAll LevelRoutes.StatsLevel = false
  /\ (LevelRoutes.matchPath [LevelRoutes.Lit "stats"; LevelRoutes.Lit "all"]
        ["stats"; "all"] = true ->
      LevelRoutes.StatsLevel = LevelRoutes.StatsLevel).
Proof.
  apply (stats_all_is_shadowed ["stats"; "all"] LevelRoutes.StatsLevel). reflexivity.
Defined.

(** ** Creating a user through the route *)

(** X18. [POST /users] creates a user at most once.  A request with a
    non-empty wallet address answers either 201, having appended the new
    user (lower-case address, active, no deposits) to the directory, or
    409 with the store untouched; it never fails and never touches the
    relationships or the ledger.  Afterwards the user is found, and every
    further request for the same address, in any casing, answers 409 with
    that user and changes nothing. *)
Theorem create_user_once `{JS : Number} (walletAddress : string)
    (referrerAddress : option string) (now : N) (db : DB) :
  nonEmpty walletAddress = true ->
  let out := UserRoutes.createUser (Some walletAddress) referrerAddress now db in
  exists user,
    (snd out = UserRoutes.Created user
     /\ User.findByWallet (users db) walletAddress = None
     /\ users (fst out) = users db ++ [user]
     /\ User.walletAddress user = toLowerCase walletAddress
     /\ User.status user = User.active /\ User.deposits user = []
     \/ snd out = UserRoutes.Conflict user
        /\ User.findByWallet (users db) walletAddress = Some user
        /\ fst out = db)
    /\ levels (fst out) = levels db
    /\ investments (fst out) = investments db
    /\ User.findByWallet (users (fst out)) walletAddress = Some user
    /\ forall again referrer' now',
         toLowerCase again = toLowerCase walletAddress ->
         UserRoutes.createUser (Some again) referrer' now' (fst out)
         = (fst out, UserRoutes.Conflict user).
Proof.
  intros Hw. cbv zeta.
  assert (Hreplay : forall d user again referrer' now',
            User.findByWallet (users d) walletAddress = Some user ->
            toLowerCase again = toLowerCase walletAddress ->
            UserRoutes.createUser (Some again) referrer' now' d
            = (d, UserRoutes.Conflict user)).
  { intros d user again referrer' now' Hfind Hsame.
    unfold UserRoutes.createUser.
    rewrite <- (nonEmpty_toLowerCase again), Hsame, nonEmpty_toLowerCase, Hw.
    cbn [negb]. unfold User.findByWallet in *. now rewrite Hsame, Hfind. }
  remember (UserRoutes.createUser (Some walletAddress) referrerAddress now db)
    as out eqn:Hout.
  unfold UserRoutes.createUser in Hout. rewrite Hw in Hout. cbn [negb] in Hout.
  destruct (User.findByWallet (users db) walletAddress) as [user|] eqn:Hfind.
  - subst out. exists user. cbn [fst snd]. split; [right; repeat split; auto|].
    repeat split; auto.
  - set (user := User.create (toLowerCase walletAddress)
                   (match referrerAddress with
                    | Some r => if nonEmpty r then Some (toLowerCase r) else None
                    | None => None
                    end) now) in *.
    assert (Hsave : saveNewUser user db
                    = (mkDB (users db ++ [user]) (levels db) (investments db), Ok tt)).
    { unfold saveNewUser, user, User.create. cbn [User.walletAddress].
      rewrite !nonEmpty_toLowerCase, Hw. cbn [negb]. unfold bind, gets.
      rewrite toLowerCase_idem, (findByWallet_None_existsb _ _ Hfind). reflexivity. }
    rewrite Hsave in Hout. subst out. cbn [fst snd users levels investments].
    assert (Hfound : User.findByWallet (users db ++ [user]) walletAddress = Some user).
    { unfold User.findByWallet in *. rewrite findOne_app, Hfind.
      unfold findOne, user, User.create. cbn [List.find User.walletAddress].
      now rewrite toLowerCase_idem, String.eqb_refl. }
    exists user. split; [left; repeat split; unfold user, User.create;
                         cbn [User.walletAddress]; auto using toLowerCase_idem|].
    repeat split; auto.
Qed.

(** X18, witness: a new address in the store of Scenario A. *)
Lemma create_user_once_witness :
  exists user,
    User.findByWallet
      (users (fst (UserRoutes.createUser (JS := ZNumber)
                     (Some "0x00000000000000000000000000000000000000D4")
                     (Some Scenario.addrU2) 8000 Scenario.storeA)))
      "0x00000000000000000000000000000000000000D4"
    = Some user.
Proof.
  destruct (create_user_once (JS := ZNumber) "0x00000000000000000000000000000000000000D4"
              (Some Scenario.addrU2) 8000 Scenario.storeA eq_refl)
    as (user & _ & _ & _ & Hfound & _).
  exists user. exact Hfound.
Defined.

(** ** Recording an investment through the route *)

Section RecordInvestment.
Context `{JS : Number}.






End RecordInvestment.



(** ** Setting up levels twice *)

Section SetupTwice.
Context `{JS : Number}.
Open Scope js_scope.

Lemma appends_covered (db db' : DB) : appends db db' -> covered db db'.
Proof.
  intros (_ & _ & new & Hnew) u a l row Hrow.
  exists row. now rewrite Hnew, findOne_app, Hrow.
Qed.

Lemma covered_trans (a b c : DB) : covered a b -> covered b c -> covered a c.
Proof.
  intros Hab Hbc u r l row Hrow.
  destruct (Hab _ _ _ _ Hrow) as [row2 Hrow2]. exact (Hbc _ _ _ _ Hrow2).
Qed.

Lemma onlyAppends_run {A : Type} (m : M A) (db db' : DB) (o : outcome A) :
  onlyAppends m -> m db = (db', o) -> appends db db'.
Proof. intros Hm Hrun. exact (Hm db db db' o Hrun (appends_refl db)). Qed.

Lemma onlyAppends_ret {A : Type} (a : A) : onlyAppends (ret a).
Proof. intros db0. apply preserves_ret. Qed.

Lemma onlyAppends_gets {A : Type} (f : DB -> A) : onlyAppends (gets f).
Proof. intros db0. apply preserves_gets. Qed.

Lemma onlyAppends_bind {A B : Type} (m : M A) (k : A -> M B) :
  onlyAppends m -> (forall a, onlyAppends (k a)) -> onlyAppends (bind m k).
Proof.
  intros Hm Hk db0. apply preserves_bind; [apply Hm | intros a; apply Hk].
Qed.

Lemma onlyAppends_forEach {A : Type} (l : list A) (body : A -> M unit) :
  (forall x, onlyAppends (body x)) -> onlyAppends (forEach l body).
Proof. intros Hb db0. apply preserves_forEach. intros x. apply Hb. Qed.

Lemma onlyAppends_saveNewLevel (row : Level.t) : onlyAppends (saveNewLevel row).
Proof.
  intros db0 db db' o. unfold saveNewLevel.
  destruct (Level.validate row); [|now intros [= <- _]].
  intros [= <- _] (Hu & Hi & new & Hnew). repeat split; auto.
  exists (new ++ [row]). cbn [levels]. now rewrite Hnew, app_assoc.
Qed.

Lemma onlyAppends_ensureLevel (referral : User.t) (referrer : string) (lvl : nat) :
  onlyAppends (UserRoutes.ensureLevel referral referrer lvl).
Proof.
  unfold UserRoutes.ensureLevel. apply onlyAppends_bind; [apply onlyAppends_gets|].
  intros [row|]; [apply onlyAppends_ret | apply onlyAppends_saveNewLevel].
Qed.

Lemma onlyAppends_createDeeperLevelsFrom (remaining : nat) :
  forall userAddress originalReferrer,
    onlyAppends (UserRoutes.createDeeperLevelsFrom remaining userAddress originalReferrer).
Proof.
  induction remaining as [|rem IH]; intros u a; cbn [UserRoutes.createDeeperLevelsFrom].
  - apply onlyAppends_ret.
  - cbv zeta. apply onlyAppends_bind; [apply onlyAppends_gets|]. intros l.
    apply onlyAppends_forEach. intros x.
    apply onlyAppends_bind; [apply onlyAppends_ensureLevel | intros _; apply IH].
Qed.

Lemma settles_ret : settles (ret tt).
Proof. intros db db' _ [= <-] db2 _ _. reflexivity. Qed.

Lemma settles_bind (m : M unit) (k : unit -> M unit) :
  onlyAppends m -> (forall a, onlyAppends (k a)) ->
  settles m -> (forall a, settles (k a)) -> settles (bind m k).
Proof.
  intros Am Ak Sm Sk db db' Hlow. unfold bind.
  destruct (m db) as [db1 [[]|e]] eqn:H1; [|discriminate].
  intros H2 db2 Hus Hcov.
  pose proof (onlyAppends_run _ _ _ _ Am H1) as A1.
  pose proof (onlyAppends_run _ _ _ _ (Ak tt) H2) as A2.
  assert (Hu1 : users db1 = users db) by apply A1.
  rewrite (Sm db db1 Hlow H1 db2 Hus
             (covered_trans _ _ _ (appends_covered _ _ A2) Hcov)).
  apply (Sk tt db1 db'); [now rewrite Hu1 | exact H2 | congruence | exact Hcov].
Qed.

Lemma settles_gets {A : Type} (f : DB -> A) (k : A -> M unit) :
  (forall d d2, users d2 = users d -> f d2 = f d) ->
  (forall db, lowerWallets (users db) -> settles (k (f db))) ->
  settles (bind (gets f) k).
Proof.
  intros Hf Sk db db' Hlow. unfold bind, gets. intros Hrun db2 Hus Hcov.
  rewrite (Hf db db2 Hus). exact (Sk db Hlow db db' Hlow Hrun db2 Hus Hcov).
Qed.

Lemma settles_forEach {A : Type} (l : list A) (body : A -> M unit) :
  (forall x, onlyAppends (body x)) ->
  (forall x, In x l -> settles (body x)) -> settles (forEach l body).
Proof.
  intros Ab. induction l as [|x l IH]; intros Sb; cbn [forEach].
  - apply settles_ret.
  - apply settles_bind.
    + apply Ab.
    + intros _. now apply onlyAppends_forEach.
    + apply Sb. now left.
    + intros _. apply IH. intros y Hy. apply Sb. now right.
Qed.

Lemma settles_ensureLevel (referral : User.t) (referrer : string) (lvl : nat) :
  toLowerCase (User.walletAddress referral) = User.walletAddress referral ->
  toLowerCase referrer = referrer ->
  settles (UserRoutes.ensureLevel referral referrer lvl).
Proof.
  intros Hw Hr db db' _. unfold UserRoutes.ensureLevel, bind, gets.
  rewrite Hw, Hr. intros Hrun db2 _ Hcov.
  assert (Hfound : exists row,
            findOne (Level.hasKey (User.walletAddress referral) referrer lvl)
                    (levels db') = Some row).
  { destruct (findOne _ (levels db)) as [row|] eqn:Hf.
    - injection Hrun as <-. eauto.
    - revert Hrun. unfold saveNewLevel. destruct (Level.validate _); [|discriminate].
      intros [= <-]. cbn [levels]. rewrite findOne_app, Hf.
      unfold findOne, Level.hasKey, Level.create.
      cbn [List.find Level.userAddress Level.referrerAddress Level.level].
      rewrite Hw, Hr, !String.eqb_refl, Nat.eqb_refl. cbn [andb]. eauto. }
  destruct Hfound as [row Hrow]. destruct (Hcov _ _ _ _ Hrow) as [row2 Hrow2].
  now rewrite Hrow2.
Qed.

Lemma referrals_lower (q : User.t -> bool) (coll : list User.t) (x : User.t) :
  lowerWallets coll -> In x (findAll q coll) ->
  toLowerCase (User.walletAddress x) = User.walletAddress x.
Proof.
  intros Hlow Hx. apply In_findAll in Hx as [Hx _].
  unfold lowerWallets in Hlow. rewrite List.Forall_forall in Hlow. now apply Hlow.
Qed.

Lemma settles_createDeeperLevelsFrom (remaining : nat) :
  forall userAddress originalReferrer,
    toLowerCase originalReferrer = originalReferrer ->
    settles (UserRoutes.createDeeperLevelsFrom remaining userAddress originalReferrer).
Proof.
  induction remaining as [|rem IH]; intros u a Ha;
    cbn [UserRoutes.createDeeperLevelsFrom].
  - apply settles_ret.
  - cbv zeta. apply settles_gets.
    + intros d d2 Hus. now rewrite Hus.
    + intros db Hlow. apply settles_forEach.
      * intros x. apply onlyAppends_bind;
          [apply onlyAppends_ensureLevel
          | intros _; apply onlyAppends_createDeeperLevelsFrom].
      * intros x Hx. apply settles_bind.
        -- apply onlyAppends_ensureLevel.
        -- intros _. apply onlyAppends_createDeeperLevelsFrom.
        -- apply settles_ensureLevel; [|exact Ha].
           exact (referrals_lower _ _ _ Hlow Hx).
        -- intros _. now apply IH.
Qed.

End SetupTwice.

(** X20. [POST /:walletAddress/setup-levels] is idempotent.  On a
    directory whose wallet addresses are in lower case, a request that
    completes has only appended relationship rows (users, ledger and the
    rows that were there are untouched), and the same request on the store
    it left completes again with the same count and without any write. *)
Theorem setupLevels_idempotent `{JS : Number} (param : string) (db : DB) (n : nat) :
  lowerWallets (users db) ->
  snd (UserRoutes.setupLevels param db) = UserRoutes.Completed n ->
  appends db (fst (UserRoutes.setupLevels param db))
  /\ UserRoutes.setupLevels param (fst (UserRoutes.setupLevels param db))
     = (fst (UserRoutes.setupLevels param db), UserRoutes.Completed n).
Proof.
  intros Hlow.
  remember (UserRoutes.setupLevels param db) as out eqn:Hout.
  unfold UserRoutes.setupLevels in Hout. cbv zeta in Hout.
  destruct (User.findByWallet (users db) (toLowerCase param)) as [user|] eqn:Hfind;
    [|subst out; discriminate].
  set (direct := findAll (activeReferralOf (toLowerCase param)) (users db)) in *.
  set (m := bind (forEach direct (fun referral =>
                    UserRoutes.ensureLevel referral (toLowerCase param) 1))
                 (fun _ => forEach direct (fun referral =>
                    UserRoutes.createDeeperLevels (User.walletAddress referral)
                      (toLowerCase param) 2))) in *.
  assert (Am : onlyAppends m).
  { apply onlyAppends_bind.
    - apply onlyAppends_forEach. intros x. apply onlyAppends_ensureLevel.
    - intros _. apply onlyAppends_forEach. intros x.
      apply onlyAppends_createDeeperLevelsFrom. }
  assert (Sm : settles m).
  { apply settles_bind.
    - apply onlyAppends_forEach. intros x. apply onlyAppends_ensureLevel.
    - intros _. apply onlyAppends_forEach. intros x.
      apply onlyAppends_createDeeperLevelsFrom.
    - apply settles_forEach; [intros x; apply onlyAppends_ensureLevel|].
      intros x Hx. apply settles_ensureLevel; [|apply toLowerCase_idem].
      exact (referrals_lower _ _ _ Hlow Hx).
    - intros _. apply settles_forEach;
        [intros x; apply onlyAppends_createDeeperLevelsFrom|].
      intros x _. apply settles_createDeeperLevelsFrom, toLowerCase_idem. }
  destruct (m db) as [db' [[]|e]] eqn:Hrun; subst out; cbn [fst snd];
    [|discriminate].
  intros [= <-].
  pose proof (onlyAppends_run _ _ _ _ Am Hrun) as Happ.
  split; [exact Happ|].
  assert (Hus : users db' = users db) by apply Happ.
  unfold UserRoutes.setupLevels. cbv zeta. rewrite Hus, Hfind.
  fold direct. fold m.
  rewrite (Sm db db' Hlow Hrun db' Hus (fun u a l row H => ex_intro _ row H)).
  reflexivity.
Qed.

(** X20, witness: the levels of the root of Scenario A. *)
Lemma setupLevels_idempotent_witness :
  UserRoutes.setupLevels (JS := ZNumber) Scenario.addrR
    (fst (UserRoutes.setupLevels Scenario.addrR Scenario.storeA))
  = (fst (UserRoutes.setupLevels Scenario.addrR Scenario.storeA),
     UserRoutes.Completed 1).
Proof.
  apply (setupLevels_idempotent (JS := ZNumber) Scenario.addrR Scenario.storeA 1).
  - vm_compute. repeat constructor.
  - reflexivity.
Defined.

(** ** Setting up levels covers the team *)

Section SetupCovers.
Context `{JS : Number}.
Open Scope js_scope.

Lemma forEach_each {A : Type} (l : list A) (body : A -> M unit) :
  (forall x, onlyAppends (body x)) ->
  forall db db',
    forEach l body db = (db', Ok tt) ->
    forall x, In x l ->
      exists dbi dbj,
        body x dbi = (dbj, Ok tt) /\ appends db dbi /\ appends dbj db'.
Proof.
  intros Ab. induction l as [|a l IH]; intros db db' Hrun x Hx; [destruct Hx|].
  cbn [forEach] in Hrun. unfold bind in Hrun.
  destruct (body a db) as [db1 [[]|e]] eqn:H1; [|discriminate].
  pose proof (onlyAppends_run _ _ _ _ (Ab a) H1) as A1.
  destruct Hx as [->|Hx].
  - exists db, db1. split; [exact H1|]. split; [apply appends_refl|].
    exact (onlyAppends_run _ _ _ _ (onlyAppends_forEach l body Ab) Hrun).
  - destruct (IH db1 db' Hrun x Hx) as (dbi & dbj & Hb & Hi & Hj).
    exists dbi, dbj. split; [exact Hb|]. split; [|exact Hj].
    exact (appends_trans _ _ _ A1 Hi).
Qed.

Lemma ensureLevel_found (referral : User.t) (referrer : string) (lvl : nat)
    (db db' : DB) :
  toLowerCase (User.walletAddress referral) = User.walletAddress referral ->
  toLowerCase referrer = referrer ->
  UserRoutes.ensureLevel referral referrer lvl db = (db', Ok tt) ->
  exists row,
    findOne (Level.hasKey (User.walletAddress referral) referrer lvl) (levels db')
    = Some row.
Proof.
  intros Hw Hr. unfold UserRoutes.ensureLevel, bind, gets. rewrite Hw, Hr.
  destruct (findOne _ (levels db)) as [row|] eqn:Hf.
  - intros [= <-]. eauto.
  - unfold saveNewLevel. destruct (Level.validate _); [|discriminate].
    intros [= <-]. cbn [levels]. rewrite findOne_app, Hf.
    unfold findOne, Level.hasKey, Level.create.
    cbn [List.find Level.userAddress Level.referrerAddress Level.level].
    rewrite Hw, Hr, !String.eqb_refl, Nat.eqb_refl. cbn [andb]. eauto.
Qed.

Lemma descends_positive (ok : User.t -> bool) (coll : list User.t) (a : string)
    (n : nat) (u : User.t) :
  descends ok coll a n u -> 1 <= n.
Proof. induction 1; lia. Qed.

Lemma lowerWallets_same (db db' : DB) :
  users db' = users db -> lowerWallets (users db) -> lowerWallets (users db').
Proof. now intros ->. Qed.

Lemma deeper_complete (remaining : nat) :
  remaining <= 21 ->
  forall a orig db db',
    lowerWallets (users db) -> toLowerCase a = a -> toLowerCase orig = orig ->
    UserRoutes.createDeeperLevelsFrom remaining a orig db = (db', Ok tt) ->
    forall d u,
      d <= remaining -> descends isActiveUser (users db) a d u ->
      exists row,
        findOne (Level.hasKey (User.walletAddress u) orig (21 - remaining + d))
                (levels db') = Some row.
Proof.
  induction remaining as [|rem IH]; intros Hrem a orig db db' Hlow Ha Ho Hrun d u Hd Hdesc.
  - apply descends_positive in Hdesc. lia.
  - cbn [UserRoutes.createDeeperLevelsFrom] in Hrun. cbv zeta in Hrun.
    unfold bind at 1, gets in Hrun. rewrite Ha in Hrun.
    set (l := findAll (activeReferralOf a) (users db)) in *.
    set (body := fun referral : User.t =>
           bind (UserRoutes.ensureLevel referral orig (21 - rem))
                (fun _ => UserRoutes.createDeeperLevelsFrom rem
                            (User.walletAddress referral) orig)) in *.
    assert (Ab : forall x, onlyAppends (body x)).
    { intros x. apply onlyAppends_bind;
        [apply onlyAppends_ensureLevel
        | intros _; apply onlyAppends_createDeeperLevelsFrom]. }
    assert (Hmember : forall x,
              In x (users db) -> isActiveUser x = true ->
              refersTo (toLowerCase a) x = true -> In x l).
    { intros x Hin Hok Href. apply In_findAll. split; [exact Hin|].
      unfold activeReferralOf. rewrite Ha in Href. rewrite Href. exact Hok. }
    inversion Hdesc as [a0 u0 Hin Hok Href | a0 d0 u0 n Hin Hok Href Hrest]; subst.
    + destruct (forEach_each l body Ab db db' Hrun u (Hmember u Hin Hok Href))
        as (dbi & dbj & Hb & Hi & Hj).
      unfold body, bind in Hb.
      destruct (UserRoutes.ensureLevel u orig (21 - rem) dbi) as [dbk [[]|e]] eqn:He;
        [|discriminate].
      destruct (ensureLevel_found u orig (21 - rem) dbi dbk) as [row Hrow];
        [exact (referrals_lower _ _ _ Hlow (Hmember u Hin Hok Href)) | exact Ho
        | exact He |].
      pose proof (onlyAppends_run _ _ _ _
                    (onlyAppends_createDeeperLevelsFrom rem _ _) Hb) as Hk.
      replace (21 - S rem + 1) with (21 - rem) by lia.
      exact (appends_covered _ _ (appends_trans _ _ _ Hk Hj) _ _ _ _ Hrow).
    + destruct (forEach_each l body Ab db db' Hrun d0 (Hmember d0 Hin Hok Href))
        as (dbi & dbj & Hb & Hi & Hj).
      unfold body, bind in Hb.
      destruct (UserRoutes.ensureLevel d0 orig (21 - rem) dbi) as [dbk [[]|e]] eqn:He;
        [|discriminate].
      pose proof (onlyAppends_run _ _ _ _
                    (onlyAppends_ensureLevel d0 orig (21 - rem)) He) as Hik.
      assert (Husers : users dbk = users db).
      { destruct Hi as (Hu1 & _). destruct Hik as (Hu2 & _). congruence. }
      destruct (IH ltac:(lia) (User.walletAddress d0) orig dbk dbj) with (d := n) (u := u)
        as [row Hrow].
      * now apply (lowerWallets_same db).
      * exact (referrals_lower _ _ _ Hlow (Hmember d0 Hin Hok Href)).
      * exact Ho.
      * exact Hb.
      * lia.
      * now rewrite Husers.
      * replace (21 - S rem + S n) with (21 - rem + n) by lia.
        exact (appends_covered _ _ Hj _ _ _ _ Hrow).
Qed.

End SetupCovers.

(** X21. [setup-levels] covers the team that the direct routes see.  On
    a directory whose wallet addresses are in lower case, after a request
    that completes, the store has a relationship row (user, wallet, n) for
    every user that the tree-direct walk lists at level [n] below the
    wallet; the count it reports is the size of level 1. *)
Theorem setupLevels_covers_team `{JS : Number} (param : string) (db : DB) (k : nat) :
  lowerWallets (users db) ->
  snd (UserRoutes.setupLevels param db) = UserRoutes.Completed k ->
  k = List.length (ReferralRoutes.TreeDirect.getUsersAtLevel db param 1 1)
  /\ forall n e,
       In e (ReferralRoutes.TreeDirect.getUsersAtLevel db param n 1) ->
       exists row,
         In row (levels (fst (UserRoutes.setupLevels param db)))
         /\ keyOf row = (ReferralRoutes.TreeDirect.userAddress e, toLowerCase param, n).
Proof.
  intros Hlow.
  unfold UserRoutes.setupLevels. cbv zeta.
  destruct (User.findByWallet (users db) (toLowerCase param)) as [user|] eqn:Hfind;
    [|discriminate].
  set (direct := findAll (activeReferralOf (toLowerCase param)) (users db)).
  unfold bind at 1 2.
  destruct (forEach direct _ db) as [db1 [[]|e1]] eqn:H1; [|discriminate].
  destruct (forEach direct _ db1) as [db2 [[]|e2]] eqn:H2; [|discriminate].
  cbn [fst snd]. intros [= <-]. split.
  { unfold ReferralRoutes.TreeDirect.getUsersAtLevel. cbn. fold direct.
    now rewrite List.length_map. }
  intros n e He.
  apply (getUsersAtLevel_spec ReferralRoutes.TreeDirect.entryOf) in He
    as (Hn & u & Hbelow & ->).
  cbn [ReferralRoutes.TreeDirect.entryOf ReferralRoutes.TreeDirect.userAddress].
  apply below_descends in Hbelow.
  assert (Hfound : exists row,
            findOne (Level.hasKey (User.walletAddress u) (toLowerCase param) n)
                    (levels db2) = Some row).
  { assert (A1 : forall x, onlyAppends (UserRoutes.ensureLevel x (toLowerCase param) 1))
      by (intros x; apply onlyAppends_ensureLevel).
    assert (A2 : forall x, onlyAppends
                   (UserRoutes.createDeeperLevels (User.walletAddress x)
                      (toLowerCase param) 2))
      by (intros x; apply onlyAppends_createDeeperLevelsFrom).
    pose proof (onlyAppends_run _ _ _ _ (onlyAppends_forEach direct _ A1) H1) as App1.
    pose proof (onlyAppends_run _ _ _ _ (onlyAppends_forEach direct _ A2) H2) as App2.
    inversion Hbelow as [a0 u0 Hin Hok Href | a0 d0 u0 m Hin Hok Href Hrest]; subst.
    - assert (Hu : In u direct).
      { apply In_findAll. split; [exact Hin|]. unfold activeReferralOf.
        rewrite Href. exact Hok. }
      destruct (forEach_each direct _ A1 db db1 H1 u Hu) as (dbi & dbj & Hb & Hi & Hj).
      destruct (ensureLevel_found u (toLowerCase param) 1 dbi dbj) as [row Hrow];
        [exact (referrals_lower _ _ _ Hlow Hu) | apply toLowerCase_idem | exact Hb |].
      exact (appends_covered _ _ (appends_trans _ _ _ Hj App2) _ _ _ _ Hrow).
    - assert (Hd : In d0 direct).
      { apply In_findAll. split; [exact Hin|]. unfold activeReferralOf.
        rewrite Href. exact Hok. }
      destruct (forEach_each direct _ A2 db1 db2 H2 d0 Hd) as (dbi & dbj & Hb & Hi & Hj).
      assert (Husers : users dbi = users db).
      { destruct App1 as (Hu1 & _). destruct Hi as (Hu2 & _). congruence. }
      destruct (deeper_complete 20 ltac:(lia) (User.walletAddress d0) (toLowerCase param)
                  dbi dbj) with (d := m) (u := u) as [row Hrow].
      + now apply (lowerWallets_same db).
      + exact (referrals_lower _ _ _ Hlow Hd).
      + apply toLowerCase_idem.
      + exact Hb.
      + lia.
      + now rewrite Husers.
      + replace (S m) with (21 - 20 + m) by lia.
        exact (appends_covered _ _ Hj _ _ _ _ Hrow). }
  destruct Hfound as [row Hrow]. exists row.
  apply findOne_Some in Hrow as [Hin Hkey]. split; [exact Hin|].
  now apply hasKey_keyOf.
Qed.

(** X21, witness: U2, two levels below the root of Scenario A. *)
Lemma setupLevels_covers_team_witness :
  exists row,
    In row (levels (fst (UserRoutes.setupLevels (JS := ZNumber) Scenario.addrR
                           Scenario.storeA)))
    /\ keyOf row = (Scenario.u2, Scenario.r, 2).
Proof.
  destruct (setupLevels_covers_team (JS := ZNumber) Scenario.addrR Scenario.storeA 1)
    as [_ Hall].
  - vm_compute. repeat constructor.
  - reflexivity.
  - apply (Hall 2 (ReferralRoutes.TreeDirect.entryOf Scenario.userU2 2 0%Z)).
    vm_compute. left. reflexivity.
Defined.

(** ** The upline route *)

Section UplineRoute.
Context `{JS : Number}.

Import ReferralRoutes.

Lemma uplineLoop_chain (db : DB) (w : string) (n : nat) :
  forall cur user lvl,
    User.findByWallet (users db) cur = Some user ->
    List.map Upline.userAddress
      (Upline.uplineLoop db w n (User.referrerAddress user) lvl)
    = whileKnown (users db) (EventListener.uplineFrom (users db) cur n).
Proof.
  induction n as [|n IH]; intros cur user lvl Hcur; [reflexivity|].
  cbn [Upline.uplineLoop EventListener.uplineFrom]. rewrite Hcur.
  destruct (User.referrerAddress user) as [r|]; [|reflexivity].
  destruct (nonEmpty r); [|reflexivity].
  cbn [whileKnown].
  destruct (User.findByWallet (users db) r) as [up|] eqn:Hr; [|reflexivity].
  cbn [List.map Upline.userAddress]. f_equal. now apply IH.
Qed.

Lemma uplineLoop_levels (db : DB) (w : string) (n : nat) :
  forall cur lvl,
    List.map Upline.level (Upline.uplineLoop db w n cur lvl)
    = seq lvl (List.length (Upline.uplineLoop db w n cur lvl))
    /\ List.length (Upline.uplineLoop db w n cur lvl) <= n.
Proof.
  induction n as [|n IH]; intros cur lvl; [split; [reflexivity | simpl; lia]|].
  cbn [Upline.uplineLoop].
  destruct cur as [c|]; [|split; [reflexivity | simpl; lia]].
  destruct (nonEmpty c); [|split; [reflexivity | simpl; lia]].
  destruct (User.findByWallet (users db) c) as [up|];
    [|split; [reflexivity | simpl; lia]].
  destruct (IH (User.referrerAddress up) (S lvl)) as [Hl Hn].
  cbn [List.map List.length Upline.level seq]. rewrite Hl. split; [reflexivity | lia].
Qed.

Lemma uplineLoop_entries (db : DB) (w : string) (n : nat) :
  forall cur lvl,
    Forall (fun e =>
              exists up,
                User.findByWallet (users db) (Upline.userAddress e) = Some up
                /\ Upline.status e = User.status up
                /\ Upline.registrationTime e = User.registrationTime up
                /\ Upline.depositCount e = User.getDepositCount up)
           (Upline.uplineLoop db w n cur lvl).
Proof.
  induction n as [|n IH]; intros cur lvl; [constructor|].
  cbn [Upline.uplineLoop].
  destruct cur as [c|]; [|constructor].
  destruct (nonEmpty c); [|constructor].
  destruct (User.findByWallet (users db) c) as [up|] eqn:Hc; [|constructor].
  constructor; [|apply IH]. exists up. cbn. auto.
Qed.

End UplineRoute.

(** X22. The upline route follows the chain of the event listener.  For a
    known wallet, [GET /upline/:walletAddress] lists the addresses of
    [getUplineChain] (with the same bound) up to the first address that is
    not a user, numbers them 1, 2, 3, ... without a gap, lists no more
    than [maxLevels] of them, and every entry carries the status, the
    registration time and the deposit count of the user listed. *)
Theorem upline_follows_chain `{JS : Number} (param : string) (levelsQuery : option Z)
    (db : DB) :
  User.findByWallet (users db) (toLowerCase param) <> None ->
  let bound := Z.to_nat (ReferralRoutes.Upline.maxLevelsOf levelsQuery) in
  exists chain,
    ReferralRoutes.Upline.upline param levelsQuery db
    = ReferralRoutes.Upline.Json (toLowerCase param) chain (List.length chain)
    /\ List.map ReferralRoutes.Upline.userAddress chain
       = whileKnown (users db)
           (EventListener.uplineFrom (users db) (toLowerCase param) bound)
    /\ List.map ReferralRoutes.Upline.level chain = seq 1 (List.length chain)
    /\ List.length chain <= bound
    /\ Forall (fun e =>
                 exists up,
                   User.findByWallet (users db) (ReferralRoutes.Upline.userAddress e)
                   = Some up
                   /\ ReferralRoutes.Upline.status e = User.status up
                   /\ ReferralRoutes.Upline.registrationTime e
                      = User.registrationTime up
                   /\ ReferralRoutes.Upline.depositCount e = User.getDepositCount up)
              chain.
Proof.
  intros Hknown. cbv zeta. unfold ReferralRoutes.Upline.upline. cbv zeta.
  destruct (User.findByWallet (users db) (toLowerCase param)) as [user|] eqn:Hfind;
    [|contradiction].
  eexists. split; [reflexivity|]. split; [|split; [|split]].
  - now apply uplineLoop_chain.
  - apply uplineLoop_levels.
  - apply uplineLoop_levels.
  - apply uplineLoop_entries.
Qed.

(** X22, witness: the upline of U2 in Scenario A. *)
Lemma upline_follows_chain_witness :
  exists chain,
    ReferralRoutes.Upline.upline (JS := ZNumber) Scenario.addrU2 None Scenario.storeA
    = ReferralRoutes.Upline.Json Scenario.u2 chain (List.length chain)
    /\ List.map ReferralRoutes.Upline.userAddress chain = [Scenario.u1; Scenario.r].
Proof.
  destruct (upline_follows_chain (JS := ZNumber) Scenario.addrU2 None Scenario.storeA)
    as (chain & Hrun & Haddr & _).
  - intros H. vm_compute in H. discriminate H.
  - exists chain. split; [exact Hrun|]. rewrite Haddr. reflexivity.
Defined.

(** ** The investment helper along the chain *)

Section HelperChain.
Context `{JS : Number}.
Open Scope js_scope.

Lemma hasKey_unique (k k' : string * string * nat) (row : Level.t) :
  Level.hasKey (fst (fst k)) (snd (fst k)) (snd k) row = true ->
  Level.hasKey (fst (fst k')) (snd (fst k')) (snd k') row = true ->
  k = k'.
Proof.
  destruct k as [[u a] l], k' as [[u' a'] l']. cbn [fst snd].
  intros H1 H2. apply hasKey_keyOf in H1. apply hasKey_keyOf in H2. congruence.
Qed.

Lemma findOne_updateFirst_other {A : Type} (q q' : A -> bool) (f : A -> A)
    (l : list A) :
  (forall x, q x = true -> q' x = false) -> (forall x, q' (f x) = q' x) ->
  findOne q' (updateFirst q f l) = findOne q' l.
Proof.
  intros Hdisj Hf. unfold findOne. induction l as [|x l IH]; [reflexivity|].
  cbn [updateFirst]. destruct (q x) eqn:Hq; cbn [List.find].
  - now rewrite Hf, (Hdisj x Hq).
  - destruct (q' x); [reflexivity | exact IH].
Qed.

(** One round: the row under the key is the expected one, every other
    key finds what it found. *)
Lemma round_spec (u r : string) (lvl : nat) (amt : num) (t : N) (db : DB) :
  toLowerCase u = u -> toLowerCase r = r ->
  nonEmpty u = true -> nonEmpty r = true -> 1 <= lvl <= 21 ->
  exists db1,
    match findOne (Level.hasKey (toLowerCase u) (toLowerCase r) lvl)
                  (levels db) with
    | None => saveNewLevel (Level.mk (toLowerCase u) (toLowerCase r) lvl amt zero true t)
    | Some _ =>
      setLevels (updateFirst (Level.hasKey (toLowerCase u) (toLowerCase r) lvl)
                             (Level.addInvestment amt))
    end db = (db1, Ok tt)
    /\ users db1 = users db /\ investments db1 = investments db
    /\ findOne (Level.hasKey u r lvl) (levels db1)
       = Some (roundRow (levels db) u r lvl amt t)
    /\ forall u' r' lvl',
         (u', r', lvl') <> (u, r, lvl) ->
         findOne (Level.hasKey u' r' lvl') (levels db1)
         = findOne (Level.hasKey u' r' lvl') (levels db).
Proof.
  intros Hu Hr Hnu Hnr Hlvl. unfold roundRow. rewrite Hu, Hr.
  destruct (findOne (Level.hasKey u r lvl) (levels db)) as [row|] eqn:Hf.
  - eexists. split; [reflexivity|]. cbn [users levels investments].
    split; [reflexivity|]. split; [reflexivity|]. split.
    + apply (findOne_updateFirst _ _ _ _ Hf).
      now destruct (findOne_Some _ _ _ Hf).
    + intros u' r' lvl' Hne. apply findOne_updateFirst_other; [|reflexivity].
      intros x Hx. destruct (Level.hasKey u' r' lvl' x) eqn:Hx'; [|reflexivity].
      destruct Hne. symmetry.
      exact (hasKey_unique (u, r, lvl) (u', r', lvl') x Hx Hx').
  - unfold saveNewLevel, Level.validate.
    cbn [Level.userAddress Level.referrerAddress Level.level].
    rewrite ?Hu, ?Hr, Hnu, Hnr.
    replace (1 <=? lvl) with true by (symmetry; apply Nat.leb_le; lia).
    replace (lvl <=? 21) with true by (symmetry; apply Nat.leb_le; lia).
    cbn [andb]. eexists. split; [reflexivity|]. cbn [users levels investments].
    split; [reflexivity|]. split; [reflexivity|].
    assert (Hnew : Level.hasKey u r lvl (Level.mk u r lvl amt zero true t) = true).
    { unfold Level.hasKey. cbn. now rewrite !String.eqb_refl, Nat.eqb_refl. }
    split.
    + rewrite findOne_app, Hf. unfold findOne. cbn [List.find]. now rewrite Hnew.
    + intros u' r' lvl' Hne. rewrite findOne_app.
      destruct (findOne (Level.hasKey u' r' lvl') (levels db)); [reflexivity|].
      unfold findOne. cbn [List.find].
      destruct (Level.hasKey u' r' lvl' _) eqn:Hx'; [|reflexivity].
      destruct Hne. symmetry.
      exact (hasKey_unique (u, r, lvl) (u', r', lvl') _ Hnew Hx').
Qed.

Lemma referrer_lower (coll : list User.t) (a : string) (v : User.t) (r : string) :
  lowerReferrers coll -> User.findByWallet coll a = Some v ->
  User.referrerAddress v = Some r -> toLowerCase r = r.
Proof.
  intros Hlow Hfind Hr. apply findOne_Some in Hfind as [Hin _].
  unfold lowerReferrers in Hlow. rewrite List.Forall_forall in Hlow.
  exact (Hlow v Hin r Hr).
Qed.

Lemma climb_spec (u : string) (amt : num) (t : N) (remaining : nat) :
  toLowerCase u = u -> nonEmpty u = true -> remaining <= 21 ->
  forall r db,
    toLowerCase r = r -> nonEmpty r = true -> lowerReferrers (users db) ->
    exists db',
      InvestmentRoutes.climb remaining u amt t r db = (db', Ok tt)
      /\ users db' = users db /\ investments db' = investments db
      /\ (forall j c,
            nth_error (visited (users db) r remaining) j = Some c ->
            findOne (Level.hasKey u c (22 - remaining + j)) (levels db')
            = Some (roundRow (levels db) u c (22 - remaining + j) amt t))
      /\ (forall u' r' lvl',
            (forall j c, nth_error (visited (users db) r remaining) j = Some c ->
                         (u', r', lvl') <> (u, c, 22 - remaining + j)) ->
            findOne (Level.hasKey u' r' lvl') (levels db')
            = findOne (Level.hasKey u' r' lvl') (levels db)).
Proof.
  intros Hu Hnu. induction remaining as [|rem IH]; intros Hrem r db Hr Hnr Hlow.
  - exists db. cbn [InvestmentRoutes.climb visited]. split; [reflexivity|].
    split; [reflexivity|]. split; [reflexivity|]. split; [|reflexivity].
    intros [|j] c; discriminate.
  - cbn [InvestmentRoutes.climb]. cbv zeta.
    destruct (round_spec u r (21 - rem) amt t db Hu Hr Hnu Hnr ltac:(lia))
      as (db1 & Hround & Hu1 & Hi1 & Hkey1 & Hframe1).
    unfold bind at 1, gets. unfold bind at 1. rewrite Hround.
    unfold bind at 1, gets. rewrite Hu1.
    replace (22 - S rem) with (21 - rem) by lia.
    cbn [visited EventListener.uplineFrom].
    assert (Hstop :
      exists db', (db1, Ok tt) = (db', Ok tt)
        /\ users db' = users db /\ investments db' = investments db
        /\ (forall j c, nth_error [r] j = Some c ->
              findOne (Level.hasKey u c (21 - rem + j)) (levels db')
              = Some (roundRow (levels db) u c (21 - rem + j) amt t))
        /\ (forall u' r' lvl',
              (forall j c, nth_error [r] j = Some c ->
                           (u', r', lvl') <> (u, c, 21 - rem + j)) ->
              findOne (Level.hasKey u' r' lvl') (levels db')
              = findOne (Level.hasKey u' r' lvl') (levels db))).
    { exists db1. split; [reflexivity|]. split; [exact Hu1|]. split; [exact Hi1|]. split.
      - intros [|[|j]] c; try discriminate. intros [= <-].
        rewrite Nat.add_0_r. exact Hkey1.
      - intros u' r' lvl' Hne. apply Hframe1.
        specialize (Hne 0 r eq_refl). now rewrite Nat.add_0_r in Hne. }
    destruct rem as [|rem'].
    { (* the last round: whatever the lookup finds, the loop ends *)
      cbn [EventListener.uplineFrom].
      destruct (User.findByWallet (users db) r) as [v|]; [|exact Hstop].
      destruct (User.referrerAddress v) as [r'|]; [|exact Hstop].
      destruct (nonEmpty r'); exact Hstop. }
    cbn [EventListener.uplineFrom].
    destruct (User.findByWallet (users db) r) as [v|] eqn:Hv; [|exact Hstop].
    destruct (User.referrerAddress v) as [r'|] eqn:Hr'; [|exact Hstop].
    destruct (nonEmpty r') eqn:Hnr'; [|exact Hstop].
    assert (Hlr' : toLowerCase r' = r') by exact (referrer_lower _ _ _ _ Hlow Hv Hr').
    destruct (IH ltac:(lia) r' db1 Hlr' Hnr') as (db' & Hrun & Hu' & Hi' & Hkeys & Hframe).
    { now rewrite Hu1. }
    exists db'. split; [exact Hrun|]. split; [congruence|]. split; [congruence|].
    rewrite Hu1 in Hkeys, Hframe. cbn [visited] in Hkeys, Hframe.
    replace (22 - S rem') with (21 - S rem' + 1) in Hkeys, Hframe by lia.
    split.
    + intros [|j] c Hj.
      * injection Hj as <-. rewrite Nat.add_0_r.
        rewrite Hframe; [rewrite <- (Nat.add_0_r (21 - S rem')) at 1;
                         rewrite Nat.add_0_r; exact Hkey1|].
        intros j c _ [= _ Hl]. lia.
      * cbn [nth_error] in Hj. specialize (Hkeys j c Hj).
        replace (21 - S rem' + S j) with (21 - S rem' + 1 + j) by lia.
        rewrite Hkeys. f_equal. unfold roundRow. rewrite Hframe1; [reflexivity|].
        intros [= _ Hl]. lia.
    + intros u' r'' lvl' Hne. rewrite Hframe.
      * apply Hframe1. specialize (Hne 0 r eq_refl). now rewrite Nat.add_0_r in Hne.
      * intros j c Hj. specialize (Hne (S j) c Hj).
        now replace (21 - S rem' + S j) with (21 - S rem' + 1 + j) in Hne by lia.
Qed.

End HelperChain.

(** X23. The helper of the investment routes walks the chain of
    referrers.  For a known investor with a lower-case address, on a
    directory whose stored referrers are in lower case, it logs no error
    and leaves users and ledger alone; for the [j]-th referrer [c] of the
    chain that [getUplineChain] computes (at most 21 of them) the row
    (investor, c, j + 1) is afterwards the row that was there with the
    amount added to its [totalInvestment], active or not, or else a new
    active row holding the amount; a lookup of any other key finds what it
    found before. *)
Theorem helper_walks_chain `{JS : Number} (userAddress : string) (amount : num)
    (db : DB) (investor : User.t) :
  toLowerCase userAddress = userAddress -> nonEmpty userAddress = true ->
  lowerReferrers (users db) ->
  User.findByWallet (users db) userAddress = Some investor ->
  let out := InvestmentRoutes.updateLevelInvestments userAddress amount db in
  let chain := EventListener.uplineFrom (users db) userAddress 21 in
  snd out = None
  /\ users (fst out) = users db /\ investments (fst out) = investments db
  /\ (forall j c,
        nth_error chain j = Some c ->
        findOne (Level.hasKey userAddress c (S j)) (levels (fst out))
        = Some (roundRow (levels db) userAddress c (S j) amount
                  (User.registrationTime investor)))
  /\ (forall u' r' lvl',
        (forall j c, nth_error chain j = Some c ->
                     (u', r', lvl') <> (userAddress, c, S j)) ->
        findOne (Level.hasKey u' r' lvl') (levels (fst out))
        = findOne (Level.hasKey u' r' lvl') (levels db)).
Proof.
  intros Hu Hnu Hlow Hfind. cbv zeta.
  unfold InvestmentRoutes.updateLevelInvestments, caught, bind, gets.
  rewrite Hfind. cbn [EventListener.uplineFrom]. rewrite Hfind.
  assert (Hnothing :
    snd (db, @None error) = None /\ users (fst (db, @None error)) = users db
    /\ investments (fst (db, @None error)) = investments db
    /\ (forall j c, nth_error (@nil string) j = Some c ->
          findOne (Level.hasKey userAddress c (S j)) (levels (fst (db, @None error)))
          = Some (roundRow (levels db) userAddress c (S j) amount
                    (User.registrationTime investor)))
    /\ (forall u' r' lvl',
          (forall j c, nth_error (@nil string) j = Some c ->
                       (u', r', lvl') <> (userAddress, c, S j)) ->
          findOne (Level.hasKey u' r' lvl') (levels (fst (db, @None error)))
          = findOne (Level.hasKey u' r' lvl') (levels db))).
  { cbn [fst snd]. repeat split; auto. intros [|j] c; discriminate. }
  destruct (User.referrerAddress investor) as [r|] eqn:Hr; [|exact Hnothing].
  unfold ret. destruct (nonEmpty r) eqn:Hnr; [|exact Hnothing].
  destruct (climb_spec userAddress amount (User.registrationTime investor) 21 Hu Hnu
              ltac:(lia) r db (referrer_lower _ _ _ _ Hlow Hfind Hr) Hnr Hlow)
    as (db' & Hrun & Hu' & Hi' & Hkeys & Hframe).
  rewrite Hrun. cbn [fst snd]. cbn [visited] in Hkeys, Hframe.
  repeat split; auto.
Qed.

(** X23, witness: a deposit of U2 in Scenario A; the first referrer of
    the chain is U1. *)
Lemma helper_walks_chain_witness :
  findOne (Level.hasKey Scenario.u2 Scenario.u1 1)
    (levels (fst (InvestmentRoutes.updateLevelInvestments (JS := ZNumber)
                    Scenario.u2 100%Z Scenario.storeA)))
  = Some (roundRow (levels Scenario.storeA) Scenario.u2 Scenario.u1 1 100%Z
            (User.registrationTime Scenario.userU2)).
Proof.
  destruct (helper_walks_chain (JS := ZNumber) Scenario.u2 100%Z Scenario.storeA
              Scenario.userU2) as (_ & _ & _ & Hkeys & _).
  - reflexivity.
  - reflexivity.
  - vm_compute. repeat constructor; intros r' [= <-]; reflexivity.
  - reflexivity.
  - apply (Hkeys 0 Scenario.u1). reflexivity.
Defined.

(** ** Stored addresses are in lower case *)

Section Normalised.
Context `{JS : Number}.
Open Scope js_scope.

Lemma Forall_updateFirst {A : Type} (P : A -> Prop) (q : A -> bool) (f : A -> A)
    (l : list A) :
  (forall x, P x -> P (f x)) -> Forall P l -> Forall P (updateFirst q f l).
Proof.
  intros Hf. induction 1 as [|x l Hx Hl IH]; cbn [updateFirst]; [constructor|].
  destruct (q x); constructor; auto.
Qed.

Lemma Forall_updateAll {A : Type} (P : A -> Prop) (q : A -> bool) (f : A -> A)
    (l : list A) :
  (forall x, P x -> P (f x)) -> Forall P l -> Forall P (updateAll q f l).
Proof.
  intros Hf. unfold updateAll. induction 1 as [|x l Hx Hl IH]; simpl; constructor; auto.
  destruct (q x); auto.
Qed.

Lemma Forall_snoc {A : Type} (P : A -> Prop) (l : list A) (x : A) :
  Forall P l -> P x -> Forall P (l ++ [x]).
Proof. intros Hl Hx. apply Forall_app. split; [exact Hl | now constructor]. Qed.

Lemma lowerUser_create (w : string) (r : option string) (now : N) :
  lowerUser (User.create w r now).
Proof.
  unfold lowerUser, User.create. cbn. split; [apply toLowerCase_idem|].
  destruct r as [r|]; cbn; [|discriminate]. intros r' [= <-]. apply toLowerCase_idem.
Qed.

Lemma lowerRow_create (u a : string) (lvl : nat) (now : N) :
  lowerRow (Level.create u a lvl now).
Proof. split; apply toLowerCase_idem. Qed.

Lemma normalised_setUsers (f : list User.t -> list User.t) :
  (forall l, Forall lowerUser l -> Forall lowerUser (f l)) ->
  preserves normalised (setUsers f).
Proof.
  intros Hf db db' o [= <- _] (Hu & Hl & Hi). repeat split; auto. now apply Hf.
Qed.

Lemma normalised_setLevels (f : list Level.t -> list Level.t) :
  (forall l, Forall lowerRow l -> Forall lowerRow (f l)) ->
  preserves normalised (setLevels f).
Proof.
  intros Hf db db' o [= <- _] (Hu & Hl & Hi). repeat split; auto. now apply Hf.
Qed.

Lemma normalised_setInvestments (f : list Investment.t -> list Investment.t) :
  (forall l, Forall lowerEntry l -> Forall lowerEntry (f l)) ->
  preserves normalised (setInvestments f).
Proof.
  intros Hf db db' o [= <- _] (Hu & Hl & Hi). repeat split; auto. now apply Hf.
Qed.

Lemma normalised_saveNewUser (u : User.t) :
  lowerUser u -> preserves normalised (saveNewUser u).
Proof.
  intros Hu. unfold saveNewUser. destruct (negb _); [apply preserves_throw|].
  apply preserves_bind; [apply preserves_gets|]. intros coll.
  destruct (existsb _ _); [apply preserves_throw|].
  apply normalised_setUsers. intros l Hl. now apply Forall_snoc.
Qed.

Lemma normalised_saveNewLevel (r : Level.t) :
  lowerRow r -> preserves normalised (saveNewLevel r).
Proof.
  intros Hr. unfold saveNewLevel. destruct (Level.validate r); [|apply preserves_throw].
  apply normalised_setLevels. intros l Hl. now apply Forall_snoc.
Qed.

Lemma normalised_saveNewInvestment (i : Investment.t) :
  lowerEntry i -> preserves normalised (saveNewInvestment i).
Proof.
  intros Hi. unfold saveNewInvestment. destruct (negb _); [apply preserves_throw|].
  apply preserves_bind; [apply preserves_gets|]. intros coll.
  destruct (Investment.txExists _ _); [apply preserves_throw|].
  apply normalised_setInvestments. intros l Hl. now apply Forall_snoc.
Qed.

Lemma normalised_addDeposit (w : string) (a : num) (tx : string) (blk : nat) (now : N) :
  preserves normalised (addDeposit w a tx blk now).
Proof.
  unfold addDeposit. destruct (negb _); [apply preserves_throw|].
  apply normalised_setUsers. intros l. apply Forall_updateFirst. now intros x Hx.
Qed.

Lemma normalised_createLevelRelationships (u : string) (r : option string) (now : N) :
  preservesH normalised (EventListener.createLevelRelationships u r now).
Proof.
  apply preservesH_caught, preserves_bind.
  - unfold EventListener.getUplineChain.
    apply preserves_bind; [apply preserves_lowerOf|]. intros a.
    apply preserves_bind; [apply preserves_gets|]. intros coll. apply preserves_ret.
  - intros chain. generalize 0.
    induction chain as [|a rest IH]; intros i; cbn [EventListener.createFrom].
    + apply preserves_ret.
    + destruct (i <? 21); [|apply preserves_ret].
      apply preserves_bind; [|intros _; apply IH].
      unfold EventListener.createRelation. cbv zeta.
      apply preserves_bind; [apply preserves_gets|]. intros [row|];
        [apply preserves_ret | apply normalised_saveNewLevel, lowerRow_create].
Qed.

Lemma normalised_handleRegistrationEvent (u : string) (r : option string) (now : N) :
  preservesH normalised (EventListener.handleRegistrationEvent u r now).
Proof.
  unfold EventListener.handleRegistrationEvent. apply preservesH_caught.
  apply preserves_bind; [apply preserves_gets|]. intros user.
  apply preserves_bind.
  - destruct user; (apply preserves_bind; [apply preserves_lowerOf|]); intros x.
    + apply normalised_setUsers. intros l. apply Forall_updateFirst.
      intros y [Hw _]. split; [exact Hw|]. cbn. intros r' [= <-].
      apply toLowerCase_idem.
    + apply normalised_saveNewUser, lowerUser_create.
  - intros _. apply preserves_call, normalised_createLevelRelationships.
Qed.

Lemma normalised_updateLevelInvestments (u : string) (a : num) :
  preservesH normalised (EventListener.updateLevelInvestments u a).
Proof.
  unfold EventListener.updateLevelInvestments. apply preservesH_caught.
  apply normalised_setLevels. intros l. apply Forall_updateAll. now intros x Hx.
Qed.

Lemma normalised_handleDepositEvent (u : string) (a : num) (token : bool) (blk : nat)
    (tx : string) (now : N) :
  preservesH normalised (EventListener.handleDepositEvent u a token blk tx now).
Proof.
  unfold EventListener.handleDepositEvent. apply preservesH_caught.
  apply preserves_bind; [apply preserves_gets|]. intros user.
  apply preserves_bind;
    [destruct user; [apply preserves_ret
                    | apply normalised_saveNewUser, lowerUser_create]|].
  intros _. apply preserves_bind; [apply normalised_addDeposit|].
  intros _. apply preserves_bind;
    [apply normalised_saveNewInvestment; apply toLowerCase_idem|].
  intros _. apply preserves_call, normalised_updateLevelInvestments.
Qed.

Lemma normalised_handleTransactionEvent (u from : string) (v : num) (lvl : nat) :
  preservesH normalised (EventListener.handleTransactionEvent u from v lvl).
Proof.
  unfold EventListener.handleTransactionEvent, EventListener.updateLevelEarnings.
  apply preservesH_caught, preserves_call, preservesH_caught.
  apply normalised_setLevels. intros l. apply Forall_updateFirst. now intros x Hx.
Qed.

Lemma normalised_ensureLevel (referral : User.t) (referrer : string) (lvl : nat) :
  preserves normalised (UserRoutes.ensureLevel referral referrer lvl).
Proof.
  unfold UserRoutes.ensureLevel.
  apply preserves_bind; [apply preserves_gets|]. intros [row|];
    [apply preserves_ret | apply normalised_saveNewLevel, lowerRow_create].
Qed.

Lemma normalised_createDeeperLevelsFrom (remaining : nat) :
  forall u a, preserves normalised (UserRoutes.createDeeperLevelsFrom remaining u a).
Proof.
  induction remaining as [|rem IH]; intros u a; cbn [UserRoutes.createDeeperLevelsFrom].
  - apply preserves_ret.
  - cbv zeta. apply preserves_bind; [apply preserves_gets|]. intros l.
    apply preserves_forEach. intros x.
    apply preserves_bind; [apply normalised_ensureLevel | intros _; apply IH].
Qed.

Lemma normalised_setupLevels (w : string) (db : DB) :
  normalised db -> normalised (fst (UserRoutes.setupLevels w db)).
Proof.
  intros Hdb. unfold UserRoutes.setupLevels. cbv zeta.
  destruct (User.findByWallet _ _); [|exact Hdb].
  match goal with
  | |- context [match ?m db with _ => _ end] =>
    assert (Hm : preserves normalised m); [|destruct (m db) as [db' [[]|e]] eqn:Hrun]
  end.
  - apply preserves_bind.
    + apply preserves_forEach. intros x. apply normalised_ensureLevel.
    + intros _. apply preserves_forEach. intros x.
      apply normalised_createDeeperLevelsFrom.
  - exact (Hm _ _ _ Hrun Hdb).
  - exact (Hm _ _ _ Hrun Hdb).
Qed.

Lemma normalised_climb (remaining : nat) :
  forall u a t r, preserves normalised (InvestmentRoutes.climb remaining u a t r).
Proof.
  induction remaining as [|rem IH]; intros u a t r; cbn [InvestmentRoutes.climb].
  - apply preserves_ret.
  - cbv zeta. apply preserves_bind; [apply preserves_gets|]. intros found.
    apply preserves_bind.
    + destruct found.
      * apply normalised_setLevels. intros l. apply Forall_updateFirst. now intros x Hx.
      * apply normalised_saveNewLevel. split; apply toLowerCase_idem.
    + intros _. apply preserves_bind; [apply preserves_gets|]. intros [v|].
      * destruct (User.referrerAddress v) as [r'|]; [|apply preserves_ret].
        destruct (nonEmpty r'); [apply IH | apply preserves_ret].
      * apply preserves_ret.
Qed.

Lemma normalised_helper (u : string) (a : num) :
  preservesH normalised (InvestmentRoutes.updateLevelInvestments u a).
Proof.
  apply preservesH_caught.
  apply preserves_bind; [apply preserves_gets|]. intros [v|]; [|apply preserves_ret].
  destruct (User.referrerAddress v) as [r|]; [|apply preserves_ret].
  destruct (nonEmpty r); [apply normalised_climb | apply preserves_ret].
Qed.

Lemma normalised_cleanup (cutoff : N) (db : DB) :
  normalised db -> normalised (SyncService.cleanupInactiveRecords cutoff db).
Proof.
  intros (Hu & Hl & Hi). unfold SyncService.cleanupInactiveRecords. cbv zeta.
  repeat split; cbn [users levels investments]; auto.
  - apply Forall_updateAll; [|exact Hu]. now intros x Hx.
  - apply Forall_updateAll; [|exact Hl]. now intros x Hx.
Qed.

Lemma normalised_perform (db : DB) (op : operation) :
  normalised db -> normalised (perform db op).
Proof.
  destruct op as [u r now | u a token blk tx now | u from v lvl | w | u a | now];
    cbn [perform].
  - apply normalised_handleRegistrationEvent.
  - apply normalised_handleDepositEvent.
  - apply normalised_handleTransactionEvent.
  - apply normalised_setupLevels.
  - apply normalised_helper.
  - apply normalised_cleanup.
Qed.

Lemma normalised_run (ops : list operation) :
  forall db, normalised db -> normalised (run ops db).
Proof.
  unfold run. induction ops as [|op ops IH]; intros db Hdb; [exact Hdb|].
  cbn [fold_left]. apply IH. now apply normalised_perform.
Qed.

Lemma normalised_createUser (w r : option string) (now : N) (db : DB) :
  normalised db -> normalised (fst (UserRoutes.createUser w r now db)).
Proof.
  intros Hdb. unfold UserRoutes.createUser.
  destruct w as [w|]; [|exact Hdb].
  destruct (negb _); [exact Hdb|].
  destruct (User.findByWallet _ _); [exact Hdb|].
  match goal with
  | |- context [saveNewUser ?u db] =>
    pose proof (normalised_saveNewUser u (lowerUser_create _ _ _)) as Hm;
      destruct (saveNewUser u db) as [db' [[]|e]] eqn:Hrun
  end; exact (Hm _ _ _ Hrun Hdb).
Qed.

Lemma normalised_recordInvestment (u : option string) (a : option num)
    (tx : option string) (blk : option nat) (ty : option Investment.type_t)
    (t1 t2 : N) (db : DB) :
  normalised db ->
  normalised (fst (InvestmentRoutes.recordInvestment u a tx blk ty t1 t2 db)).
Proof.
  intros Hdb. unfold InvestmentRoutes.recordInvestment.
  destruct u as [u|]; [|exact Hdb]. destruct a as [a|]; [|exact Hdb].
  destruct tx as [tx|]; [|exact Hdb].
  destruct (_ || _); [exact Hdb|].
  destruct (findOne _ _); [exact Hdb|].
  destruct (User.findByWallet _ _); [|exact Hdb]. cbv zeta.
  match goal with
  | |- context [match ?m db with _ => _ end] =>
    assert (Hm : preserves normalised m); [|destruct (m db) as [db' [[]|e]] eqn:Hrun]
  end.
  - apply preserves_bind;
      [apply normalised_saveNewInvestment; apply toLowerCase_idem|].
    intros _. apply preserves_bind; [apply normalised_addDeposit|].
    intros _. apply preserves_call, normalised_helper.
  - exact (Hm _ _ _ Hrun Hdb).
  - exact (Hm _ _ _ Hrun Hdb).
Qed.

End Normalised.

(** X24. Stored addresses stay in lower case.  A store in which every
    wallet and referrer address of a user, both addresses of a
    relationship row and the address of a ledger entry are in lower case
    stays such a store under every sequence of listener events, set-up
    requests, propagated investments and housekeeping runs, and under the
    routes that create a user, record an investment and set a status. *)
Theorem addresses_stay_lowercase `{JS : Number} (ops : list operation) (db : DB) :
  normalised db ->
  normalised (run ops db)
  /\ lowerWallets (users (run ops db))
  /\ lowerReferrers (users (run ops db))
  /\ (forall w r now, normalised (fst (UserRoutes.createUser w r now db)))
  /\ (forall u a tx blk ty t1 t2,
        normalised (fst (InvestmentRoutes.recordInvestment u a tx blk ty t1 t2 db)))
  /\ (forall w st, normalised (fst (UserRoutes.updateStatus w st db)))
  /\ (forall tx st, normalised (fst (InvestmentRoutes.updateStatus tx st db))).
Proof.
  intros Hdb. pose proof (normalised_run ops db Hdb) as Hrun.
  split; [exact Hrun|]. split; [|split; [|split; [|split; [|split]]]].
  - destruct Hrun as (Hu & _). unfold lowerWallets.
    eapply List.Forall_impl; [|exact Hu]. now intros u [Hw _].
  - destruct Hrun as (Hu & _). unfold lowerReferrers.
    eapply List.Forall_impl; [|exact Hu]. now intros u [_ Hr].
  - intros w r now. now apply normalised_createUser.
  - intros. now apply normalised_recordInvestment.
  - intros w st. unfold UserRoutes.updateStatus. cbv zeta.
    destruct st as [st|]; [|exact Hdb].
    destruct (User.findByWallet _ _); [|exact Hdb].
    destruct Hdb as (Hu & Hl & Hi). repeat split; cbn [fst users levels investments]; auto.
    apply Forall_updateFirst; [|exact Hu]. now intros x Hx.
  - intros tx st. unfold InvestmentRoutes.updateStatus.
    destruct st as [st|]; [|exact Hdb].
    destruct (findOne _ _); [|exact Hdb].
    destruct Hdb as (Hu & Hl & Hi). repeat split; cbn [fst users levels investments]; auto.
    apply Forall_updateFirst; [|exact Hi]. now intros x Hx.
Qed.

(** X24, witness: the history of Scenario A and its sequel, from the
    empty store. *)
Lemma addresses_stay_lowercase_witness :
  normalised (run ListenerCases.history (@emptyDB ZNumber)).
Proof.
  assert (H0 : normalised (@emptyDB ZNumber)) by (repeat split; constructor).
  exact (proj1 (addresses_stay_lowercase (JS := ZNumber) ListenerCases.history
                  emptyDB H0)).
Defined.

(** ** The status of an investment and the direct routes *)

Section StatusUnseen.
Context `{JS : Number}.

Lemma ledgerTotal_updateFirst (q : Investment.t -> bool)
    (f : Investment.t -> Investment.t) (coll : list Investment.t) (w : string) :
  (forall i, Investment.userAddress (f i) = Investment.userAddress i) ->
  (forall i, Investment.amount (f i) = Investment.amount i) ->
  ReferralRoutes.ledgerTotal (updateFirst q f coll) w
  = ReferralRoutes.ledgerTotal coll w.
Proof.
  intros Hu Ha. unfold ReferralRoutes.ledgerTotal, sumOf, findAll.
  generalize zero. induction coll as [|x l IH]; intros acc; [reflexivity|].
  cbn [updateFirst]. destruct (q x).
  - cbn [List.filter]. rewrite Hu.
    destruct (String.eqb _ _); [|reflexivity]. cbn [fold_left]. now rewrite Ha.
  - cbn [List.filter]. destruct (String.eqb _ _); [|apply IH].
    cbn [fold_left]. apply IH.
Qed.

Lemma usersAtLevelFrom_ext {Entry : Type} (entryOf : User.t -> nat -> num -> Entry)
    (db db' : DB) (t : nat) (remaining : nat) :
  users db' = users db ->
  (forall w, ReferralRoutes.ledgerTotal (investments db') w
             = ReferralRoutes.ledgerTotal (investments db) w) ->
  forall cur,
    ReferralRoutes.usersAtLevelFrom entryOf db' remaining cur t
    = ReferralRoutes.usersAtLevelFrom entryOf db remaining cur t.
Proof.
  intros Hu Hl. induction remaining as [|rem IH]; intros cur; [reflexivity|].
  cbn [ReferralRoutes.usersAtLevelFrom]. cbv zeta. rewrite Hu.
  destruct (21 - rem =? t).
  - apply List.map_ext. intros u. now rewrite Hl.
  - apply List.flat_map_ext. intros u. apply IH.
Qed.

Lemma fold_left_ext {A B : Type} (f g : A -> B -> A) (l : list B) :
  (forall a b, f a b = g a b) -> forall a, fold_left f l a = fold_left g l a.
Proof.
  intros H. induction l as [|b l IH]; intros a; [reflexivity|].
  cbn [fold_left]. now rewrite H, IH.
Qed.

End StatusUnseen.

(** X25. The direct routes do not see the status of an investment.
    [PATCH /:txHash/status] touches neither users nor relationship rows,
    and, whatever status it sets (failed included), the sum of the ledger
    amounts under every address stays what it was, so that the answers of
    tree-direct and stats-direct are the same before and after. *)
Theorem investment_status_unseen `{JS : Number} (txHash : string)
    (status : option Investment.status_t) (db : DB)
    (walletAddress : string) (levelsQuery : option Z) (now : N) :
  let db' := fst (InvestmentRoutes.updateStatus txHash status db) in
  users db' = users db /\ levels db' = levels db
  /\ (forall a, ReferralRoutes.ledgerTotal (investments db') a
                = ReferralRoutes.ledgerTotal (investments db) a)
  /\ ReferralRoutes.TreeDirect.treeDirect walletAddress levelsQuery now db'
     = ReferralRoutes.TreeDirect.treeDirect walletAddress levelsQuery now db
  /\ ReferralRoutes.StatsDirect.compute db' walletAddress now
     = ReferralRoutes.StatsDirect.compute db walletAddress now.
Proof.
  cbv zeta.
  set (db' := fst (InvestmentRoutes.updateStatus txHash status db)).
  assert (Hu : users db' = users db).
  { unfold db', InvestmentRoutes.updateStatus. destruct status; [|reflexivity].
    now destruct (findOne _ _). }
  assert (Hlv : levels db' = levels db).
  { unfold db', InvestmentRoutes.updateStatus. destruct status; [|reflexivity].
    now destruct (findOne _ _). }
  assert (Hl : forall a, ReferralRoutes.ledgerTotal (investments db') a
                         = ReferralRoutes.ledgerTotal (investments db) a).
  { intros a. unfold db', InvestmentRoutes.updateStatus.
    destruct status as [st|]; [|reflexivity].
    destruct (findOne _ _); [|reflexivity]. cbn [fst investments].
    now apply ledgerTotal_updateFirst. }
  split; [exact Hu|]. split; [exact Hlv|]. split; [exact Hl|].
  assert (Hwalk : forall (Entry : Type) (entryOf : User.t -> nat -> num -> Entry) t cur,
            ReferralRoutes.usersAtLevelFrom entryOf db' (22 - 1) cur t
            = ReferralRoutes.usersAtLevelFrom entryOf db (22 - 1) cur t)
    by (intros; now apply usersAtLevelFrom_ext).
  split.
  - unfold ReferralRoutes.TreeDirect.treeDirect. cbv zeta. rewrite Hu.
    destruct (_ <? _)%Z; [reflexivity|].
    destruct (User.findByWallet _ _); [|reflexivity].
    rewrite (fold_left_ext (ReferralRoutes.TreeDirect.levelRound db' walletAddress)
               (ReferralRoutes.TreeDirect.levelRound db walletAddress));
      [reflexivity|].
    intros [[[tree stats] size] inv] l.
    unfold ReferralRoutes.TreeDirect.levelRound,
      ReferralRoutes.TreeDirect.getUsersAtLevel.
    now rewrite Hwalk.
  - unfold ReferralRoutes.StatsDirect.compute, ReferralRoutes.StatsDirect.levelLoop.
    rewrite Hu.
    erewrite fold_left_ext; [reflexivity|].
    intros [[summary size] inv] l.
    unfold ReferralRoutes.StatsDirect.getUsersAtLevel. now rewrite Hwalk.
Qed.

(** ** The statistics read from the relationship rows *)

(** X26. The statistics route agrees with the analytics route.  For a
    known wallet [GET /referrals/stats/:walletAddress] reports as team
    size the number of active rows under the wallet and lists the levels
    1 to 21 with the number of those rows at each level; whenever the
    analytics route answers with a body for the same wallet and store,
    both report the same team size and the same user count at every level,
    and the per-level counts add up to the team size. *)
Theorem stats_agrees_with_analytics `{JS : Number} (param : string) (db : DB)
    (b : MaterializedStats.body) :
  MaterializedStats.stats param db = MaterializedStats.Json b ->
  let rows :=
    findAll (LevelRoutes.activeUnder (toLowerCase param)) (levels db) in
  MaterializedStats.totalTeamSize (MaterializedStats.totals b) = List.length rows
  /\ List.map (fun p => (fst p, MaterializedStats.userCount (snd p)))
       (MaterializedStats.levelSummary b)
     = List.map (fun i => (i, List.length
                               (findAll (fun x => Level.level x =? i) rows)))
         (seq 1 21)
  /\ forall a,
       LevelRoutes.userAnalytics param db = LevelRoutes.Json a ->
       LevelRoutes.totalTeamSize (LevelRoutes.teamSummary a)
       = MaterializedStats.totalTeamSize (MaterializedStats.totals b)
       /\ List.map (fun l => (LevelRoutes.level l,
                              LevelRoutes.totalUsers (LevelRoutes.statistics l)))
            (LevelRoutes.levelAnalytics a)
          = List.map (fun p => (fst p, MaterializedStats.userCount (snd p)))
              (MaterializedStats.levelSummary b)
       /\ list_sum (List.map (fun p => MaterializedStats.userCount (snd p))
                      (MaterializedStats.levelSummary b))
          = MaterializedStats.totalTeamSize (MaterializedStats.totals b).
Proof.
  unfold MaterializedStats.stats. cbv zeta.
  remember (seq 1 21) as ls eqn:Hls.
  destruct (User.findByWallet (users db) (toLowerCase param)); [|discriminate].
  intros [= <-].
  cbn [MaterializedStats.totals MaterializedStats.totalTeamSize
       MaterializedStats.levelSummary].
  set (rows := findAll (LevelRoutes.activeUnder (toLowerCase param)) (levels db)).
  rewrite !List.map_map. cbn [fst snd MaterializedStats.userCount].
  split; [reflexivity|]. split; [reflexivity|].
  intros a Ha.
  destruct (userAnalytics_view param db a Ha) as (A1 & A2 & _).
  cbv zeta in A1, A2. fold rows in A1, A2. rewrite <- Hls in A1.
  split; [exact A2|]. split; [exact A1|].
  assert (Hall : Forall (fun r => 1 <= Level.level r < 1 + 21) rows).
  { revert Ha. unfold LevelRoutes.userAnalytics.
    destruct (negb _); [discriminate|].
    destruct (User.findByWallet _ _); [|discriminate].
    destruct (forallb _ _) eqn:Hrange; [|discriminate]. intros _.
    apply sort_Forall. apply List.Forall_forall. intros r Hr.
    rewrite forallb_forall in Hrange. specialize (Hrange r Hr).
    apply andb_true_iff in Hrange as [H1 H2].
    apply Nat.leb_le in H1. apply Nat.leb_le in H2. lia. }
  rewrite <- (counts_add_up rows 1 21 Hall), <- Hls. reflexivity.
Qed.

(** X26, witness: the statistics of the root of Scenario A. *)
Lemma stats_agrees_with_analytics_witness :
  MaterializedStats.totalTeamSize
    (MaterializedStats.totals StatsCases.statsBodyR)
  = List.length
      (findAll (LevelRoutes.activeUnder (JS := ZNumber) (toLowerCase Scenario.addrR))
               (levels Scenario.storeA)).
Proof.
  exact (proj1 (stats_agrees_with_analytics (JS := ZNumber) Scenario.addrR
                  Scenario.storeA StatsCases.statsBodyR eq_refl)).
Defined.
